(** * Calemly React SDK: booking orchestration core

    A shallow embedding of the parts of the SDK that carry its reliability
    contract, and the properties proved about them:

    - [Identity]     utils/bookingSource.js   (client request ids)
    - [ApiClient]    api/client.js            (retry and backoff)
    - [FormEngine]   components/CustomFormRenderer.js (visibility, validation)
    - [BookingForm]  components/BookingForm   (honeypot, conflict fallback)
    - [Orchestrator] SchedulerProvider        (steps, slot cache, submission,
                                               PayPal return)
    - [Transport]    api/client.js            (addresses, waiting time)
    - [Tokens]       utils/bookingSource.js   (stored identifiers)
    - [Flow]         SchedulerProvider        (further actions)
    - [Host]         SchedulerProvider        (onBookingSuccess, onBookingError)
    - [Checkout]     components/BookingForm   (payment dialog)
    - [Widget]       components/ConflictResolver.js (confidence badges)

    Conventions.  Instants and durations are milliseconds in [Z].  A JS
    object used as a dictionary is a [gmap] over its own string keys, and an
    object spread [{...a, ...b}] is the right-biased union [b ∪ a]; where
    the code assigns under a computed key, or reads one that may be no own
    property, the part of [Object.prototype] is written out
    ([assignProperty], [FormEngine.readAnswer]).  A JS string is a [string]
    with one [ascii] per UTF-16 code unit, so the strings spoken of are
    those over the ASCII range; the empty string is the falsy one.
    Everything that the browser or the network decides (the clock,
    [Math.random], [crypto.randomUUID], HTTP responses, host callbacks) is
    an explicit argument of the function that consumes it. *)

From stdpp Require Import gmap strings list fin_maps pretty.
From Stdlib Require Import ZArith QArith Qminmax Lia Lqa String Ascii.

Local Open Scope Z_scope.

(** ** JS string helpers shared by the modules *)

(** [value || fallback] on strings: the empty string is falsy. *)
Definition str_or (value fallback : string) : string :=
  if decide (value = ""%string) then fallback else value.

Definition truthy (value : string) : bool :=
  if decide (value = ""%string) then false else true.

(** [parts.join(sep)] *)
Fixpoint join (sep : string) (parts : list string) : string :=
  match parts with
  | [] => ""
  | [p] => p
  | p :: rest => p +:+ sep +:+ join sep rest
  end.

(** ** Plain objects used as dictionaries *)

(** [obj[key] = value] on a plain object, given by its own properties.  Every
    key but ["__proto__"] gets an own property, created or overwritten.
    ["__proto__"] names an accessor of [Object.prototype]: unless the
    object has an own property of that name (which [JSON.parse],
    [Object.fromEntries] and a computed key of an object literal create),
    the assignment runs the setter, which at most replaces the prototype
    and leaves the own properties as they were. *)
Definition assignProperty {A : Type} (key : string) (value : A)
    (obj : gmap string A) : gmap string A :=
  match obj !! key with
  | Some _ => <[key := value]> obj
  | None => if decide (key = "__proto__"%string) then obj else <[key := value]> obj
  end.

(* ===================================================================== *)
(** * Identity utilities (utils/bookingSource.js) *)
(* ===================================================================== *)

Module Identity.

Definition REQUEST_ID_TTL_MS : Z := 72 * 60 * 60 * 1000.

(** One property of the object kept under [REQUEST_ID_STORAGE_KEY]: what
    this module writes is [{ id, expiresAt }]; anything else that
    [JSON.parse] may return for a property (null, a number, a string, an
    object without a comparable [expiresAt]) is [Junk]. *)
Inductive stored : Type :=
  | Entry (id : string) (expiresAt : Z)
  | Junk.

#[export] Instance stored_eq_dec : EqDecision stored.
Proof. solve_decision. Defined.

(** [localStorage]: undefined (or throwing on access) in private browsing,
    otherwise the parsed item under the request-id key, if any. *)
Inductive LocalStorage : Type :=
  | Unavailable
  | Available (item : option (gmap string stored)).

Definition parseStoredRequestIds (ls : LocalStorage) : gmap string stored :=
  match ls with
  | Unavailable => ∅
  | Available None => ∅
  | Available (Some parsed) => parsed
  end.

Definition persistStoredRequestIds (value : gmap string stored)
    (ls : LocalStorage) : LocalStorage :=
  match ls with
  | Unavailable => Unavailable
  | Available _ => Available (Some value)
  end.

(** [entry && typeof entry === 'object' && entry.expiresAt > now] *)
Definition live (now : Z) (entry : stored) : Prop :=
  match entry with
  | Entry _ expiresAt => now < expiresAt
  | Junk => False
  end.

#[export] Instance live_dec now entry : Decision (live now entry).
Proof. destruct entry; simpl; apply _. Defined.

(** [(scopeKey || 'default').toString().slice(0, 180)]: [slice] counts
    UTF-16 code units, which are the characters of the [string]. *)
Definition safeScope (scopeKey : string) : string :=
  substring 0 180 (str_or scopeKey "default").

Definition cleanStore (now : Z) (store : gmap string stored) : gmap string stored :=
  filter (λ kv, live now kv.2) store.

(** [getOrCreateClientRequestId(scopeKey, ttlMs)], with the clock reading
    [now] and the value [uuid] that [createUuid()] would return made
    explicit.  Returns the id and the storage left behind.

    [cleanedStore] is the plain object that [Object.fromEntries] builds:
    [cleanedStore[safeScope]] is an own entry or, failing that, something
    inherited whose [id] is undefined, and [cleanedStore[safeScope] = ...]
    is [assignProperty]; [JSON.stringify] writes the own properties. *)
Definition getOrCreateClientRequestId (scopeKey : string) (ttlMs : Z)
    (now : Z) (uuid : string) (ls : LocalStorage) : string * LocalStorage :=
  let safe := safeScope scopeKey in
  let store := parseStoredRequestIds ls in
  let cleanedStore := cleanStore now store in
  let mint :=
    (uuid,
     persistStoredRequestIds
       (assignProperty safe (Entry uuid (now + ttlMs)) cleanedStore) ls) in
  match cleanedStore !! safe with
  | Some (Entry id _) =>
      if truthy id then (id, persistStoredRequestIds cleanedStore ls)
      else mint
  | _ => mint
  end.

(** The entry that a later read will find for a scope. *)
Definition storedEntry (ls : LocalStorage) (scopeKey : string) : option stored :=
  parseStoredRequestIds ls !! safeScope scopeKey.


End Identity.

(* ===================================================================== *)
(** * Form validation engine (components/CustomFormRenderer.js) *)
(* ===================================================================== *)

Module FormEngine.

(** *** Character classes and string tests, on the ASCII range *)

Definition isSpace (c : ascii) : bool :=
  let n := nat_of_ascii c in
  ((9 <=? n) && (n <=? 13) || (n =? 32))%nat.

Definition isDigit (c : ascii) : bool :=
  let n := nat_of_ascii c in ((48 <=? n) && (n <=? 57))%nat.

Definition lowerChar (c : ascii) : ascii :=
  let n := nat_of_ascii c in
  if ((65 <=? n) && (n <=? 90))%nat then ascii_of_nat (n + 32) else c.

Fixpoint toLowerCase (s : string) : string :=
  match s with
  | EmptyString => EmptyString
  | String c rest => String (lowerChar c) (toLowerCase rest)
  end.

Fixpoint allChars (p : ascii → bool) (s : string) : bool :=
  match s with
  | EmptyString => true
  | String c rest => p c && allChars p rest
  end.

(** [haystack.includes(needle)] *)
Fixpoint includes (needle haystack : string) : bool :=
  String.prefix needle haystack
  || match haystack with
     | EmptyString => false
     | String _ rest => includes needle rest
     end.

(** Splits at the first occurrence of [sep]. *)
Fixpoint splitAt (sep : ascii) (s : string) : option (string * string) :=
  match s with
  | EmptyString => None
  | String c rest =>
      if Ascii.eqb c sep then Some (EmptyString, rest)
      else match splitAt sep rest with
           | Some (before, after) => Some (String c before, after)
           | None => None
           end
  end.

Definition plainChar (c : ascii) : bool := negb (isSpace c) && negb (Ascii.eqb c "@").

(** Some ["."] of [s] has a character before it and one after it. *)
Fixpoint innerDot (s : string) : bool :=
  match s with
  | String _ (String "." (String _ _)) => true
  | String _ rest => innerDot rest
  | EmptyString => false
  end.

(** [/^[^\s@]+@[^\s@]+\.[^\s@]+$/.test(text)] *)
Definition emailRegex (text : string) : bool :=
  match splitAt "@" text with
  | None => false
  | Some (user, domain) =>
      negb (String.eqb user "") && allChars plainChar user
      && allChars plainChar domain && innerDot domain
  end.

Definition phoneChar (c : ascii) : bool :=
  isDigit c || isSpace c
  || Ascii.eqb c "-" || Ascii.eqb c "+" || Ascii.eqb c "(" || Ascii.eqb c ")".

(** [/^[\d\s\-+()]+$/.test(text)] *)
Definition phoneRegex (text : string) : bool :=
  negb (String.eqb text "") && allChars phoneChar text.

(** *** Schema and answers *)

(** An answer is a string (text, choice, date) or an array of strings
    (checkboxes); the answers object holds the given ones as its own
    properties. *)
Inductive Answer : Type :=
  | AStr (s : string)
  | AList (items : list string).

(** [String(Object.prototype[key])] for the keys that [Object.prototype]
    defines: its functions, printed as V8 and JavaScriptCore print a
    built-in, and under ["__proto__"] the prototype object itself. *)
Definition prototypeText (key : string) : option string :=
  if decide (key = "__proto__"%string) then Some "[object Object]"%string
  else if decide (key = "constructor"%string)
  then Some "function Object() { [native code] }"%string
  else if bool_decide (key ∈ ["hasOwnProperty"; "isPrototypeOf"; "propertyIsEnumerable";
                              "toLocaleString"; "toString"; "valueOf";
                              "__defineGetter__"; "__defineSetter__";
                              "__lookupGetter__"; "__lookupSetter__"]%string)
  then Some ("function " +:+ key +:+ "() { [native code] }")%string
  else None.

(** What [answers?.[key]] evaluates to on the answers object: its own
    property of that name; failing that the property that it inherits from
    [Object.prototype], a function or an object (truthy, no array, no
    string), kept by the text that [String] gives for it; else
    [undefined]. *)
Inductive Read : Type :=
  | Undefined
  | Own (answer : Answer)
  | Inherited (text : string).

Definition readAnswer (answers : gmap string Answer) (key : string) : Read :=
  match answers !! key with
  | Some answer => Own answer
  | None =>
      match prototypeText key with
      | Some text => Inherited text
      | None => Undefined
      end
  end.

Inductive Operator : Type :=
  | Equals | NotEquals | Contains | IsEmpty | IsNotEmpty
  | UnknownOperator.

Record Condition : Type := {
  c_fieldId : string;
  c_operator : Operator;
  c_value : string;
}.

(** [field.conditional]: the [show] flag and the conditions (an empty list
    when [conditions] is not an array). *)
Record Conditional : Type := {
  show : bool;
  conditions : list Condition;
}.

Inductive FieldType : Type :=
  | ShortText | LongText | Email | Phone | Dropdown | MultipleChoice
  | Checkboxes | DateField | Url.

Record Field : Type := {
  f_id : string;
  f_type : FieldType;
  f_required : bool;
  f_conditional : option Conditional;
}.

(** [String(answer || '')] *)
Definition answerText (answer : Read) : string :=
  match answer with
  | Undefined => ""
  | Own (AStr s) => s
  | Own (AList items) => join "," items
  | Inherited text => text
  end.

(** [!value] *)
Definition falsyAnswer (value : Read) : bool :=
  match value with
  | Undefined => true
  | Own (AStr s) => negb (truthy s)
  | Own (AList _) => false
  | Inherited _ => false
  end.

(** [!value || (Array.isArray(value) && value.length === 0) || value === ''] *)
Definition emptyAnswer (value : Read) : bool :=
  falsyAnswer value
  || match value with
     | Own (AList []) => true
     | _ => false
     end.

(** The callback of [conditions.every] in [isFieldVisible]. *)
Definition conditionHolds (answers : gmap string Answer) (condition : Condition) : bool :=
  let answer := readAnswer answers (c_fieldId condition) in
  match c_operator condition with
  | Equals =>
      match answer with
      | Own (AList items) => bool_decide (c_value condition ∈ items)
      | _ => String.eqb (answerText answer) (c_value condition)
      end
  | NotEquals =>
      match answer with
      | Own (AList items) => negb (bool_decide (c_value condition ∈ items))
      | _ => negb (String.eqb (answerText answer) (c_value condition))
      end
  | Contains =>
      includes (toLowerCase (c_value condition)) (toLowerCase (answerText answer))
  | IsEmpty =>
      match answer with
      | Own (AList items) => bool_decide (items = [])
      | _ => falsyAnswer answer
      end
  | IsNotEmpty =>
      match answer with
      | Own (AList items) => negb (bool_decide (items = []))
      | _ => negb (falsyAnswer answer)
      end
  | UnknownOperator => true
  end.

Definition isFieldVisible (field : Field) (answers : gmap string Answer) : bool :=
  match f_conditional field with
  | None => true
  | Some conditional =>
      if negb (show conditional) then true
      else match conditions conditional with
           | [] => true
           | conds => forallb (conditionHolds answers) conds
           end
  end.

Record Validation : Type := {
  isValid : bool;
  errors : gmap string string;
}.

Section Validate.

(** [new URL(text)] does not throw. *)
Variable urlParses : string → bool.

(** The body of [fields.forEach] in [validateFormAnswers], as a step on the
    own properties of the [errors] object; [errors[field.id] = message] is
    [assignProperty], and the regular expressions and [new URL] see the
    value as [String] gives it. *)
Definition validateField (answers : gmap string Answer)
    (errs : gmap string string) (field : Field) : gmap string string :=
  if negb (isFieldVisible field answers) then errs
  else
    let value := readAnswer answers (f_id field) in
    if f_required field && emptyAnswer value then
      assignProperty (f_id field) "This field is required"%string errs
    else if falsyAnswer value then errs
    else
      let text := answerText value in
      let errs1 :=
        match f_type field with
        | Email => if emailRegex text then errs
                   else assignProperty (f_id field)
                          "Please enter a valid email address"%string errs
        | _ => errs
        end in
      let errs2 :=
        match f_type field with
        | Url => if urlParses text then errs1
                 else assignProperty (f_id field) "Please enter a valid URL"%string errs1
        | _ => errs1
        end in
      match f_type field with
      | Phone => if phoneRegex text then errs2
                 else assignProperty (f_id field)
                        "Please enter a valid phone number"%string errs2
      | _ => errs2
      end.

(** [validateFormAnswers(formSchema, answers)], on [formSchema?.fields || []];
    [Object.keys(errors)] lists the own properties. *)
Definition validateFormAnswers (fields : list Field)
    (answers : gmap string Answer) : Validation :=
  let errs := foldl (validateField answers) ∅ fields in
  {| isValid := bool_decide (errs = ∅); errors := errs |}.

End Validate.

(** The conditional field of the spec's example: [F2], required, shown
    when [F1] equals ["yes"]; [show] is the flag of its rule. *)
Definition whenF1IsYes : Condition :=
  {| c_fieldId := "F1"; c_operator := Equals; c_value := "yes" |}.

Definition fieldF2 (showFlag : bool) : Field :=
  {| f_id := "F2"; f_type := ShortText; f_required := true;
     f_conditional := Some {| show := showFlag; conditions := [whenF1IsYes] |} |}.

End FormEngine.

(* ===================================================================== *)
(** * Data model shared by the form and the orchestrator *)
(* ===================================================================== *)

Module Model.

Inductive Step : Type := SELECT_EVENT | SELECT_TIME | CONFIRM | SUCCESS.

#[export] Instance Step_eq_dec : EqDecision Step.
Proof. solve_decision. Defined.

Record Slot : Type := {
  start : string;
  end_ : string;
  startLocal : string;
  endLocal : string;
  isPending : bool;
}.

#[export] Instance Slot_eq_dec : EqDecision Slot.
Proof. solve_decision. Defined.

(** The properties of an event type that the flow reads.
    [brief_has_content] is [hasBriefContent(brief_template)]. *)
Record EventType : Type := {
  et_id : string;
  et_slug : string;
  et_name : string;
  et_duration : Z;
  et_calendarId : string;
  requires_payment : bool;
  payment_enabled : bool;
  price_cents : Z;
  brief_enabled : bool;
  brief_has_content : bool;
  form_fields : list FormEngine.Field;
}.

(** A JSON value of a request payload. *)
Inductive JVal : Type :=
  | JStr (s : string)
  | JBool (b : bool)
  | JNum (n : Z)
  | JAnswers (answers : list (string * FormEngine.Answer))
  | JObj (properties : list (string * string)).

(** A payload object.  A property whose value is [undefined] is the same as
    a missing one for every reader here and for [JSON.stringify], so
    [key: v || undefined] inserts [key] only when [v] is truthy. *)
Abbreviation Payload := (gmap string JVal).

(** [{ ...base, ...over }] *)
Definition spread (base over : Payload) : Payload := over ∪ base.

(** [key: value || undefined] written over an object. *)
Definition setOrUndefined (key value : string) (obj : Payload) : Payload :=
  if truthy value then <[key := JStr value]> obj else delete key obj.

(** [obj[key]] read as a string ([""] when missing or not a string). *)
Definition getStr (obj : Payload) (key : string) : string :=
  match obj !! key with
  | Some (JStr s) => s
  | _ => ""
  end.

(** The slot fields copied when a slot is picked or snapshotted. *)
Definition plainSlot (slot : Slot) : Slot :=
  {| start := start slot; end_ := end_ slot; startLocal := startLocal slot;
     endLocal := endLocal slot; isPending := false |}.

(** A conflict suggestion: a slot with a confidence score and a reason. *)
Record Suggestion : Type := {
  sg_slot : Slot;
  confidenceScore : Z;
  explanation : string;
}.

(** The record kept in [sessionStorage] across the PayPal redirect, as
    [JSON.parse] returns it: [pb_orderId] is [orderId || order_id] ([""] when
    neither is there), and the three objects may be missing. *)
Record PendingPayPalBooking : Type := {
  pb_orderId : string;
  pb_payload : option Payload;
  pb_slot : option Slot;
  pb_eventType : option EventType;
  pb_userTimezone : string;
}.

(** *** The fixtures of tests/sdk.integration.test.mjs *)

Definition slotAt (startTime endTime : string) : Slot :=
  {| start := startTime; end_ := endTime; startLocal := ""; endLocal := "";
     isPending := false |}.

Definition janeSlot : Slot := slotAt "2026-05-10T10:00:00.000Z" "2026-05-10T10:30:00.000Z".

Definition paidIntroCall : EventType :=
  {| et_id := "evt_1"; et_slug := ""; et_name := "Paid Intro Call"; et_duration := 30;
     et_calendarId := ""; requires_payment := true; payment_enabled := true;
     price_cents := 5000; brief_enabled := false; brief_has_content := false;
     form_fields := [] |}.

Definition freeIntroCall : EventType :=
  {| et_id := "evt_conflict_1"; et_slug := ""; et_name := "Conflict Session";
     et_duration := 30; et_calendarId := "cal_1"; requires_payment := false;
     payment_enabled := false; price_cents := 0; brief_enabled := false;
     brief_has_content := false; form_fields := [] |}.

Definition janePayload : Payload :=
  <["guest_name" := JStr "Jane Guest"]> (<["guest_email" := JStr "jane@example.com"]> ∅).

Definition pendingOrd1 : PendingPayPalBooking :=
  {| pb_orderId := "ord_1"; pb_payload := Some janePayload; pb_slot := Some janeSlot;
     pb_eventType := Some paidIntroCall; pb_userTimezone := "UTC" |}.

End Model.

(* ===================================================================== *)
(** * Scheduling API client (api/client.js) *)
(* ===================================================================== *)

Module ApiClient.
Import Model.

(** [calculateBackoff(attempt, baseDelay, maxDelay)]; [random] is the value
    of the [Math.random()] call, a number in [[0, 1)].  The sum is the
    exact one; the code has it rounded to the nearest binary64 number. *)
Definition calculateBackoffWith (attempt : nat) (baseDelay maxDelay : Z)
    (random : Q) : Q :=
  let delay := Qmin (inject_Z (baseDelay * 2 ^ Z.of_nat attempt)) (inject_Z maxDelay) in
  (delay + random * 350)%Q.

Definition calculateBackoff (attempt : nat) (random : Q) : Q :=
  calculateBackoffWith attempt 1000 12000 random.

(** A [Retry-After] header, seen through the two parsers the code applies
    to it: [Number.parseInt(value, 10)] ([None] for NaN) and
    [new Date(value).getTime()] ([None] for an invalid date). *)
Record HeaderValue : Type := {
  asSeconds : option Z;
  asDate : option Z;
}.

(** [parseRetryAfterHeader(value)]; [None] is [null].  [Math.ceil(r / 1000)]
    for a positive integer [r] is [(r + 999) / 1000]. *)
Definition parseRetryAfterHeader (value : option HeaderValue) (now : Z) : option Z :=
  match value with
  | None => None
  | Some v =>
      match asSeconds v with
      | Some n =>
          if 0 <? n then Some n
          else match asDate v with
               | None => None
               | Some t => let remainingMs := t - now in
                           if 0 <? remainingMs then Some ((remainingMs + 999) / 1000) else None
               end
      | None =>
          match asDate v with
          | None => None
          | Some t => let remainingMs := t - now in
                      if 0 <? remainingMs then Some ((remainingMs + 999) / 1000) else None
          end
      end
  end.

(** The parsed JSON body of a response ([{}] when it does not parse): the
    fields that [normalizeError] reads. *)
Record Body : Type := {
  b_message : string;
  b_error : string;
  b_code : string;
  b_retryAfter : option Z;
  b_alternatives : list Slot;
  b_suggestions : list string;
}.

Definition emptyBody : Body :=
  {| b_message := ""; b_error := ""; b_code := ""; b_retryAfter := None;
     b_alternatives := []; b_suggestions := [] |}.

(** The error objects thrown by [request]; [e_status = None] is a rejected
    [fetch] (no [status] property). *)
Record ApiError : Type := {
  e_message : string;
  e_status : option Z;
  e_code : string;
  e_retryAfter : option Z;
  e_alternatives : list Slot;
  e_suggestions : list string;
}.

(** A number used as a condition: [0] and [undefined] are falsy. *)
Definition truthyNum (value : option Z) : option Z :=
  match value with
  | Some n => if n =? 0 then None else Some n
  | None => None
  end.

Definition normalizeError (status : Z) (retryAfterHeader : option HeaderValue)
    (data : Body) (now : Z) : ApiError :=
  {| e_message :=
       str_or (b_message data)
         (str_or (b_error data)
            (if status =? 429
             then "Too many requests. Please try again in a moment."
             else "Request failed"));
     e_status := Some status;
     e_code := b_code data;
     e_retryAfter :=
       match truthyNum (b_retryAfter data) with
       | Some s => Some s
       | None => parseRetryAfterHeader retryAfterHeader now
       end;
     e_alternatives := b_alternatives data;
     e_suggestions := b_suggestions data |}.

Definition offlineError : ApiError :=
  {| e_message := "You appear to be offline. Check your internet connection and try again.";
     e_status := Some 0; e_code := "OFFLINE"; e_retryAfter := None;
     e_alternatives := []; e_suggestions := [] |}.

(** What one [fetch] does: reject (network failure), or answer. *)
Inductive Outcome : Type :=
  | FetchRejects (message : string)
  | FetchResponds (status : Z) (retryAfterHeader : option HeaderValue) (data : Body).

Definition rejectionError (message : string) : ApiError :=
  {| e_message := message; e_status := None; e_code := ""; e_retryAfter := None;
     e_alternatives := []; e_suggestions := [] |}.

(** [response.ok] *)
Definition responseOk (status : Z) : bool := (200 <=? status) && (status <=? 299).

(** [error?.status >= 400 && error?.status < 500 && error?.status !== 429] *)
Definition isClientError (error : ApiError) : bool :=
  match e_status error with
  | Some s => (400 <=? s) && (s <? 500) && negb (s =? 429)
  | None => false
  end.

Record RetryConfig : Type := {
  maxRetries : nat;
  retryOn429 : bool;
}.

Definition defaultRetryConfig : RetryConfig :=
  {| maxRetries := 2; retryOn429 := true |}.

(** The surroundings of one [request] call: connectivity, the outcome of
    the fetch issued at each attempt number, and the [Math.random()] and
    [Date.now()] readings taken at that attempt. *)
Record Env : Type := {
  onLine : bool;
  respond : nat → Outcome;
  random : nat → Q;
  clock : nat → Z;
}.

Inductive Event : Type :=
  | EvFetch (attempt : nat)
  | EvSleep (ms : Q).

Inductive Result : Type :=
  | Returned (data : Body)
  | Thrown (error : ApiError).

Definition andThen (events : list Event) (rest : option (Result * list Event))
    : option (Result * list Event) :=
  match rest with
  | Some (r, tr) => Some (r, events ++ tr)
  | None => None
  end.

(** The [while (attempt <= retryConfig.maxRetries)] loop of [request].
    Each iteration issues one fetch; [fuel] bounds the iterations and
    [None] means that the bound was hit. *)
Fixpoint requestLoop (cfg : RetryConfig) (env : Env) (fuel attempt : nat)
    (lastError : option ApiError) : option (Result * list Event) :=
  match fuel with
  | O => None
  | S fuel' =>
      if (attempt <=? maxRetries cfg)%nat then
        let catch (error : ApiError) :=
          if isClientError error then Some (Thrown error, [EvFetch attempt])
          else if (attempt <? maxRetries cfg)%nat then
            andThen [EvFetch attempt; EvSleep (calculateBackoff attempt (random env attempt))]
                    (requestLoop cfg env fuel' (S attempt) (Some error))
          else Some (Thrown error, [EvFetch attempt]) in
        match respond env attempt with
        | FetchRejects message => catch (rejectionError message)
        | FetchResponds status header data =>
            if responseOk status then Some (Returned data, [EvFetch attempt])
            else
              let error := normalizeError status header data (clock env attempt) in
              if (status =? 429) && retryOn429 cfg && (attempt <? maxRetries cfg)%nat then
                let waitMs :=
                  match truthyNum (e_retryAfter error) with
                  | Some s => inject_Z (s * 1000)
                  | None => calculateBackoff attempt (random env attempt)
                  end in
                andThen [EvFetch attempt; EvSleep waitMs]
                        (requestLoop cfg env fuel' (S attempt) lastError)
              else catch error
        end
      else
        Some (Thrown (default (rejectionError "Request failed") lastError), [])
  end.

(** [request(endpoint, options)] with [retryConfig = cfg]. *)
Definition requestWith (cfg : RetryConfig) (env : Env) : option (Result * list Event) :=
  if onLine env then requestLoop cfg env (S (S (maxRetries cfg))) 0 None
  else Some (Thrown offlineError, []).

(** No endpoint wrapper of [createSchedulerApi] passes a [retryConfig]. *)
Definition request (env : Env) : option (Result * list Event) :=
  requestWith defaultRetryConfig env.

Definition fetches (tr : list Event) : list nat :=
  omap (λ ev, match ev with EvFetch k => Some k | EvSleep _ => None end) tr.

(** The wait, if any, that follows the fetch of attempt [k]. *)
Fixpoint waitAfter (k : nat) (tr : list Event) : option Q :=
  match tr with
  | [] => None
  | EvFetch j :: rest =>
      match rest with
      | EvSleep ms :: _ => if (j =? k)%nat then Some ms else waitAfter k rest
      | _ => waitAfter k rest
      end
  | EvSleep _ :: rest => waitAfter k rest
  end.

(** A rejected fetch, or a response of the 5xx class. *)
Definition serverOrNetworkFailure (outcome : Outcome) : Prop :=
  match outcome with
  | FetchRejects _ => True
  | FetchResponds status _ _ => 500 ≤ status < 600
  end.

(** A server that answers every fetch with [status] and an empty body. *)
Definition alwaysStatus (status : Z) : Env :=
  {| onLine := true; respond := λ _, FetchResponds status None emptyBody;
     random := λ _, 0%Q; clock := λ _, 0 |}.

(** A server that answers every fetch with a 429 whose [Retry-After] header
    reads as [seconds] (as a date, it lies in the past) and whose body has
    the given [retryAfter]. *)
Definition throttledWith (seconds : option Z) (bodyRetryAfter : option Z) : Env :=
  {| onLine := true;
     respond := λ _, FetchResponds 429
                       (Some {| asSeconds := seconds; asDate := Some 946684800000 |})
                       {| b_message := ""; b_error := ""; b_code := "";
                          b_retryAfter := bodyRetryAfter;
                          b_alternatives := []; b_suggestions := [] |};
     random := λ _, 0%Q; clock := λ _, 1767225600000 |}.

(** The wait chosen after a 429 that is retried. *)
Definition waitFor429 (env : Env) (attempt : nat) (error : ApiError) : Q :=
  match truthyNum (e_retryAfter error) with
  | Some s => inject_Z (s * 1000)
  | None => calculateBackoff attempt (random env attempt)
  end.

(** How an iteration that ends the loop relates to the outcome of its
    fetch: the data of a 2xx response is returned; an error is thrown when
    it is a client error or no retry is left. *)
Definition stopsWith (cfg : RetryConfig) (env : Env) (attempt : nat) (r : Result) : Prop :=
  match respond env attempt with
  | FetchRejects message =>
      r = Thrown (rejectionError message) ∧ ¬ (attempt < maxRetries cfg)%nat
  | FetchResponds status header data =>
      if responseOk status then r = Returned data
      else
        let error := normalizeError status header data (clock env attempt) in
        r = Thrown error ∧ (isClientError error = true ∨ ¬ (attempt < maxRetries cfg)%nat)
  end.

(** How an iteration that goes round again relates to it. *)
Definition waitsFor (cfg : RetryConfig) (env : Env) (attempt : nat) (ms : Q) : Prop :=
  match respond env attempt with
  | FetchRejects _ => ms = calculateBackoff attempt (random env attempt)
  | FetchResponds status header data =>
      let error := normalizeError status header data (clock env attempt) in
      responseOk status = false ∧ isClientError error = false
      ∧ ms = if (status =? 429) && retryOn429 cfg then waitFor429 env attempt error
             else calculateBackoff attempt (random env attempt)
  end.

End ApiClient.

(* ===================================================================== *)
(** * Booking form (components/BookingForm) *)
(* ===================================================================== *)

Module BookingForm.
Import Model.

(** [value.trim()] *)
Fixpoint trimStart (s : string) : string :=
  match s with
  | EmptyString => EmptyString
  | String c rest => if FormEngine.isSpace c then trimStart rest else s
  end.

Definition reverse (s : string) : string :=
  string_of_list_ascii (rev (list_ascii_of_string s)).

Definition trim (s : string) : string :=
  reverse (trimStart (reverse (trimStart s))).

Definition isLineTerminator (c : ascii) : bool :=
  let n := nat_of_ascii c in ((n =? 10) || (n =? 13))%nat.

(** The scan of [/.+@.+\..+/]: [state] counts how much of the pattern the
    current line has matched so far (0: nothing, 1: [.+], 2: [.+@],
    3: [.+@.+], 4: [.+@.+\.]). *)
Fixpoint emailScan (state : nat) (s : string) : bool :=
  match s with
  | EmptyString => false
  | String c rest =>
      if isLineTerminator c then emailScan 0 rest
      else match state with
           | 0%nat => emailScan 1 rest
           | 1%nat => if Ascii.eqb c "@" then emailScan 2 rest else emailScan 1 rest
           | 2%nat => emailScan 3 rest
           | 3%nat => if Ascii.eqb c "." then emailScan 4 rest else emailScan 3 rest
           | _ => true
           end
  end.

(** [isValidEmail(value)] *)
Definition isValidEmail (value : string) : bool := emailScan 0 (trim value).

Inductive Provider : Type := Stripe | PayPal.

(** The [useState] cells of [BookingForm], grouped by concern. *)
Record Draft : Type := {
  name : string;
  email : string;
  phone : string;
  notes : string;
  answers : gmap string FormEngine.Answer;
  honeypot : string;
  selectedTemplateId : string;
  templateModified : bool;
  savePreferencesConsent : bool;
  templateSaveDefault : bool;
}.

Record Feedback : Type := {
  fieldErrors : gmap string string;
  inlineError : string;
}.

Record Conflict : Type := {
  showConflictResolver : bool;
  conflictSuggestions : list Suggestion;
  bestSuggestion : option Suggestion;
  isLoadingSuggestions : bool;
}.

Record Payment : Type := {
  selectedProvider : Provider;
  isLoadingPaymentInfo : bool;
  isCreatingPayment : bool;
  showPayment : bool;
  paymentClientSecret : option string;
  pendingPayload : option Payload;
}.

Record Brief : Type := {
  showBrief : bool;
  briefError : option string;
  briefPendingPayload : option Payload;
}.

Record FormState : Type := {
  draft : Draft;
  feedback : Feedback;
  conflict : Conflict;
  payment : Payment;
  brief : Brief;
}.

Definition withFeedback (f : Feedback) (st : FormState) : FormState :=
  {| draft := draft st; feedback := f; conflict := conflict st;
     payment := payment st; brief := brief st |}.

Definition withConflict (c : Conflict) (st : FormState) : FormState :=
  {| draft := draft st; feedback := feedback st; conflict := c;
     payment := payment st; brief := brief st |}.

Definition withPayment (p : Payment) (st : FormState) : FormState :=
  {| draft := draft st; feedback := feedback st; conflict := conflict st;
     payment := p; brief := brief st |}.

Definition withBrief (b : Brief) (st : FormState) : FormState :=
  {| draft := draft st; feedback := feedback st; conflict := conflict st;
     payment := payment st; brief := b |}.

(** [setFieldErrors((previous) => ({ ...previous, _form: message }))] *)
Definition setFormError (message : string) (st : FormState) : FormState :=
  withFeedback {| fieldErrors := <["_form" := message]> (fieldErrors (feedback st));
                  inlineError := inlineError (feedback st) |} st.

Definition setInlineError (message : string) (st : FormState) : FormState :=
  withFeedback {| fieldErrors := fieldErrors (feedback st); inlineError := message |} st.

Definition setFieldErrors (errs : gmap string string) (st : FormState) : FormState :=
  withFeedback {| fieldErrors := errs; inlineError := inlineError (feedback st) |} st.

Definition setIsCreatingPayment (b : bool) (st : FormState) : FormState :=
  let p := payment st in
  withPayment {| selectedProvider := selectedProvider p;
                 isLoadingPaymentInfo := isLoadingPaymentInfo p;
                 isCreatingPayment := b; showPayment := showPayment p;
                 paymentClientSecret := paymentClientSecret p;
                 pendingPayload := pendingPayload p |} st.

Definition setPendingPayload (v : option Payload) (st : FormState) : FormState :=
  let p := payment st in
  withPayment {| selectedProvider := selectedProvider p;
                 isLoadingPaymentInfo := isLoadingPaymentInfo p;
                 isCreatingPayment := isCreatingPayment p; showPayment := showPayment p;
                 paymentClientSecret := paymentClientSecret p;
                 pendingPayload := v |} st.

(** [setPaymentClientSecret(clientSecret); setShowPayment(true)] *)
Definition openPayment (clientSecret : string) (st : FormState) : FormState :=
  let p := payment st in
  withPayment {| selectedProvider := selectedProvider p;
                 isLoadingPaymentInfo := isLoadingPaymentInfo p;
                 isCreatingPayment := isCreatingPayment p; showPayment := true;
                 paymentClientSecret := Some clientSecret;
                 pendingPayload := pendingPayload p |} st.

(** What the form resolves from its props and from the scheduler context. *)
Record Props : Type := {
  resolvedEventType : option EventType;
  resolvedSlot : option Slot;
  resolvedUserTimezone : string;
  resolvedIsLoading : bool;
  resolvedError : string;
  resolvedAlternatives : list Slot;
  hasTemplateFallbackSuggestions : bool;
}.

Definition eventId (props : Props) : string :=
  from_option et_id "" (resolvedEventType props).

Definition isPaidEvent (props : Props) : bool :=
  match resolvedEventType props with
  | Some et => requires_payment et && (0 <? price_cents et) && payment_enabled et
  | None => false
  end.

Definition hasBrief (props : Props) : bool :=
  match resolvedEventType props with
  | Some et => brief_enabled et && brief_has_content et
  | None => false
  end.

(** [isValid], the flag that enables the submit button. *)
Definition isValid (st : FormState) : bool :=
  truthy (trim (name (draft st))) && isValidEmail (email (draft st)).

(** What the handlers do to the outside, in order. *)
Inductive Effect : Type :=
  | PreventDefault
  | SubmitBooking (payload : Payload)
  | CreatePayPalOrder (eventTypeId guestEmail guestName : string)
  | CreatePaymentIntent (eventTypeId guestEmail guestName : string)
  | StorePendingBooking (pending : PendingPayPalBooking)
  | Navigate (url : string).

(** What the awaited calls resolve to. *)
Inductive SubmitResult : Type :=
  | SubmitOk
  | SubmitFailed (message : string).

Inductive Awaited (A : Type) : Type :=
  | Resolves (value : A)
  | Rejects (message : string).
Arguments Resolves {A} value.
Arguments Rejects {A} message.

Record Env : Type := {
  submitResult : Payload → SubmitResult;
  paypalOrder : Awaited (string * string);   (* approveUrl, orderId *)
  paymentIntent : Awaited string;            (* clientSecret *)
  urlParses : string → bool;
}.

Definition buildBasePayload (props : Props) (st : FormState) : Payload :=
  let d := draft st in
  let base : Payload :=
    setOrUndefined "guest_phone" (trim (phone d))
      (setOrUndefined "guest_notes" (trim (notes d))
         (<["guest_name" := JStr (trim (name d))]>
            (<["guest_email" := JStr (FormEngine.toLowerCase (trim (email d)))]>
               (<["honeypot" := JStr (honeypot d)]> ∅)))) in
  let base :=
    if decide (answers d = ∅) then base
    else <["answers" := JAnswers (map_to_list (answers d))]> base in
  if truthy (selectedTemplateId d) then
    let withTemplate :=
      <["template_id" := JStr (selectedTemplateId d)]>
        (<["template_used" := JBool true]>
           (<["template_modified" := JBool (templateModified d)]>
              (<["save_preferences_consent" := JBool (savePreferencesConsent d)]>
                 (<["template_save_default" := JBool (templateSaveDefault d)]> base)))) in
    if templateModified d then
      <["inline_template" := JObj [("event_type_id", eventId props);
                                   ("timezone", resolvedUserTimezone props)]%string]> withTemplate
    else withTemplate
  else base.

(** [submitPayload(payload)] *)
Definition submitPayload (env : Env) (payload : Payload) (st : FormState)
    : FormState * list Effect :=
  match submitResult env payload with
  | SubmitFailed message =>
      if truthy message
      then (setFormError message (setInlineError message st), [SubmitBooking payload])
      else (st, [SubmitBooking payload])
  | SubmitOk => (st, [SubmitBooking payload])
  end.

(** The snapshot written by [safeSetSessionItem] before the redirect. *)
Definition pendingSnapshot (props : Props) (orderId : string) (payload : Payload)
    : PendingPayPalBooking :=
  {| pb_orderId := orderId;
     pb_payload := Some payload;
     pb_slot := plainSlot <$> resolvedSlot props;
     pb_eventType := resolvedEventType props;
     pb_userTimezone := resolvedUserTimezone props |}.

(** [submitOrStartPayment(payload)] *)
Definition submitOrStartPayment (props : Props) (env : Env) (payload : Payload)
    (st : FormState) : FormState * list Effect :=
  if negb (isPaidEvent props) || negb (truthy (eventId props))
     || negb (bool_decide (is_Some (resolvedSlot props)))
  then submitPayload env payload st
  else
    let st1 := setPendingPayload (Some payload) (setIsCreatingPayment true st) in
    let guestEmail := getStr payload "guest_email" in
    let guestName := getStr payload "guest_name" in
    let failed (message : string) (effects : list Effect) :=
      (setIsCreatingPayment false
         (setFormError (str_or message "Failed to initialize payment. Please try again.") st1),
       effects) in
    match selectedProvider (payment st) with
    | PayPal =>
        let call := CreatePayPalOrder (eventId props) guestEmail guestName in
        match paypalOrder env with
        | Rejects message => failed message [call]
        | Resolves (approveUrl, orderId) =>
            if negb (truthy approveUrl) || negb (truthy orderId)
            then failed "Unable to initialize PayPal checkout. Please try again." [call]
            else (setIsCreatingPayment false st1,
                  [call; StorePendingBooking (pendingSnapshot props orderId payload);
                   Navigate approveUrl])
        end
    | Stripe =>
        let call := CreatePaymentIntent (eventId props) guestEmail guestName in
        match paymentIntent env with
        | Rejects message => failed message [call]
        | Resolves clientSecret =>
            if negb (truthy clientSecret)
            then failed "Unable to initialize payment. Please try again." [call]
            else (setIsCreatingPayment false (openPayment clientSecret st1), [call])
        end
    end.

(** [handleSubmit(event)] *)
Definition handleSubmit (props : Props) (env : Env) (st : FormState)
    : FormState * list Effect :=
  if truthy (honeypot (draft st)) then (st, [PreventDefault])
  else
    let nextErrors : gmap string string := ∅ in
    let nextErrors :=
      if truthy (trim (name (draft st))) then nextErrors
      else <["name" := "Please enter your name"%string]> nextErrors in
    let nextErrors :=
      if isValidEmail (email (draft st)) then nextErrors
      else <["email" := "Please enter a valid email address"%string]> nextErrors in
    let nextErrors :=
      match resolvedEventType props with
      | Some et =>
          match form_fields et with
          | [] => nextErrors
          | fields =>
              let validation :=
                FormEngine.validateFormAnswers (urlParses env) fields (answers (draft st)) in
              if FormEngine.isValid validation then nextErrors
              else FormEngine.errors validation ∪ nextErrors
          end
      | None => nextErrors
      end in
    if negb (bool_decide (nextErrors = ∅)) then
      (setFieldErrors nextErrors st, [PreventDefault])
    else
      let st1 := setInlineError "" (setFieldErrors ∅ st) in
      let payload := buildBasePayload props st in
      if hasBrief props && negb (showBrief (brief st)) then
        (withBrief {| showBrief := true; briefError := None;
                      briefPendingPayload := Some payload |} st1,
         [PreventDefault])
      else
        let '(st2, effects) := submitOrStartPayment props env payload st1 in
        (st2, PreventDefault :: effects).

(** The submit button of the form: [disabled || isLoading] of [Button]. *)
Definition submitDisabled (props : Props) (st : FormState) : bool :=
  negb (isValid st) || resolvedIsLoading props || isCreatingPayment (payment st)
  || (isPaidEvent props && isLoadingPaymentInfo (payment st)).

(** *** Conflict suggestions *)

(** [toFallbackSuggestions()] over [resolvedAlternatives]. *)
Definition toFallbackSuggestions (alternatives : list Slot) : list Suggestion :=
  imap (λ index alternative,
          {| sg_slot := alternative;
             confidenceScore := Z.max 40 (75 - Z.of_nat index * 10);
             explanation := "Available alternative slot" |}) alternatives.

Definition shouldLoadSuggestions (props : Props) : bool :=
  let message := FormEngine.toLowerCase (resolvedError props) in
  truthy (resolvedError props)
  && bool_decide (is_Some (resolvedSlot props))
  && truthy (eventId props)
  && negb (hasTemplateFallbackSuggestions props)
  && (FormEngine.includes "conflict" message
      || FormEngine.includes "slot was booked" message
      || FormEngine.includes "unavailable" message).

(** [actions.getConflictSuggestions]: not a function, or what its promise
    settles to ([None]: a value that is not an array). *)
Inductive SuggestionService : Type :=
  | ServiceAbsent
  | ServiceRejects
  | ServiceResolves (result : option (list Suggestion)).

Definition showSuggestions (suggestions : list Suggestion) (loading : bool) : Conflict :=
  {| showConflictResolver := true; conflictSuggestions := suggestions;
     bestSuggestion := head suggestions; isLoadingSuggestions := loading |}.

(** The conflict effect, run until the service call settles; [active] is
    the flag of the same name at that moment (cleared by the cleanup). *)
Definition conflictEffect (props : Props) (service : SuggestionService)
    (active : bool) (c : Conflict) : Conflict :=
  if negb (shouldLoadSuggestions props) then
    {| showConflictResolver := false; conflictSuggestions := [];
       bestSuggestion := None; isLoadingSuggestions := false |}
  else
    let fallbackSuggestions := toFallbackSuggestions (resolvedAlternatives props) in
    match service with
    | ServiceAbsent =>
        showSuggestions fallbackSuggestions (isLoadingSuggestions c)
    | _ =>
        if negb active then
          {| showConflictResolver := true; conflictSuggestions := conflictSuggestions c;
             bestSuggestion := bestSuggestion c; isLoadingSuggestions := true |}
        else
          match service with
          | ServiceResolves (Some (s :: rest)) => showSuggestions (s :: rest) false
          | _ => showSuggestions fallbackSuggestions false
          end
    end.

(** The cases in which the effect has to synthesize the suggestions: no
    service, or, the effect being still active when the call settles, a
    rejection, a value that is no array, or an empty array. *)
Definition synthesized (service : SuggestionService) (active : bool) : Prop :=
  service = ServiceAbsent
  ∨ (active = true
     ∧ (service = ServiceRejects ∨ service = ServiceResolves None
        ∨ service = ServiceResolves (Some []))).

(** *** A form as the integration test fills it *)

Definition janeForm (trap : string) : FormState :=
  {| draft := {| name := "Jane Guest"; email := "jane@example.com"; phone := "";
                 notes := ""; answers := ∅; honeypot := trap; selectedTemplateId := "";
                 templateModified := false; savePreferencesConsent := false;
                 templateSaveDefault := false |};
     feedback := {| fieldErrors := ∅; inlineError := "" |};
     conflict := {| showConflictResolver := false; conflictSuggestions := [];
                    bestSuggestion := None; isLoadingSuggestions := false |};
     payment := {| selectedProvider := Stripe; isLoadingPaymentInfo := false;
                   isCreatingPayment := false; showPayment := false;
                   paymentClientSecret := None; pendingPayload := None |};
     brief := {| showBrief := false; briefError := None; briefPendingPayload := None |} |}.

Definition conflictProps (alternatives : list Slot) : Props :=
  {| resolvedEventType := Some freeIntroCall;
     resolvedSlot := Some (slotAt "2026-05-12T09:00:00.000Z" "2026-05-12T09:30:00.000Z");
     resolvedUserTimezone := "UTC"; resolvedIsLoading := false;
     resolvedError := "That slot was booked moments ago. Please choose another available time.";
     resolvedAlternatives := alternatives;
     hasTemplateFallbackSuggestions := false |}.

Definition quietEnv : Env :=
  {| submitResult := λ _, SubmitOk; paypalOrder := Rejects "";
     paymentIntent := Rejects ""; urlParses := λ _, true |}.

End BookingForm.

(* ===================================================================== *)
(** * Booking orchestrator (SchedulerProvider) *)
(* ===================================================================== *)

Module Orchestrator.
Import Model.
Import ApiClient(ApiError, e_message, e_status, e_code, e_retryAfter,
                 e_alternatives, e_suggestions).

(** The [booking] of a booking-creation response. *)
Record Booking : Type := {
  bk_id : string;
}.

Record CacheEntry : Type := {
  ce_slots : gmap string (list Slot);
  ce_expiresAt : Z;
}.

(** The calls issued through the API client, as the network sees them. *)
Inductive ApiCall : Type :=
  | GetSlots (eventTypeId startDate endDate timezone : string)
  | GetSignedWidgetToken
  | CreateBooking (payload : Payload)
  | CapturePayPalOrder (order_id payer_id : string).

(** The PayPal callback parameters of [window.location.search]:
    [token], [PayerID] ([""] when missing) and [cancelled === 'true']. *)
Record Location : Type := {
  token : string;
  payerId : string;
  cancelledParam : bool;
}.

(** The [useState] cells and the refs ([availabilityCacheRef],
    [paypalReturnHandledRef]) of the provider. *)
Record State : Type := {
  step : Step;
  eventType : option EventType;
  eventTypes : list EventType;
  selection_mode : string;
  slots : gmap string (list Slot);
  selectedSlot : option Slot;
  confirmedBooking : option Booking;
  activeTemplate : option string;
  templateFallbackSuggestions : list string;
  error : option string;
  alternatives : list Slot;
  isSubmitting : bool;
  isLoadingSlots : bool;
  availabilityCache : gmap string CacheEntry;
  paypalReturnHandled : bool;
}.

(** What lives outside the component: the two storages, the address bar and
    the log of API calls. *)
Record World : Type := {
  localStorage : Identity.LocalStorage;
  pendingItem : option PendingPayPalBooking;
  location : Location;
  calls : list ApiCall;
}.

Definition setStep (value : Step) (st : State) : State :=
  {| step := value; eventType := eventType st; eventTypes := eventTypes st;
     selection_mode := selection_mode st; slots := slots st;
     selectedSlot := selectedSlot st; confirmedBooking := confirmedBooking st;
     activeTemplate := activeTemplate st;
     templateFallbackSuggestions := templateFallbackSuggestions st;
     error := error st; alternatives := alternatives st;
     isSubmitting := isSubmitting st; isLoadingSlots := isLoadingSlots st;
     availabilityCache := availabilityCache st;
     paypalReturnHandled := paypalReturnHandled st |}.

Definition setEventType (value : option EventType) (st : State) : State :=
  {| step := step st; eventType := value; eventTypes := eventTypes st;
     selection_mode := selection_mode st; slots := slots st;
     selectedSlot := selectedSlot st; confirmedBooking := confirmedBooking st;
     activeTemplate := activeTemplate st;
     templateFallbackSuggestions := templateFallbackSuggestions st;
     error := error st; alternatives := alternatives st;
     isSubmitting := isSubmitting st; isLoadingSlots := isLoadingSlots st;
     availabilityCache := availabilityCache st;
     paypalReturnHandled := paypalReturnHandled st |}.

Definition setSlots (value : gmap string (list Slot)) (st : State) : State :=
  {| step := step st; eventType := eventType st; eventTypes := eventTypes st;
     selection_mode := selection_mode st; slots := value;
     selectedSlot := selectedSlot st; confirmedBooking := confirmedBooking st;
     activeTemplate := activeTemplate st;
     templateFallbackSuggestions := templateFallbackSuggestions st;
     error := error st; alternatives := alternatives st;
     isSubmitting := isSubmitting st; isLoadingSlots := isLoadingSlots st;
     availabilityCache := availabilityCache st;
     paypalReturnHandled := paypalReturnHandled st |}.

Definition setSelectedSlot (value : option Slot) (st : State) : State :=
  {| step := step st; eventType := eventType st; eventTypes := eventTypes st;
     selection_mode := selection_mode st; slots := slots st; selectedSlot := value;
     confirmedBooking := confirmedBooking st; activeTemplate := activeTemplate st;
     templateFallbackSuggestions := templateFallbackSuggestions st;
     error := error st; alternatives := alternatives st;
     isSubmitting := isSubmitting st; isLoadingSlots := isLoadingSlots st;
     availabilityCache := availabilityCache st;
     paypalReturnHandled := paypalReturnHandled st |}.

Definition setConfirmedBooking (value : option Booking) (st : State) : State :=
  {| step := step st; eventType := eventType st; eventTypes := eventTypes st;
     selection_mode := selection_mode st; slots := slots st;
     selectedSlot := selectedSlot st; confirmedBooking := value;
     activeTemplate := activeTemplate st;
     templateFallbackSuggestions := templateFallbackSuggestions st;
     error := error st; alternatives := alternatives st;
     isSubmitting := isSubmitting st; isLoadingSlots := isLoadingSlots st;
     availabilityCache := availabilityCache st;
     paypalReturnHandled := paypalReturnHandled st |}.

Definition setActiveTemplate (value : option string) (st : State) : State :=
  {| step := step st; eventType := eventType st; eventTypes := eventTypes st;
     selection_mode := selection_mode st; slots := slots st;
     selectedSlot := selectedSlot st; confirmedBooking := confirmedBooking st;
     activeTemplate := value;
     templateFallbackSuggestions := templateFallbackSuggestions st;
     error := error st; alternatives := alternatives st;
     isSubmitting := isSubmitting st; isLoadingSlots := isLoadingSlots st;
     availabilityCache := availabilityCache st;
     paypalReturnHandled := paypalReturnHandled st |}.

Definition setTemplateFallbackSuggestions (value : list string) (st : State) : State :=
  {| step := step st; eventType := eventType st; eventTypes := eventTypes st;
     selection_mode := selection_mode st; slots := slots st;
     selectedSlot := selectedSlot st; confirmedBooking := confirmedBooking st;
     activeTemplate := activeTemplate st; templateFallbackSuggestions := value;
     error := error st; alternatives := alternatives st;
     isSubmitting := isSubmitting st; isLoadingSlots := isLoadingSlots st;
     availabilityCache := availabilityCache st;
     paypalReturnHandled := paypalReturnHandled st |}.

Definition setError (value : option string) (st : State) : State :=
  {| step := step st; eventType := eventType st; eventTypes := eventTypes st;
     selection_mode := selection_mode st; slots := slots st;
     selectedSlot := selectedSlot st; confirmedBooking := confirmedBooking st;
     activeTemplate := activeTemplate st;
     templateFallbackSuggestions := templateFallbackSuggestions st; error := value;
     alternatives := alternatives st; isSubmitting := isSubmitting st;
     isLoadingSlots := isLoadingSlots st; availabilityCache := availabilityCache st;
     paypalReturnHandled := paypalReturnHandled st |}.

Definition setAlternatives (value : list Slot) (st : State) : State :=
  {| step := step st; eventType := eventType st; eventTypes := eventTypes st;
     selection_mode := selection_mode st; slots := slots st;
     selectedSlot := selectedSlot st; confirmedBooking := confirmedBooking st;
     activeTemplate := activeTemplate st;
     templateFallbackSuggestions := templateFallbackSuggestions st;
     error := error st; alternatives := value; isSubmitting := isSubmitting st;
     isLoadingSlots := isLoadingSlots st; availabilityCache := availabilityCache st;
     paypalReturnHandled := paypalReturnHandled st |}.

Definition setIsSubmitting (value : bool) (st : State) : State :=
  {| step := step st; eventType := eventType st; eventTypes := eventTypes st;
     selection_mode := selection_mode st; slots := slots st;
     selectedSlot := selectedSlot st; confirmedBooking := confirmedBooking st;
     activeTemplate := activeTemplate st;
     templateFallbackSuggestions := templateFallbackSuggestions st;
     error := error st; alternatives := alternatives st; isSubmitting := value;
     isLoadingSlots := isLoadingSlots st; availabilityCache := availabilityCache st;
     paypalReturnHandled := paypalReturnHandled st |}.

Definition setIsLoadingSlots (value : bool) (st : State) : State :=
  {| step := step st; eventType := eventType st; eventTypes := eventTypes st;
     selection_mode := selection_mode st; slots := slots st;
     selectedSlot := selectedSlot st; confirmedBooking := confirmedBooking st;
     activeTemplate := activeTemplate st;
     templateFallbackSuggestions := templateFallbackSuggestions st;
     error := error st; alternatives := alternatives st;
     isSubmitting := isSubmitting st; isLoadingSlots := value;
     availabilityCache := availabilityCache st;
     paypalReturnHandled := paypalReturnHandled st |}.

Definition setAvailabilityCache (value : gmap string CacheEntry) (st : State) : State :=
  {| step := step st; eventType := eventType st; eventTypes := eventTypes st;
     selection_mode := selection_mode st; slots := slots st;
     selectedSlot := selectedSlot st; confirmedBooking := confirmedBooking st;
     activeTemplate := activeTemplate st;
     templateFallbackSuggestions := templateFallbackSuggestions st;
     error := error st; alternatives := alternatives st;
     isSubmitting := isSubmitting st; isLoadingSlots := isLoadingSlots st;
     availabilityCache := value; paypalReturnHandled := paypalReturnHandled st |}.

Definition setPaypalReturnHandled (value : bool) (st : State) : State :=
  {| step := step st; eventType := eventType st; eventTypes := eventTypes st;
     selection_mode := selection_mode st; slots := slots st;
     selectedSlot := selectedSlot st; confirmedBooking := confirmedBooking st;
     activeTemplate := activeTemplate st;
     templateFallbackSuggestions := templateFallbackSuggestions st;
     error := error st; alternatives := alternatives st;
     isSubmitting := isSubmitting st; isLoadingSlots := isLoadingSlots st;
     availabilityCache := availabilityCache st; paypalReturnHandled := value |}.

Definition setLocalStorage (value : Identity.LocalStorage) (w : World) : World :=
  {| localStorage := value; pendingItem := pendingItem w; location := location w;
     calls := calls w |}.

Definition setPendingItem (value : option PendingPayPalBooking) (w : World) : World :=
  {| localStorage := localStorage w; pendingItem := value; location := location w;
     calls := calls w |}.

Definition setLocation (value : Location) (w : World) : World :=
  {| localStorage := localStorage w; pendingItem := pendingItem w; location := value;
     calls := calls w |}.

Definition setCalls (value : list ApiCall) (w : World) : World :=
  {| localStorage := localStorage w; pendingItem := pendingItem w;
     location := location w; calls := value |}.

(** The props of [SchedulerProvider] that the modelled actions read.
    [embedKey] and [eventSlug] are [""] for [null].  The callbacks
    [onBookingSuccess] and [onBookingError] are those of [Host]. *)
Inductive BeforeResult : Type :=
  | Veto                        (* the hook returned [false] *)
  | Patch (properties : Payload)  (* a plain object, merged into the payload *)
  | NoChange                    (* anything else *)
  | HookThrows (message : string).

Record Config : Type := {
  embedKey : string;
  eventSlug : string;
  providedEventType : option EventType;
  userTimezone : string;
  cacheTtlMs : Z;
  autoSignedWidgetToken : bool;
  hasTokenProvider : bool;
  onBeforeBook : option (Payload → BeforeResult);
  trackingSessionId : string;
  contactToken : string;
}.

(** An awaited API call. *)
Inductive Reply (A : Type) : Type :=
  | Ok (data : A)
  | Failed (error : ApiError).
Arguments Ok {A} data.
Arguments Failed {A} error.

Definition localError (message code : string) : ApiError :=
  {| e_message := message; e_status := None; e_code := code;
     e_retryAfter := None; e_alternatives := []; e_suggestions := [] |}.

(** [clearBookingError()] *)
Definition clearBookingError (st : State) : State :=
  setTemplateFallbackSuggestions [] (setAlternatives [] (setError None st)).

(** [key.startsWith(prefix)] with [prefix = `${eventTypeId}:`] *)
Definition keyOf (eventTypeId : string) (key : string) : bool :=
  String.prefix (eventTypeId +:+ ":") key.

(** [invalidateAvailability(eventTypeId)] *)
Definition invalidateAvailability (eventTypeId : string) (st : State) : State :=
  if truthy eventTypeId then
    setAvailabilityCache
      (filter (λ kv, keyOf eventTypeId kv.1 = false) (availabilityCache st)) st
  else setAvailabilityCache ∅ st.

(** [slot.start.split('T')[0]] *)
Fixpoint dateOf (isoStart : string) : string :=
  match isoStart with
  | EmptyString => EmptyString
  | String c rest => if Ascii.eqb c "T" then EmptyString else String c (dateOf rest)
  end.

(** [mutateSlotState(slot, mutateFn)] *)
Definition mutateSlotState (slot : Slot) (mutateFn : list Slot → list Slot)
    (st : State) : State :=
  if truthy (start slot) then
    let dateStr := dateOf (start slot) in
    setSlots (<[dateStr := mutateFn (default [] (slots st !! dateStr))]> (slots st)) st
  else st.

Definition withPending (flag : bool) (item : Slot) : Slot :=
  {| start := start item; end_ := end_ item; startLocal := startLocal item;
     endLocal := endLocal item; isPending := flag |}.

Definition markSlotPending (slot : Slot) : State → State :=
  mutateSlotState slot
    (map (λ item, if String.eqb (start item) (start slot) then withPending true item else item)).

Definition revertPendingSlot (slot : Slot) : State → State :=
  mutateSlotState slot
    (map (λ item, if String.eqb (start item) (start slot) then withPending false item else item)).

Definition removeBookedSlot (slot : Slot) : State → State :=
  mutateSlotState slot
    (List.filter (λ item, negb (String.eqb (start item) (start slot)))).

(** *** Slot loading *)

(** The readings and the reply of one [loadSlots] run: the two formatted
    dates of the window, [Date.now()] at the cache check and at the reply. *)
Record SlotsEnv : Type := {
  startDate : string;
  endDate : string;
  nowAtCheck : Z;
  slotsReply : Reply (gmap string (list Slot));
  nowAtReply : Z;
}.

Definition cacheKey (eventTypeId startDate endDate userTimezone : string) : string :=
  join ":" [eventTypeId; startDate; endDate; userTimezone].

(** [loadSlots({ force })] *)
Definition loadSlots (cfg : Config) (env : SlotsEnv) (force : bool)
    (st : State) (w : World) : State * World :=
  match eventType st with
  | None => (st, w)
  | Some et =>
      if negb (truthy (et_id et)) then (st, w)
      else
        let key := cacheKey (et_id et) (startDate env) (endDate env) (userTimezone cfg) in
        let hit :=
          if force then None
          else match availabilityCache st !! key with
               | Some cacheEntry =>
                   if nowAtCheck env <? ce_expiresAt cacheEntry then Some cacheEntry else None
               | None => None
               end in
        match hit with
        | Some cacheEntry => (setSlots (ce_slots cacheEntry) st, w)
        | None =>
            let st1 := setIsLoadingSlots true st in
            let w1 :=
              setCalls (calls w ++ [GetSlots (et_id et) (startDate env) (endDate env)
                                              (userTimezone cfg)]) w in
            match slotsReply env with
            | Ok nextSlots =>
                let st2 := setSlots nextSlots st1 in
                let st3 :=
                  setAvailabilityCache
                    (<[key := {| ce_slots := nextSlots;
                                 ce_expiresAt := nowAtReply env + cacheTtlMs cfg |}]>
                       (availabilityCache st2)) st2 in
                (setIsLoadingSlots false st3, w1)
            | Failed requestError =>
                (setIsLoadingSlots false
                   (setError (Some (str_or (e_message requestError)
                                           "Failed to load available slots.")) st1), w1)
            end
        end
  end.

(** *** Step transitions *)

(** [confirmSelectedSlot()] *)
Definition confirmSelectedSlot (st : State) : State :=
  match selectedSlot st with
  | None => st
  | Some _ => clearBookingError (setStep CONFIRM st)
  end.

(** [goBack()] *)
Definition goBack (st : State) : State :=
  if decide (step st = CONFIRM) then clearBookingError (setStep SELECT_TIME st)
  else if decide (step st = SELECT_TIME ∧ selection_mode st ≠ "single"%string) then
    clearBookingError
      (setActiveTemplate None
         (setSelectedSlot None
            (setSlots ∅ (setEventType None (setStep SELECT_EVENT st)))))
  else st.

(** *** Submission *)

(** [normalizeBookingError(error)]: the message, alternatives and
    suggestions of the normalized error (its other properties are those of
    [error]). *)
Definition withMessage (message : string) (alts : list Slot) (suggs : list string)
    (error : ApiError) : ApiError :=
  {| e_message := message; e_status := e_status error; e_code := e_code error;
     e_retryAfter := e_retryAfter error; e_alternatives := alts;
     e_suggestions := suggs |}.

Definition normalizeBookingError (error : ApiError) : ApiError :=
  if String.eqb (e_code error) "OFFLINE" then
    withMessage "You appear to be offline. Reconnect to the internet and try booking again."
      [] (e_suggestions error) error
  else if bool_decide (e_status error = Some 429) then
    let retryMessage :=
      match e_retryAfter error with
      | Some retrySeconds =>
          if 0 <? retrySeconds
          then " Please wait about " +:+ pretty retrySeconds +:+ " seconds and try again."
          else " Please wait a moment and try again."
      | None => " Please wait a moment and try again."
      end in
    withMessage ("Too many booking attempts." +:+ retryMessage) [] (e_suggestions error) error
  else if String.eqb (e_code error) "SLOT_CONFLICT" then
    withMessage "That slot was booked moments ago. Please choose another available time."
      (e_alternatives error) (e_suggestions error) error
  else if String.eqb (e_code error) "SLOT_LOCKED" then
    withMessage "That slot is currently being reserved. Try again in a few seconds."
      [] (e_suggestions error) error
  else if String.eqb (e_code error) "TEMPLATE_INVALID" then
    withMessage (str_or (e_message error) "Your saved template is no longer valid for this event.")
      [] (e_suggestions error) error
  else if String.eqb (e_code error) "NO_SAVED_TEMPLATE" then
    withMessage "Saved preferences were not found. Continue with the standard booking form."
      [] (e_suggestions error) error
  else
    withMessage (str_or (e_message error) "Failed to create booking. Please try again.")
      (e_alternatives error) (e_suggestions error) error.

(** What a token provider, or the signed-widget-token endpoint, hands back. *)
Inductive TokenMeta : Type :=
  | TokenNone
  | TokenString (signed : string)
  | TokenObject (source source_client signed_widget_token token : string)
                (source_details : list (string * string)).

(** The readings and replies of one booking-creation run. *)
Record BookingEnv : Type := {
  now : Z;
  uuid : string;
  sourceDetails : list (string * string);
  tokenReply : Reply TokenMeta;
  bookingReply : Reply (option Booking);
}.

Definition sourceDetailsOf (extra base : list (string * string)) (cfg : Config)
    (clientRequestId : string) : list (string * string) :=
  base ++ extra
  ++ [("client_request_id", clientRequestId);
      ("tracking_session_id", trackingSessionId cfg);
      ("contact_token", contactToken cfg)]%string.

(** [mergeSubmissionMeta(fallbackMeta, tokenMeta)]; the empty string is
    falsy, so it is turned away by the first test like [null]. *)
Definition mergeSubmissionMeta (cfg : Config) (base : list (string * string))
    (clientRequestId : string) (fallbackMeta : Payload) (tokenMeta : TokenMeta) : Payload :=
  match tokenMeta with
  | TokenNone => fallbackMeta
  | TokenString signed =>
      if truthy signed then <["signed_widget_token" := JStr signed]> fallbackMeta
      else fallbackMeta
  | TokenObject source source_client signed token details =>
      setOrUndefined "signed_widget_token" (str_or signed token)
        (<["source_details" := JObj (sourceDetailsOf details base cfg clientRequestId)]>
           (<["source_client" := JStr (str_or source_client (getStr fallbackMeta "source_client"))]>
              (<["source" := JStr (str_or source (getStr fallbackMeta "source"))]> fallbackMeta)))
  end.

Definition requestScope (cfg : Config) (et : EventType) (slot : Slot)
    (guestData : Payload) : string :=
  let guestEmail :=
    FormEngine.toLowerCase (BookingForm.trim (getStr guestData "guest_email")) in
  join ":" ["sdk"; str_or (embedKey cfg) "public"; et_id et; start slot; end_ slot;
            str_or guestEmail "anonymous"]%string.

(** [resolveSubmissionMeta({ guestData, slot, eventTypeOverride })] *)
Definition resolveSubmissionMeta (cfg : Config) (env : BookingEnv)
    (guestData : Payload) (slot : Slot) (et : EventType) (w : World)
    : Payload * World :=
  if negb (truthy (et_id et)) || negb (truthy (start slot)) || negb (truthy (end_ slot))
  then (∅, w)
  else
    let '(clientRequestId, ls) :=
      Identity.getOrCreateClientRequestId (requestScope cfg et slot guestData)
        Identity.REQUEST_ID_TTL_MS (now env) (uuid env) (localStorage w) in
    let w1 := setLocalStorage ls w in
    let fallbackMeta : Payload :=
      <["client_request_id" := JStr clientRequestId]>
        (<["source" := JStr "widget"]>
           (<["source_client" := JStr "embed-widget-v2"]>
              (<["source_details" :=
                   JObj (sourceDetailsOf [] (sourceDetails env) cfg clientRequestId)]> ∅))) in
    let merged (reply : Reply TokenMeta) :=
      match reply with
      | Ok tokenMeta =>
          mergeSubmissionMeta cfg (sourceDetails env) clientRequestId fallbackMeta tokenMeta
      | Failed _ => fallbackMeta
      end in
    if hasTokenProvider cfg then (merged (tokenReply env), w1)
    else if negb (truthy (embedKey cfg)) || negb (autoSignedWidgetToken cfg)
    then (fallbackMeta, w1)
    else (merged (tokenReply env), setCalls (calls w1 ++ [GetSignedWidgetToken]) w1).

(** The properties that [resolveSubmissionMeta] may set. *)
Definition metaKeys : list string :=
  ["client_request_id"; "source"; "source_client"; "source_details";
   "signed_widget_token"]%string.

(** What [onBeforeBook] says about a payload; no hook changes nothing. *)
Definition hookVerdict (cfg : Config) (payload : Payload) : BeforeResult :=
  match onBeforeBook cfg with
  | None => NoChange
  | Some hook => hook payload
  end.

(** The hook, if any, neither vetoes nor patches nor throws. *)
Definition hookSilent (cfg : Config) : Prop :=
  ∀ payload, hookVerdict cfg payload = NoChange.

(** The object literal that [createBookingForContext] starts the payload
    from. *)
Definition basePayload (cfg : Config) (scopedSlot : Slot) (scopedEventType : EventType)
    : Payload :=
  <["event_type_id" := JStr (et_id scopedEventType)]>
    (<["start_time" := JStr (start scopedSlot)]>
       (<["end_time" := JStr (end_ scopedSlot)]>
          (<["timezone" := JStr (userTimezone cfg)]> ∅))).

(** The outcome of [createBookingForContext].  [Refused] is the early
    [{ ok: false }] of the precondition check. *)
Inductive BookingResult : Type :=
  | BookingOk (booking : option Booking) (payload : Payload)
  | BookingFailed (error : ApiError)
  | Refused.

Definition resultOk (result : BookingResult) : bool :=
  match result with
  | BookingOk _ _ => true
  | _ => false
  end.

(** Where [createBookingForContext] stands once it awaits the network. *)
Inductive Started : Type :=
  | NotStarted
  | Threw (slot : Slot) (et : EventType) (error : ApiError)
  | Issued (slot : Slot) (et : EventType) (payload : Payload).

Definition orElse {A : Type} (first second : option A) : option A :=
  match first with
  | Some _ => first
  | None => second
  end.

(** [createBookingForContext], up to and including the moment
    [api.createBooking(payload, embedContext)] is issued. *)
Definition createBookingStart (cfg : Config) (env : BookingEnv) (guestData : Payload)
    (slotOverride : option Slot) (eventTypeOverride : option EventType)
    (st : State) (w : World) : Started * State * World :=
  match orElse slotOverride (selectedSlot st), orElse eventTypeOverride (eventType st) with
  | Some scopedSlot, Some scopedEventType =>
      if negb (truthy (et_id scopedEventType)) then (NotStarted, st, w)
      else
        let st1 := markSlotPending scopedSlot (clearBookingError (setIsSubmitting true st)) in
        let payload := spread (basePayload cfg scopedSlot scopedEventType) guestData in
        let '(submissionMeta, w1) :=
          resolveSubmissionMeta cfg env payload scopedSlot scopedEventType w in
        let payload := spread payload submissionMeta in
        let issue (payload : Payload) :=
          (Issued scopedSlot scopedEventType payload, st1,
           setCalls (calls w1 ++ [CreateBooking payload]) w1) in
        match hookVerdict cfg payload with
        | Veto =>
            (Threw scopedSlot scopedEventType
               (localError "Booking cancelled before submit." "BOOKING_CANCELLED"), st1, w1)
        | HookThrows message =>
            (Threw scopedSlot scopedEventType (localError message ""), st1, w1)
        | Patch properties => issue (spread payload properties)
        | NoChange => issue payload
        end
  | _, _ => (NotStarted, st, w)
  end.

(** The [catch] and [finally] blocks of [createBookingForContext]. *)
Definition bookingFailed (scopedSlot : Slot) (requestError : ApiError) (st : State)
    : BookingResult * State :=
  let normalized := normalizeBookingError requestError in
  (BookingFailed normalized,
   setIsSubmitting false
     (setTemplateFallbackSuggestions (e_suggestions normalized)
        (setAlternatives (e_alternatives normalized)
           (setError (Some (e_message normalized)) (revertPendingSlot scopedSlot st))))).

(** The statements after [await api.createBooking(...)], and [finally]. *)
Definition bookingSucceeded (scopedSlot : Slot) (scopedEventType : EventType)
    (booking : option Booking) (payload : Payload) (st : State) : BookingResult * State :=
  (BookingOk booking payload,
   setIsSubmitting false
     (invalidateAvailability (et_id scopedEventType)
        (setStep SUCCESS
           (setTemplateFallbackSuggestions []
              (setActiveTemplate None
                 (setEventType (orElse (eventType st) (Some scopedEventType))
                    (setSelectedSlot None
                       (setConfirmedBooking booking (removeBookedSlot scopedSlot st))))))))).

(** [createBookingForContext], from the moment the awaited call settles. *)
Definition createBookingSettle (started : Started) (reply : Reply (option Booking))
    (st : State) : BookingResult * State :=
  match started with
  | NotStarted => (Refused, st)
  | Threw scopedSlot _ error => bookingFailed scopedSlot error st
  | Issued scopedSlot scopedEventType payload =>
      match reply with
      | Ok booking => bookingSucceeded scopedSlot scopedEventType booking payload st
      | Failed requestError => bookingFailed scopedSlot requestError st
      end
  end.

(** [createBookingForContext({ guestData, slot, eventTypeOverride })], run
    from the call to the settled result, under host callbacks that return
    (with the calls of [onBookingSuccess] and [onBookingError]:
    [Host.createBookingForContext]). *)
Definition createBookingForContext (cfg : Config) (env : BookingEnv) (guestData : Payload)
    (slotOverride : option Slot) (eventTypeOverride : option EventType)
    (st : State) (w : World) : BookingResult * State * World :=
  let '(started, st1, w1) :=
    createBookingStart cfg env guestData slotOverride eventTypeOverride st w in
  let '(result, st2) := createBookingSettle started (bookingReply env) st1 in
  (result, st2, w1).

(** How the result of a run of [createBookingForContext] from [st] and [w]
    relates to what it left behind: the stored pending booking, the
    address bar and the one-shot ref are untouched; the calls added are at
    most one token request and then at most one booking creation; the
    result is [ok] exactly when the booking creation was issued and
    answered; and an [ok] run ends in SUCCESS with the booking. *)
Definition accountsFor (env : BookingEnv) (st : State) (w : World)
    (run : BookingResult * State * World) : Prop :=
  pendingItem run.2 = pendingItem w ∧ location run.2 = location w
  ∧ paypalReturnHandled run.1.2 = paypalReturnHandled st
  ∧ ∃ tokenCalls bookingCall,
      calls run.2 = calls w ++ tokenCalls ++ bookingCall
      ∧ (tokenCalls = [] ∨ tokenCalls = [GetSignedWidgetToken])
      ∧ (bookingCall = [] ∨ ∃ payload, bookingCall = [CreateBooking payload])
      ∧ (resultOk run.1.1 = true
         ↔ bookingCall ≠ [] ∧ ∃ booking, bookingReply env = Ok booking)
      ∧ (∀ booking, resultOk run.1.1 = true → bookingReply env = Ok booking →
           step run.1.2 = SUCCESS ∧ confirmedBooking run.1.2 = booking
           ∧ isSubmitting run.1.2 = false).

(** [submitBooking(guestData)] *)
Definition submitBooking (cfg : Config) (env : BookingEnv) (guestData : Payload)
    (st : State) (w : World) : BookingResult * State * World :=
  createBookingForContext cfg env guestData None None st w.

(** *** PayPal return *)

(** The data of a capture response: [captureId || capture_id || id] ([""]
    when none), [success] when it is a boolean, and [error]. *)
Record CaptureResult : Type := {
  captureId : string;
  success : option bool;
  captureError : string;
}.

Record ResumeEnv : Type := {
  captureReply : Reply CaptureResult;
  bookingEnv : BookingEnv;
}.

(** [readPendingPayPalBooking()] *)
Definition readPendingPayPalBooking (w : World) : option PendingPayPalBooking :=
  pendingItem w.

(** [clearPendingPayPalBooking()] *)
Definition clearPendingPayPalBooking (w : World) : World := setPendingItem None w.

(** [parsePayPalReturnContext().hasReturnParams] *)
Definition hasReturnParams (loc : Location) : bool :=
  truthy (token loc) || truthy (payerId loc) || cancelledParam loc.

(** [clearPayPalReturnParams()] *)
Definition clearPayPalReturnParams (w : World) : World :=
  setLocation {| token := ""; payerId := ""; cancelledParam := false |} w.

(** A capture result that lets the booking go ahead: not the case
    [!captureId && captureResult?.success === false]. *)
Definition usableCapture (captureResult : CaptureResult) : bool :=
  negb (negb (truthy (captureId captureResult))
        && bool_decide (success captureResult = Some false)).

(** The guard at the top of [completePayPalBooking]. *)
Definition pendingContext (pendingBooking : PendingPayPalBooking)
    : option (string * Payload * Slot * EventType) :=
  match pb_payload pendingBooking, pb_slot pendingBooking, pb_eventType pendingBooking with
  | Some guestPayload, Some pendingSlot, Some pendingEventType =>
      if truthy (pb_orderId pendingBooking) && truthy (start pendingSlot)
         && truthy (end_ pendingSlot) && truthy (et_id pendingEventType)
      then Some (pb_orderId pendingBooking, guestPayload, pendingSlot, pendingEventType)
      else None
  | _, _, _ => None
  end.

(** The [guestData] handed to booking creation on resumption. *)
Definition resumedGuestData (cfg : Config) (pendingBooking : PendingPayPalBooking)
    (guestPayload : Payload) (captureId : string) : Payload :=
  setOrUndefined "paypal_capture_id" captureId
    (<["paypal_order_id" := JStr (pb_orderId pendingBooking)]>
       (<["timezone" :=
            JStr (str_or (getStr guestPayload "timezone")
                    (str_or (pb_userTimezone pendingBooking) (userTimezone cfg)))]>
          guestPayload)).

(** [completePayPalBooking({ pendingBooking, payerId })], under host
    callbacks that return (otherwise [Host.completePayPalBooking]). *)
Definition completePayPalBooking (cfg : Config) (env : ResumeEnv)
    (pendingBooking : PendingPayPalBooking) (payer : string)
    (st : State) (w : World) : BookingResult * State * World :=
  match pendingContext pendingBooking with
  | None =>
      (BookingFailed
         (localError "Saved PayPal booking context is invalid. Please book again." ""),
       st, w)
  | Some (order, guestPayload, pendingSlot, pendingEventType) =>
      let w1 := setCalls (calls w ++ [CapturePayPalOrder order payer]) w in
      let caught (error : ApiError) :=
        let normalized := normalizeBookingError error in
        (BookingFailed normalized,
         setAlternatives (e_alternatives normalized)
           (setError (Some (e_message normalized)) st),
         w1) in
      match captureReply env with
      | Failed error => caught error
      | Ok captureResult =>
          if negb (usableCapture captureResult)
          then caught (localError (str_or (captureError captureResult)
                                          "PayPal payment capture failed.") "")
          else
            let '(result, st1, w2) :=
              createBookingForContext cfg (bookingEnv env)
                (resumedGuestData cfg pendingBooking guestPayload (captureId captureResult))
                (Some pendingSlot) (Some pendingEventType) st w1 in
            (result, st1, if resultOk result then clearPendingPayPalBooking w2 else w2)
      end
  end.

Definition resultMessage (result : BookingResult) : string :=
  match result with
  | BookingOk _ _ => ""
  | BookingFailed error => e_message error
  | Refused => "Select an event time before submitting the booking form."
  end.

(** The effect that handles a PayPal return, run until its [process()]
    settles, under host callbacks that return (otherwise
    [Host.paypalReturnEffect]).  [cancelled] is the effect's flag of that
    name at that moment: [true] when the cleanup of the effect ran in the
    meantime.  This is the effect by itself: on mount the effects declared
    after it run in the same commit, and their [clearBookingError()]
    wipes the message that one of the three early branches has set. *)
Definition paypalReturnEffect (cfg : Config) (env : ResumeEnv) (cancelled : bool)
    (st : State) (w : World) : State * World :=
  if paypalReturnHandled st then (st, w)
  else if negb (hasReturnParams (location w)) then (st, w)
  else
    let st1 := setPaypalReturnHandled true st in
    if cancelledParam (location w) then
      (setError (Some "Payment was cancelled. No charges were made."%string) st1,
       clearPayPalReturnParams (clearPendingPayPalBooking w))
    else
      match readPendingPayPalBooking w with
      | None =>
          (setError (Some "Booking session expired. Please try booking again."%string) st1,
           clearPayPalReturnParams w)
      | Some pendingBooking =>
          if negb (truthy (token (location w))) || negb (truthy (payerId (location w))) then
            (setError (Some "Missing payment return details. Please try booking again."%string) st1,
             clearPayPalReturnParams w)
          else
            let '(result, st2, w2) :=
              completePayPalBooking cfg env pendingBooking (payerId (location w)) st1 w in
            let st3 :=
              if negb cancelled && negb (resultOk result) && truthy (resultMessage result)
              then setError (Some (resultMessage result)) st2 else st2 in
            (st3, if negb cancelled then clearPayPalReturnParams w2 else w2)
      end.

(** The test that makes [initialize] and the slot-loading effect stand
    back for a load cycle. *)
Definition resumableReturn (w : World) : bool :=
  hasReturnParams (location w) && bool_decide (is_Some (readPendingPayPalBooking w)).

(** *** Submissions in flight *)

(** The provider together with the booking-creation calls that have been
    issued and have not settled yet, oldest first. *)
Record System : Type := {
  orch : State;
  world : World;
  inFlight : list Started;
}.

(** The action [submitBooking(guestData)] is invoked: it runs to its first
    suspension on the network. *)
Definition invokeSubmitBooking (cfg : Config) (env : BookingEnv) (guestData : Payload)
    (sys : System) : System :=
  let '(started, st, w) :=
    createBookingStart cfg env guestData None None (orch sys) (world sys) in
  match started with
  | NotStarted => {| orch := st; world := w; inFlight := inFlight sys |}
  | Threw scopedSlot _ error =>
      {| orch := (bookingFailed scopedSlot error st).2; world := w; inFlight := inFlight sys |}
  | Issued _ _ _ => {| orch := st; world := w; inFlight := inFlight sys ++ [started] |}
  end.

(** The oldest call in flight settles. *)
Definition settleOldest (reply : Reply (option Booking)) (sys : System) : System :=
  match inFlight sys with
  | [] => sys
  | started :: rest =>
      {| orch := (createBookingSettle started reply (orch sys)).2;
         world := world sys; inFlight := rest |}
  end.

(** The props that [SchedulerWidget] renders [BookingForm] with. *)
Definition formProps (cfg : Config) (st : State) : BookingForm.Props :=
  {| BookingForm.resolvedEventType := eventType st;
     BookingForm.resolvedSlot := selectedSlot st;
     BookingForm.resolvedUserTimezone := userTimezone cfg;
     BookingForm.resolvedIsLoading := isSubmitting st;
     BookingForm.resolvedError := default "" (error st);
     BookingForm.resolvedAlternatives := alternatives st;
     BookingForm.hasTemplateFallbackSuggestions :=
       negb (bool_decide (templateFallbackSuggestions st = [])) |}.

(** A click on the submit button of the rendered form: nothing when the
    button is disabled, otherwise [handleSubmit], whose [submitBooking]
    call enters the orchestrator. *)
Definition clickSubmit (cfg : Config) (env : BookingEnv) (formEnv : BookingForm.Env)
    (form : BookingForm.FormState) (sys : System) : System :=
  let props := formProps cfg (orch sys) in
  if BookingForm.submitDisabled props form then sys
  else
    foldl (λ acc effect,
             match effect with
             | BookingForm.SubmitBooking guestData =>
                 invokeSubmitBooking cfg env guestData acc
             | _ => acc
             end)
          sys (BookingForm.handleSubmit props formEnv form).2.

Definition isCreateBooking (call : ApiCall) : bool :=
  match call with
  | CreateBooking _ => true
  | _ => false
  end.

Definition bookingCalls (w : World) : list ApiCall :=
  List.filter isCreateBooking (calls w).

(** *** The provider as the integration test mounts it *)

(** The initial values of the [useState] cells and refs. *)
Definition initialState (cfg : Config) : State :=
  {| step := if bool_decide (is_Some (providedEventType cfg)) || truthy (eventSlug cfg)
             then SELECT_TIME else SELECT_EVENT;
     eventType := providedEventType cfg; eventTypes := []; selection_mode := "";
     slots := ∅; selectedSlot := None; confirmedBooking := None; activeTemplate := None;
     templateFallbackSuggestions := []; error := None; alternatives := [];
     isSubmitting := false; isLoadingSlots := false; availabilityCache := ∅;
     paypalReturnHandled := false |}.

Definition testConfig (provided : option EventType) : Config :=
  {| embedKey := ""; eventSlug := ""; providedEventType := provided;
     userTimezone := "UTC"; cacheTtlMs := 30000; autoSignedWidgetToken := true;
     hasTokenProvider := false; onBeforeBook := None;
     trackingSessionId := "track-1"; contactToken := "contact-1" |}.

(** A page whose address carries the given callback parameters, with the
    pending booking of the test in [sessionStorage]. *)
Definition returnPage (tokenParam payerParam : string) (cancelledFlag : bool) : World :=
  {| localStorage := Identity.Available None; pendingItem := Some pendingOrd1;
     location := {| token := tokenParam; payerId := payerParam;
                    cancelledParam := cancelledFlag |};
     calls := [] |}.

Definition bookingEnvOf (reply : Reply (option Booking)) : BookingEnv :=
  {| now := 0; uuid := "req-1"; sourceDetails := []; tokenReply := Ok TokenNone;
     bookingReply := reply |}.

(** The replies of the test's [fetch] stub. *)
Definition testResume : ResumeEnv :=
  {| captureReply := Ok {| captureId := "cap_1"; success := Some true; captureError := "" |};
     bookingEnv := bookingEnvOf (Ok (Some {| bk_id := "book_1" |})) |}.


(** A guest about to confirm [janeSlot] of a free event. *)
Definition confirmState (mode : string) (offered : list EventType) : State :=
  {| step := CONFIRM; eventType := Some freeIntroCall; eventTypes := offered;
     selection_mode := mode; slots := {["2026-05-10" := [janeSlot]]};
     selectedSlot := Some janeSlot; confirmedBooking := None; activeTemplate := None;
     templateFallbackSuggestions := []; error := None; alternatives := [];
     isSubmitting := false; isLoadingSlots := false; availabilityCache := ∅;
     paypalReturnHandled := false |}.

(** A provider on [paidIntroCall] that holds cached slots for it and for an
    event type whose id, ["evt_10"], extends its own. *)
Definition cachedState : State :=
  {| step := CONFIRM; eventType := Some paidIntroCall; eventTypes := [];
     selection_mode := ""; slots := {["2026-05-10" := [janeSlot]]};
     selectedSlot := Some janeSlot; confirmedBooking := None; activeTemplate := None;
     templateFallbackSuggestions := []; error := None; alternatives := [];
     isSubmitting := true; isLoadingSlots := false;
     availabilityCache :=
       {[ "evt_1:2026-05-10:2026-05-24:UTC" :=
            {| ce_slots := {["2026-05-10" := [janeSlot]]}; ce_expiresAt := 30000 |};
          "evt_10:2026-05-10:2026-05-24:UTC" :=
            {| ce_slots := ∅; ce_expiresAt := 30000 |} ]};
     paypalReturnHandled := false |}.

(** A first slot fetch, answered with one slot. *)
Definition coldFetch : SlotsEnv :=
  {| startDate := "2026-05-10"; endDate := "2026-05-24"; nowAtCheck := 1000;
     slotsReply := Ok {["2026-05-10" := [janeSlot]]}; nowAtReply := 1200 |}.

Definition idleSystem : System :=
  {| orch := confirmState "" [freeIntroCall];
     world := {| localStorage := Identity.Available None; pendingItem := None;
                 location := {| token := ""; payerId := ""; cancelledParam := false |};
                 calls := [] |};
     inFlight := [] |}.

End Orchestrator.

(* ===================================================================== *)
(** * API client: addresses and waiting time (api/client.js) *)
(* ===================================================================== *)

Module Transport.
Import ApiClient.

(** [value.endsWith('/')] *)
Fixpoint endsWithSlash (value : string) : bool :=
  match value with
  | EmptyString => false
  | String c EmptyString => Ascii.eqb c "/"
  | String _ rest => endsWithSlash rest
  end.

(** [value.slice(0, -1)] *)
Fixpoint dropLast (value : string) : string :=
  match value with
  | EmptyString => EmptyString
  | String _ EmptyString => EmptyString
  | String c rest => String c (dropLast rest)
  end.

(** [normalizeBaseUrl(value)] *)
Definition normalizeBaseUrl (value : string) : string :=
  if truthy value then (if endsWithSlash value then dropLast value else value)
  else "".

(** The address that [request] fetches: [`${safeBaseUrl}${endpoint}`]. *)
Definition requestUrl (baseUrl endpoint : string) : string :=
  normalizeBaseUrl baseUrl +:+ endpoint.

(** The callback of [Object.entries(params).forEach]: a parameter whose
    value is [null], [undefined] ([None]) or the empty string is skipped,
    any other is appended (a number as its decimal string). *)
Definition keepParam (entry : string * option string) : option (string * string) :=
  match entry.2 with
  | Some value => if truthy value then Some (entry.1, value) else None
  | None => None
  end.

Section QueryString.

(** The percent-encoding that [URLSearchParams] applies to names and
    values. *)
Variable encode : string → string.

(** [query.toString()] *)
Definition serialize (entries : list (string * string)) : string :=
  join "&" (map (λ entry, encode entry.1 +:+ "=" +:+ encode entry.2) entries).

(** [toQueryString(params)], on the entries of [params] in their order. *)
Definition toQueryString (params : list (string * option string)) : string :=
  let serialized := serialize (omap keepParam params) in
  if truthy serialized then "?" +:+ serialized else "".

End QueryString.

(** The waits of a run, in order, and the time spent in them. *)
Definition sleeps (tr : list Event) : list Q :=
  omap (λ ev, match ev with EvSleep ms => Some ms | EvFetch _ => None end) tr.

Definition totalSleep (tr : list Event) : Q := foldr Qplus 0%Q (sleeps tr).

(** The longest backoff wait after attempt [attempt]: the capped delay and
    the full jitter. *)
Definition backoffCeiling (attempt : nat) : Q :=
  inject_Z (Z.min (1000 * 2 ^ Z.of_nat attempt) 12000 + 350).

(** The ceilings of the [count] attempts from [attempt] on, added up. *)
Fixpoint waitBudget (attempt count : nat) : Q :=
  match count with
  | O => 0%Q
  | S count' => (backoffCeiling attempt + waitBudget (S attempt) count')%Q
  end.

(** No 429 answer of the server names a retry delay, in its body or in its
    [Retry-After] header. *)
Definition noRetryAfter (env : Env) : Prop :=
  ∀ attempt header data,
    respond env attempt = FetchResponds 429 header data →
    truthyNum (e_retryAfter (normalizeError 429 header data (clock env attempt))) = None.

(** [Math.random()] stays in [[0, 1)]. *)
Definition unitRandom (env : Env) : Prop :=
  ∀ attempt, (0 <= random env attempt)%Q ∧ (random env attempt < 1)%Q.

(** A server that answers 429 with [Retry-After: seconds] on every fetch. *)
Definition throttled (seconds : Z) : Env :=
  {| onLine := true;
     respond := λ _, FetchResponds 429 (Some {| asSeconds := Some seconds; asDate := None |})
                       emptyBody;
     random := λ _, 0%Q; clock := λ _, 0 |}.

End Transport.

(* ===================================================================== *)
(** * Stored identifiers (utils/bookingSource.js) *)
(* ===================================================================== *)

Module Tokens.

(** A Web Storage area, as far as one of its keys goes: [NoStorage] when
    the global is undefined; otherwise the string under the key, if any,
    and whether [getItem] and [setItem] throw (storage blocked, quota
    exceeded). *)
Inductive Storage : Type :=
  | NoStorage
  | Store (item : option string) (getThrows setThrows : bool).

(** The body shared by the two getters.  [uuid1] and [uuid2] are the
    values of the first and of the second [createUuid()] call, the second
    being the one in the [catch] block. *)
Definition getOrCreateStored (uuid1 uuid2 : string) (storage : Storage)
    : string * Storage :=
  match storage with
  | NoStorage => (uuid1, NoStorage)
  | Store item getThrows setThrows =>
      if getThrows then (uuid1, storage)
      else
        let mint :=
          if setThrows then (uuid2, storage)
          else (uuid1, Store (Some uuid1) getThrows setThrows) in
        match item with
        | Some existing => if truthy existing then (existing, storage) else mint
        | None => mint
        end
  end.

(** [getOrCreateTrackingSessionId()], on [sessionStorage] under
    [TRACKING_SESSION_KEY]. *)
Definition getOrCreateTrackingSessionId (uuid1 uuid2 : string)
    (sessionStorage : Storage) : string * Storage :=
  getOrCreateStored uuid1 uuid2 sessionStorage.

(** [getOrCreateContactToken()], on [localStorage] under
    [CONTACT_TOKEN_KEY]. *)
Definition getOrCreateContactToken (uuid1 uuid2 : string)
    (localStorage : Storage) : string * Storage :=
  getOrCreateStored uuid1 uuid2 localStorage.

End Tokens.

(* ===================================================================== *)
(** * Further actions of the orchestrator (SchedulerProvider) *)
(* ===================================================================== *)

Module Flow.
Import Model Orchestrator.
Import ApiClient(ApiError, e_message, e_status, e_code, e_retryAfter,
                 e_alternatives, e_suggestions).

(** [selectSlot(slot)]; [None] is a falsy argument. *)
Definition selectSlot (slot : option Slot) (st : State) : State :=
  clearBookingError (setSelectedSlot slot st).

(** [selectAlternativeSlot(alternativeSlot)] *)
Definition selectAlternativeSlot (alternativeSlot : option Slot) (st : State) : State :=
  match alternativeSlot with
  | None => st
  | Some alternative =>
      clearBookingError (setSelectedSlot (Some (plainSlot alternative)) st)
  end.

(** [restartAfterSuccess()] *)
Definition restartAfterSuccess (cfg : Config) (env : SlotsEnv)
    (st : State) (w : World) : State * World :=
  let st1 :=
    clearBookingError
      (setActiveTemplate None (setSelectedSlot None (setConfirmedBooking None st))) in
  if String.eqb (selection_mode st) "single" || truthy (eventSlug cfg)
     || bool_decide (is_Some (providedEventType cfg))
  then loadSlots cfg env true (setStep SELECT_TIME st1) w
  else (setEventType None (setStep SELECT_EVENT st1), w).

(** A saved booking template, as far as the choice among them goes. *)
Record Template : Type := {
  t_id : string;
  is_default : bool;
}.

(** [pickPreferredTemplate(templates)] *)
Definition pickPreferredTemplate (templates : list Template) : option Template :=
  match templates with
  | [] => None
  | first :: _ => Some (default first (List.find is_default templates))
  end.

(** The slots of one day, [slots[dateStr] || []]. *)
Definition daySlots (st : State) (dateStr : string) : list Slot :=
  default [] (slots st !! dateStr).

(** The callback of [revertPendingSlot(slot)]. *)
Definition released (slot item : Slot) : Slot :=
  if String.eqb (start item) (start slot) then withPending false item else item.

(** The callback of [removeBookedSlot(slot)]. *)
Definition otherThan (slot item : Slot) : bool :=
  negb (String.eqb (start item) (start slot)).

(** [dateStr] is the day whose list [mutateSlotState(slot, ...)] rewrites. *)
Definition isDayOf (slot : Slot) (dateStr : string) : bool :=
  truthy (start slot) && String.eqb dateStr (dateOf (start slot)).

(** The slot and the event type that a booking creation is for. *)
Definition scoped (slotOverride : option Slot) (eventTypeOverride : option EventType)
    (st : State) : option (Slot * EventType) :=
  match orElse slotOverride (selectedSlot st), orElse eventTypeOverride (eventType st) with
  | Some scopedSlot, Some scopedEventType =>
      if truthy (et_id scopedEventType) then Some (scopedSlot, scopedEventType) else None
  | _, _ => None
  end.

(** The hook, if any, lets the payload through, changed or not. *)
Definition hookPasses (cfg : Config) : Prop :=
  ∀ payload, match hookVerdict cfg payload with
             | Veto | HookThrows _ => False
             | _ => True
             end.

(** A conflict answer of the server: the slot was taken, and another one
    is offered. *)
Definition slotConflict : ApiError :=
  {| e_message := "Slot no longer available"; e_status := Some 409;
     e_code := "SLOT_CONFLICT"; e_retryAfter := None;
     e_alternatives := [slotAt "2026-05-12T10:00:00.000Z" "2026-05-12T10:30:00.000Z"];
     e_suggestions := [] |}.


End Flow.

(* ===================================================================== *)
(** * The host's callbacks (SchedulerProvider) *)
(* ===================================================================== *)

Module Host.
Import Model Orchestrator.
Import ApiClient(ApiError, e_message, e_status, e_code, e_retryAfter,
                 e_alternatives, e_suggestions).

(** The props [onBookingSuccess] and [onBookingError]: [None] when the prop
    is not a function; otherwise what a call does as far as the provider
    can tell: it returns ([None]; a promise that it returns is not
    awaited) or it throws ([Some thrown], the thrown value as
    [normalizeBookingError] reads it).  The provider uses nothing else of
    a call, so [Orchestrator] is the provider under callbacks that return;
    the functions of this module are the same ones with the two calls put
    in, and say how the promise settles. *)
Record Callbacks : Type := {
  onBookingSuccess : option (option Booking → Payload → EventType → option ApiError);
  onBookingError : option (ApiError → Slot → EventType → option ApiError);
}.

(** [if (typeof onBookingSuccess === 'function') onBookingSuccess(booking,
    { payload, eventType })]: the value thrown, if any. *)
Definition notifySuccess (host : Callbacks) (booking : option Booking)
    (payload : Payload) (scopedEventType : EventType) : option ApiError :=
  match onBookingSuccess host with
  | Some callback => callback booking payload scopedEventType
  | None => None
  end.

(** [if (typeof onBookingError === 'function') onBookingError(normalized,
    { eventType, slot })]: the value thrown, if any. *)
Definition notifyError (host : Callbacks) (normalized : ApiError)
    (scopedSlot : Slot) (scopedEventType : EventType) : option ApiError :=
  match onBookingError host with
  | Some callback => callback normalized scopedSlot scopedEventType
  | None => None
  end.

Definition successReturns (host : Callbacks) : Prop :=
  ∀ booking payload scopedEventType,
    notifySuccess host booking payload scopedEventType = None.

Definition errorReturns (host : Callbacks) : Prop :=
  ∀ normalized scopedSlot scopedEventType,
    notifyError host normalized scopedSlot scopedEventType = None.

(** How the promise of an [async] function settles. *)
Inductive Settled (A : Type) : Type :=
  | Resolved (value : A)
  | Rejected (reason : ApiError).
Arguments Resolved {A} value.
Arguments Rejected {A} reason.

(** The end of a [catch] block: [onBookingError] is called, and then
    [{ ok: false, error: normalized }] is returned. *)
Definition reported (host : Callbacks) (normalized : ApiError)
    (scopedSlot : Slot) (scopedEventType : EventType) : Settled BookingResult :=
  match notifyError host normalized scopedSlot scopedEventType with
  | Some thrown => Rejected thrown
  | None => Resolved (BookingFailed normalized)
  end.

(** The [catch] and [finally] blocks of [createBookingForContext]: the state
    updates all precede the callback, and [finally] runs whether it throws
    or not. *)
Definition bookingFailed (host : Callbacks) (scopedSlot : Slot)
    (scopedEventType : EventType) (requestError : ApiError) (st : State)
    : Settled BookingResult * State :=
  (reported host (normalizeBookingError requestError) scopedSlot scopedEventType,
   (Orchestrator.bookingFailed scopedSlot requestError st).2).

(** The statements between [await api.createBooking(...)] and the call of
    [onBookingSuccess]. *)
Definition accepted (scopedSlot : Slot) (scopedEventType : EventType)
    (booking : option Booking) (st : State) : State :=
  invalidateAvailability (et_id scopedEventType)
    (setStep SUCCESS
       (setTemplateFallbackSuggestions []
          (setActiveTemplate None
             (setEventType (orElse (eventType st) (Some scopedEventType))
                (setSelectedSlot None
                   (setConfirmedBooking booking (removeBookedSlot scopedSlot st))))))).

(** The rest of the [try] block: [onBookingSuccess] is called inside it, so
    what it throws is caught like a failed request. *)
Definition bookingSucceeded (host : Callbacks) (scopedSlot : Slot)
    (scopedEventType : EventType) (booking : option Booking) (payload : Payload)
    (st : State) : Settled BookingResult * State :=
  let st1 := accepted scopedSlot scopedEventType booking st in
  match notifySuccess host booking payload scopedEventType with
  | None => (Resolved (BookingOk booking payload), setIsSubmitting false st1)
  | Some thrown => bookingFailed host scopedSlot scopedEventType thrown st1
  end.

(** [createBookingForContext], from the moment the awaited call settles. *)
Definition createBookingSettle (host : Callbacks) (started : Started)
    (reply : Reply (option Booking)) (st : State) : Settled BookingResult * State :=
  match started with
  | NotStarted => (Resolved Refused, st)
  | Threw scopedSlot scopedEventType error =>
      bookingFailed host scopedSlot scopedEventType error st
  | Issued scopedSlot scopedEventType payload =>
      match reply with
      | Ok booking => bookingSucceeded host scopedSlot scopedEventType booking payload st
      | Failed requestError =>
          bookingFailed host scopedSlot scopedEventType requestError st
      end
  end.

(** [createBookingForContext({ guestData, slot, eventTypeOverride })] *)
Definition createBookingForContext (host : Callbacks) (cfg : Config) (env : BookingEnv)
    (guestData : Payload) (slotOverride : option Slot)
    (eventTypeOverride : option EventType) (st : State) (w : World)
    : Settled BookingResult * State * World :=
  let '(started, st1, w1) :=
    createBookingStart cfg env guestData slotOverride eventTypeOverride st w in
  let '(settled, st2) := createBookingSettle host started (bookingReply env) st1 in
  (settled, st2, w1).

(** [completePayPalBooking({ pendingBooking, payerId })]: its [catch] also
    takes what a rejected [createBookingForContext] threw. *)
Definition completePayPalBooking (host : Callbacks) (cfg : Config) (env : ResumeEnv)
    (pendingBooking : PendingPayPalBooking) (payer : string)
    (st : State) (w : World) : Settled BookingResult * State * World :=
  match pendingContext pendingBooking with
  | None =>
      (Resolved
         (BookingFailed
            (localError "Saved PayPal booking context is invalid. Please book again." "")),
       st, w)
  | Some (order, guestPayload, pendingSlot, pendingEventType) =>
      let w1 := setCalls (calls w ++ [CapturePayPalOrder order payer]) w in
      let caught (error : ApiError) (st1 : State) (w2 : World) :=
        let normalized := normalizeBookingError error in
        (reported host normalized pendingSlot pendingEventType,
         setAlternatives (e_alternatives normalized)
           (setError (Some (e_message normalized)) st1),
         w2) in
      match captureReply env with
      | Failed error => caught error st w1
      | Ok captureResult =>
          if negb (usableCapture captureResult)
          then caught (localError (str_or (captureError captureResult)
                                          "PayPal payment capture failed.") "") st w1
          else
            let '(settled, st1, w2) :=
              createBookingForContext host cfg (bookingEnv env)
                (resumedGuestData cfg pendingBooking guestPayload (captureId captureResult))
                (Some pendingSlot) (Some pendingEventType) st w1 in
            match settled with
            | Resolved result =>
                (Resolved result, st1,
                 if resultOk result then clearPendingPayPalBooking w2 else w2)
            | Rejected thrown => caught thrown st1 w2
            end
      end
  end.

(** The effect that handles a PayPal return, run until its [process()]
    settles; when [completePayPalBooking] rejects, so does [process()], and
    the statements after the [await] do not run. *)
Definition paypalReturnEffect (host : Callbacks) (cfg : Config) (env : ResumeEnv)
    (cancelled : bool) (st : State) (w : World) : State * World :=
  if paypalReturnHandled st then (st, w)
  else if negb (hasReturnParams (location w)) then (st, w)
  else
    let st1 := setPaypalReturnHandled true st in
    if cancelledParam (location w) then
      (setError (Some "Payment was cancelled. No charges were made."%string) st1,
       clearPayPalReturnParams (clearPendingPayPalBooking w))
    else
      match readPendingPayPalBooking w with
      | None =>
          (setError (Some "Booking session expired. Please try booking again."%string) st1,
           clearPayPalReturnParams w)
      | Some pendingBooking =>
          if negb (truthy (token (location w))) || negb (truthy (payerId (location w))) then
            (setError (Some "Missing payment return details. Please try booking again."%string) st1,
             clearPayPalReturnParams w)
          else
            let '(settled, st2, w2) :=
              completePayPalBooking host cfg env pendingBooking (payerId (location w)) st1 w in
            match settled with
            | Rejected _ => (st2, w2)
            | Resolved result =>
                let st3 :=
                  if negb cancelled && negb (resultOk result) && truthy (resultMessage result)
                  then setError (Some (resultMessage result)) st2 else st2 in
                (st3, if negb cancelled then clearPayPalReturnParams w2 else w2)
            end
      end.

(** The hook stops every payload: it vetoes it, or throws. *)
Definition hookStops (cfg : Config) : Prop :=
  ∀ payload, match hookVerdict cfg payload with
             | Veto | HookThrows _ => True
             | _ => False
             end.

(** A host without callbacks, and hosts whose callbacks throw. *)
Definition noCallbacks : Callbacks :=
  {| onBookingSuccess := None; onBookingError := None |}.

Definition hostFails : ApiError :=
  localError "analytics is not defined" "".


Definition throwingError : Callbacks :=
  {| onBookingSuccess := None; onBookingError := Some (λ _ _ _, Some hostFails) |}.

End Host.

(* ===================================================================== *)
(** * The payment dialog of the booking form (components/BookingForm) *)
(* ===================================================================== *)

Module Checkout.
Import Model BookingForm.

Definition setShowPayment (value : bool) (st : FormState) : FormState :=
  let p := payment st in
  withPayment {| selectedProvider := selectedProvider p;
                 isLoadingPaymentInfo := isLoadingPaymentInfo p;
                 isCreatingPayment := isCreatingPayment p; showPayment := value;
                 paymentClientSecret := paymentClientSecret p;
                 pendingPayload := pendingPayload p |} st.

Definition setPaymentClientSecret (value : option string) (st : FormState) : FormState :=
  let p := payment st in
  withPayment {| selectedProvider := selectedProvider p;
                 isLoadingPaymentInfo := isLoadingPaymentInfo p;
                 isCreatingPayment := isCreatingPayment p; showPayment := showPayment p;
                 paymentClientSecret := value;
                 pendingPayload := pendingPayload p |} st.

(** [handlePaymentSuccess(paymentIntent)]; [paymentIntentId] is
    [paymentIntent?.id], [""] when undefined. *)
Definition handlePaymentSuccess (env : Env) (paymentIntentId : string)
    (st : FormState) : FormState * list Effect :=
  match pendingPayload (payment st) with
  | None => (setShowPayment false st, [])
  | Some pending =>
      let payload := setOrUndefined "payment_intent_id" paymentIntentId pending in
      let '(st1, effects) := submitPayload env payload st in
      match submitResult env payload with
      | SubmitOk =>
          (setPendingPayload None (setPaymentClientSecret None (setShowPayment false st1)),
           effects)
      | SubmitFailed _ => (st1, effects)
      end
  end.

(** The bookings that a list of effects submits. *)
Definition submitted (effects : list Effect) : list Payload :=
  omap (λ effect, match effect with SubmitBooking payload => Some payload | _ => None end)
       effects.

(** The payment calls among the effects. *)
Definition isPaymentCall (effect : Effect) : bool :=
  match effect with
  | CreatePayPalOrder _ _ _ | CreatePaymentIntent _ _ _ => true
  | _ => false
  end.

(** A form filled in by Jane that pays with [provider]. *)
Definition janePays (provider : Provider) : FormState :=
  withPayment {| selectedProvider := provider; isLoadingPaymentInfo := false;
                 isCreatingPayment := false; showPayment := false;
                 paymentClientSecret := None; pendingPayload := None |} (janeForm "").

Definition paidProps : Props :=
  {| resolvedEventType := Some paidIntroCall; resolvedSlot := Some janeSlot;
     resolvedUserTimezone := "UTC"; resolvedIsLoading := false; resolvedError := "";
     resolvedAlternatives := []; hasTemplateFallbackSuggestions := false |}.

Definition payingEnv : Env :=
  {| submitResult := λ _, SubmitOk;
     paypalOrder := Resolves ("https://paypal.example/approve?token=EC-7", "ord_1")%string;
     paymentIntent := Resolves "pi_secret_1"%string; urlParses := λ _, true |}.

End Checkout.

(* ===================================================================== *)
(** * Confidence badges (components/ConflictResolver.js) *)
(* ===================================================================== *)

Module Widget.

Definition GREEN : string :=
  "text-green-700 bg-green-100 dark:text-green-200 dark:bg-green-900/40".
Definition AMBER : string :=
  "text-amber-700 bg-amber-100 dark:text-amber-200 dark:bg-amber-900/40".
Definition GRAY : string :=
  "text-gray-700 bg-gray-100 dark:text-slate-200 dark:bg-slate-800".

(** [getConfidenceColor(score)] *)
Definition getConfidenceColor (score : Z) : string :=
  if 80 <=? score then GREEN else if 60 <=? score then AMBER else GRAY.

End Widget.

(* ===================================================================== *)
(** * Plain objects *)
(* ===================================================================== *)

Module ObjectFacts.

Lemma assign_ordinary {A : Type} key (value : A) (obj : gmap string A) :
  key ≠ "__proto__"%string → assignProperty key value obj = <[key := value]> obj.
Proof.
  intros Hkey. unfold assignProperty.
  destruct (obj !! key); [done|]. by destruct (decide (key = "__proto__"%string)).
Qed.

Lemma assign_own {A : Type} key (value : A) (obj : gmap string A) :
  is_Some (obj !! key) → assignProperty key value obj = <[key := value]> obj.
Proof. intros [old Hold]. unfold assignProperty. by rewrite Hold. Qed.

Lemma assign_proto {A : Type} (value : A) (obj : gmap string A) :
  obj !! "__proto__"%string = None → assignProperty "__proto__" value obj = obj.
Proof. intros Hnone. unfold assignProperty. by rewrite Hnone. Qed.

Lemma assign_cases {A : Type} key (value : A) (obj : gmap string A) :
  assignProperty key value obj = <[key := value]> obj
  ∨ (key = "__proto__"%string ∧ obj !! key = None ∧ assignProperty key value obj = obj).
Proof.
  unfold assignProperty. destruct (obj !! key) eqn:Hown; [by left|].
  destruct (decide (key = "__proto__"%string)); [by right|by left].
Qed.

Lemma assign_other {A : Type} key k (value : A) (obj : gmap string A) :
  k ≠ key → assignProperty key value obj !! k = obj !! k.
Proof.
  intros Hne. destruct (assign_cases key value obj) as [->|(_ & _ & ->)]; [|done].
  by rewrite lookup_insert_ne.
Qed.

End ObjectFacts.

(* ===================================================================== *)
(** * Client request ids *)
(* ===================================================================== *)

Module IdentityFacts.
Import Identity ObjectFacts.

Lemma truthy_true (s : string) : s ≠ ""%string → truthy s = true.
Proof. intros Hs. unfold truthy. by destruct (decide (s = ""%string)). Qed.

Lemma cleanStore_lookup now (store : gmap string stored) k e :
  cleanStore now store !! k = Some e ↔ store !! k = Some e ∧ live now e.
Proof. unfold cleanStore. by rewrite map_lookup_filter_Some. Qed.

Lemma cleanStore_lookup_None now (store : gmap string stored) k :
  store !! k = None → cleanStore now store !! k = None.
Proof.
  intros Hk. destruct (cleanStore now store !! k) as [e|] eqn:He; [|done].
  apply cleanStore_lookup in He as [He _]. congruence.
Qed.

(** A read that finds a live entry with an id returns that id and keeps
    the entry. *)
Lemma read_hit scopeKey ttl now u item id expiry :
  storedEntry (Available item) scopeKey = Some (Entry id expiry) →
  id ≠ ""%string → now < expiry →
  getOrCreateClientRequestId scopeKey ttl now u (Available item)
  = (id, Available (Some (cleanStore now (parseStoredRequestIds (Available item))))).
Proof.
  intros Hst Hid Hlive. unfold getOrCreateClientRequestId, storedEntry in *.
  assert (Hc : cleanStore now (parseStoredRequestIds (Available item)) !! safeScope scopeKey
               = Some (Entry id expiry)) by (by apply cleanStore_lookup).
  rewrite Hc, truthy_true by done. done.
Qed.




(** After a read with a non-empty fresh id at hand, a scope other than
    ["__proto__"] has an entry that carries the returned id and has not
    expired. *)
Lemma read_stores scopeKey ttl now u item :
  safeScope scopeKey ≠ "__proto__"%string →
  u ≠ ""%string → 0 < ttl →
  let first := getOrCreateClientRequestId scopeKey ttl now u (Available item) in
  ∃ expiry,
    first.2 = Available (Some (parseStoredRequestIds first.2))
    ∧ storedEntry first.2 scopeKey = Some (Entry first.1 expiry)
    ∧ first.1 ≠ ""%string ∧ now < expiry
    ∧ (cleanStore now (parseStoredRequestIds (Available item)) !! safeScope scopeKey = None →
       first.1 = u ∧ expiry = now + ttl).
Proof.
  intros Hscope Hu Httl. unfold getOrCreateClientRequestId, storedEntry. cbv zeta.
  set (c := cleanStore now (parseStoredRequestIds (Available item))).
  assert (Hmint : ∃ expiry,
    assignProperty (safeScope scopeKey) (Entry u (now + ttl)) c !! safeScope scopeKey
      = Some (Entry u expiry) ∧ now < expiry ∧ expiry = now + ttl).
  { exists (now + ttl). rewrite assign_ordinary by done. rewrite lookup_insert_eq.
    repeat split; lia. }
  destruct Hmint as (x & Hx & Hlt & Heq).
  destruct (c !! safeScope scopeKey) as [[id exp|]|] eqn:Hc; simpl.
  - unfold truthy. destruct (decide (id = ""%string)) as [->|Hid]; simpl.
    + exists x. by repeat split.
    + exists exp. repeat split; try done.
      pose proof Hc as Hc'. apply cleanStore_lookup in Hc' as [_ Hl]. exact Hl.
  - exists x. by repeat split.
  - exists x. by repeat split.
Qed.










End IdentityFacts.

(* ===================================================================== *)
(** * Properties of the API client *)
(* ===================================================================== *)

Module ApiClientFacts.
Import ApiClient.

Section Loop.

Variable cfg : RetryConfig.
Variable env : Env.

Lemma andThen_Some events rest r tr :
  andThen events rest = Some (r, tr) →
  ∃ tr', rest = Some (r, tr') ∧ tr = events ++ tr'.
Proof.
  destruct rest as [[r' tr']|]; simpl; [|done].
  intros [= -> <-]. by exists tr'.
Qed.

Lemma Nat_ltb_false a b : (a <? b)%nat = false → ¬ (a < b)%nat.
Proof. intros H. apply Nat.ltb_ge in H. lia. Qed.

(** One iteration of the loop, read off its result. *)
Lemma loop_unfold fuel attempt lastError r tr :
  requestLoop cfg env (S fuel) attempt lastError = Some (r, tr) →
  (attempt ≤ maxRetries cfg)%nat →
  (tr = [EvFetch attempt] ∧ stopsWith cfg env attempt r)
  ∨ (∃ ms lastError' tr',
       tr = EvFetch attempt :: EvSleep ms :: tr'
       ∧ requestLoop cfg env fuel (S attempt) lastError' = Some (r, tr')
       ∧ (attempt < maxRetries cfg)%nat ∧ waitsFor cfg env attempt ms).
Proof.
  intros Hrun Hle. simpl in Hrun.
  apply Nat.leb_le in Hle. rewrite Hle in Hrun.
  unfold stopsWith, waitsFor.
  destruct (respond env attempt) as [message|status header data].
  - simpl in Hrun.
    destruct (attempt <? maxRetries cfg)%nat eqn:Hlt.
    + apply andThen_Some in Hrun as (tr' & Hrest & ->).
      right. eexists _, _, tr'. apply Nat.ltb_lt in Hlt. by repeat split.
    + injection Hrun as <- <-. left. apply Nat_ltb_false in Hlt. by repeat split.
  - destruct (responseOk status) eqn:Hok.
    { injection Hrun as <- <-. by left. }
    cbv zeta in Hrun.
    set (error := normalizeError status header data (clock env attempt)) in *.
    destruct ((status =? 429) && retryOn429 cfg && (attempt <? maxRetries cfg)%nat) eqn:H429.
    + apply andThen_Some in Hrun as (tr' & Hrest & ->).
      apply andb_prop in H429 as [H429 Hlt]. apply Nat.ltb_lt in Hlt.
      assert (Hnc : isClientError error = false).
      { apply andb_prop in H429 as [Hs _]. apply Z.eqb_eq in Hs.
        unfold isClientError, error, normalizeError; simpl. rewrite Hs. reflexivity. }
      right. eexists _, _, tr'. repeat split; try done.
      rewrite H429. reflexivity.
    + destruct (isClientError error) eqn:Hce.
      { injection Hrun as <- <-. left. split; [done|]. split; [done|by left]. }
      destruct (attempt <? maxRetries cfg)%nat eqn:Hlt.
      * apply andThen_Some in Hrun as (tr' & Hrest & ->).
        right. eexists _, _, tr'. apply Nat.ltb_lt in Hlt as Hlt'.
        repeat split; try done.
        rewrite andb_true_r in H429. by rewrite H429.
      * injection Hrun as <- <-. left. split; [done|]. split; [done|].
        right. by apply Nat_ltb_false.
Qed.

(** The loop ends whenever it has one unit of fuel per remaining attempt,
    plus one. *)
Lemma loop_total fuel : ∀ attempt lastError,
  (1 ≤ fuel)%nat → (maxRetries cfg + 2 ≤ fuel + attempt)%nat →
  ∃ r tr, requestLoop cfg env fuel attempt lastError = Some (r, tr).
Proof.
  induction fuel as [|fuel IH]; intros attempt lastError Hpos Hfuel; [lia|].
  simpl. destruct (attempt <=? maxRetries cfg)%nat eqn:Hle; [|by eexists _, _].
  apply Nat.leb_le in Hle.
  assert (Hnext : ∀ events last',
    ∃ r tr, andThen events (requestLoop cfg env fuel (S attempt) last') = Some (r, tr)).
  { intros events last'. destruct (IH (S attempt) last') as (r & tr & ->); [lia..|].
    by eexists _, _. }
  destruct (respond env attempt) as [message|status header data]; simpl.
  - destruct (attempt <? maxRetries cfg)%nat; [apply Hnext|by eexists _, _].
  - destruct (responseOk status); [by eexists _, _|].
    destruct (_ && _ && _); [apply Hnext|].
    destruct (isClientError _); [by eexists _, _|].
    destruct (attempt <? maxRetries cfg)%nat; [apply Hnext|by eexists _, _].
Qed.

Lemma fetches_step a ms tr : fetches (EvFetch a :: EvSleep ms :: tr) = a :: fetches tr.
Proof. reflexivity. Qed.

(** The fetches of a run are the attempts [attempt, attempt + 1, ...], and
    none is numbered above [maxRetries]. *)
Lemma loop_fetches fuel : ∀ attempt lastError r tr,
  requestLoop cfg env fuel attempt lastError = Some (r, tr) →
  ∃ n, fetches tr = seq attempt n ∧ (n = 0 ∨ attempt + n ≤ maxRetries cfg + 1)%nat.
Proof.
  induction fuel as [|fuel IH]; intros attempt lastError r tr Hrun; [done|].
  destruct (decide (attempt ≤ maxRetries cfg)%nat) as [Hle|Hgt].
  - destruct (loop_unfold _ _ _ _ _ Hrun Hle)
      as [[-> _]|(ms & last' & tr' & -> & Hrest & Hlt & _)].
    + exists 1%nat. split; [done|lia].
    + destruct (IH _ _ _ _ Hrest) as (n & Hn & Hbound).
      exists (S n). rewrite fetches_step, Hn. split; [done|lia].
  - simpl in Hrun. assert (Hf : (attempt <=? maxRetries cfg)%nat = false) by (apply Nat.leb_gt; lia).
    rewrite Hf in Hrun.
    injection Hrun as <- <-. exists 0%nat. split; [done|by left].
Qed.

Lemma fetches_from fuel attempt lastError r tr k :
  requestLoop cfg env fuel attempt lastError = Some (r, tr) →
  k ∈ fetches tr → (attempt ≤ k ≤ maxRetries cfg)%nat.
Proof.
  intros Hrun Hk. destruct (loop_fetches _ _ _ _ _ Hrun) as (n & Hn & Hbound).
  rewrite Hn in Hk. apply elem_of_seq in Hk. lia.
Qed.

Lemma loop_head fuel attempt lastError r tr :
  requestLoop cfg env fuel attempt lastError = Some (r, tr) →
  (attempt ≤ maxRetries cfg)%nat → attempt ∈ fetches tr.
Proof.
  intros Hrun Hle. destruct fuel as [|fuel]; [done|].
  destruct (loop_unfold _ _ _ _ _ Hrun Hle) as [[-> _]|(ms & last' & tr' & -> & _)];
    simpl; by left.
Qed.

Lemma waitAfter_skip a ms tr k :
  a ≠ k → waitAfter k (EvFetch a :: EvSleep ms :: tr) = waitAfter k tr.
Proof. intros Hne. simpl. apply Nat.eqb_neq in Hne. by rewrite Hne. Qed.

Lemma waitAfter_here a ms tr : waitAfter a (EvFetch a :: EvSleep ms :: tr) = Some ms.
Proof. simpl. by rewrite Nat.eqb_refl. Qed.

(** What follows each fetch of a run. *)
Lemma loop_after fuel : ∀ attempt lastError r tr k,
  requestLoop cfg env fuel attempt lastError = Some (r, tr) →
  k ∈ fetches tr →
  (waitAfter k tr = None ∧ (S k ∉ fetches tr) ∧ stopsWith cfg env k r)
  ∨ (∃ ms, waitAfter k tr = Some ms ∧ S k ∈ fetches tr
           ∧ (k < maxRetries cfg)%nat ∧ waitsFor cfg env k ms).
Proof.
  induction fuel as [|fuel IH]; intros attempt lastError r tr k Hrun Hk; [done|].
  pose proof (fetches_from _ _ _ _ _ _ Hrun Hk) as Hrange.
  assert (Hle : (attempt ≤ maxRetries cfg)%nat) by lia.
  destruct (loop_unfold _ _ _ _ _ Hrun Hle)
    as [[-> Hstop]|(ms & last' & tr' & -> & Hrest & Hlt & Hwait)].
  - simpl in Hk. apply list_elem_of_singleton in Hk as ->.
    left. simpl. split; [done|]. split; [|done].
    intros Hin. apply list_elem_of_singleton in Hin. lia.
  - rewrite fetches_step in Hk |- *. apply elem_of_cons in Hk as [->|Hk].
    + right. exists ms. rewrite waitAfter_here. split; [done|]. split; [|done].
      right. apply (loop_head _ _ _ _ _ Hrest). lia.
    + pose proof (fetches_from _ _ _ _ _ _ Hrest Hk) as Hrange'.
      rewrite waitAfter_skip by lia.
      destruct (IH _ _ _ _ _ Hrest Hk) as [(Hw & Hn & Hs)|(d & Hw & Hn & Hl & Hs)].
      * left. split; [done|]. split; [|done].
        intros Hin. apply elem_of_cons in Hin as [?|?]; [lia|done].
      * right. exists d. split; [done|]. split; [|done]. by right.
Qed.

End Loop.

Lemma isClientError_normalize status header data now :
  isClientError (normalizeError status header data now)
  = (400 <=? status) && (status <? 500) && negb (status =? 429).
Proof. reflexivity. Qed.

Lemma backoff_bounds n rnd :
  (0 <= rnd)%Q → (rnd < 1)%Q →
  (inject_Z (Z.min (1000 * 2 ^ Z.of_nat n) 12000) <= calculateBackoff n rnd)%Q
  ∧ (calculateBackoff n rnd < inject_Z (Z.min (1000 * 2 ^ Z.of_nat n) 12000) + 350)%Q
  ∧ (calculateBackoff n rnd
     == inject_Z (Z.min (1000 * 2 ^ Z.of_nat n) 12000) + rnd * 350)%Q.
Proof.
  intros H0 H1. unfold calculateBackoff, calculateBackoffWith.
  set (d := 1000 * 2 ^ Z.of_nat n).
  assert (Hmin : (Qmin (inject_Z d) (inject_Z 12000) == inject_Z (Z.min d 12000))%Q).
  { destruct (Z.min_spec d 12000) as [[Hlt ->]|[Hge ->]].
    - apply Q.min_l. rewrite <- Zle_Qle. lia.
    - apply Q.min_r. rewrite <- Zle_Qle. lia. }
  cbv zeta. rewrite Hmin. split; [lra|]. split; [lra|reflexivity].
Qed.

(** Three 503 answers: the first attempt and two retries, with the waits
    of attempts 0 and 1 in between, and the error is thrown. *)
Example request_gives_up_after_two_retries :
  ∃ error,
    request (alwaysStatus 503)
    = Some (Thrown error,
            [EvFetch 0; EvSleep (calculateBackoff 0 0); EvFetch 1;
             EvSleep (calculateBackoff 1 0); EvFetch 2])
    ∧ e_status error = Some 503.
Proof. eexists. split; reflexivity. Qed.

(** A 404 is thrown by the first attempt. *)
Example request_does_not_retry_404 :
  ∃ error, request (alwaysStatus 404) = Some (Thrown error, [EvFetch 0]).
Proof. eexists. reflexivity. Qed.

Lemma retryAfter_source header data now :
  e_retryAfter (normalizeError 429 header data now)
  = match truthyNum (b_retryAfter data) with
    | Some seconds => Some seconds
    | None => parseRetryAfterHeader header now
    end.
Proof. reflexivity. Qed.

Lemma header_positive value now seconds :
  parseRetryAfterHeader value now = Some seconds → 0 < seconds.
Proof.
  assert (Hdate : ∀ date,
    match date with
    | None => None
    | Some t => if 0 <? t - now then Some ((t - now + 999) / 1000) else None
    end = Some seconds → 0 < seconds).
  { intros [t|]; [|done]. destruct (0 <? t - now) eqn:Hlt; [|done].
    intros [= <-]. apply Z.ltb_lt in Hlt.
    apply Z.lt_le_trans with 1; [lia|]. apply Z.div_le_lower_bound; lia. }
  unfold parseRetryAfterHeader. destruct value as [v|]; [|done].
  destruct (asSeconds v) as [n|]; [|apply Hdate].
  destruct (0 <? n) eqn:Hn; [|apply Hdate].
  intros [= <-]. by apply Z.ltb_lt.
Qed.

(** The [retryAfter] of a normalized error is never zero, so the test
    [error.retryAfter ? ... : ...] asks whether there is one. *)
Lemma retryAfter_truthy header data now :
  truthyNum (e_retryAfter (normalizeError 429 header data now))
  = e_retryAfter (normalizeError 429 header data now).
Proof.
  rewrite retryAfter_source.
  destruct (truthyNum (b_retryAfter data)) as [seconds|] eqn:Hbody.
  - unfold truthyNum in *. destruct (b_retryAfter data) as [n|]; [|done].
    destruct (n =? 0) eqn:Hn; [done|]. injection Hbody as <-. by rewrite Hn.
  - destruct (parseRetryAfterHeader header now) as [seconds|] eqn:Hheader; [|done].
    apply header_positive in Hheader. simpl.
    assert (Hn : (seconds =? 0) = false) by (apply Z.eqb_neq; lia). by rewrite Hn.
Qed.

Lemma backoff_formula n rnd :
  (calculateBackoff n rnd
   == inject_Z (Z.min (1000 * 2 ^ Z.of_nat n) 12000) + rnd * 350)%Q.
Proof.
  unfold calculateBackoff, calculateBackoffWith.
  set (d := 1000 * 2 ^ Z.of_nat n).
  assert (Hmin : (Qmin (inject_Z d) (inject_Z 12000) == inject_Z (Z.min d 12000))%Q).
  { destruct (Z.min_spec d 12000) as [[Hlt ->]|[Hge ->]].
    - apply Q.min_l. rewrite <- Zle_Qle. lia.
    - apply Q.min_r. rewrite <- Zle_Qle. lia. }
  cbv zeta. rewrite Hmin. reflexivity.
Qed.

(** C5, as the code has it.  Offline, a request is refused with the OFFLINE
    error and nothing is fetched.  Online, it makes the first fetch and at
    most two more.  A rejected fetch or a 5xx response is followed, while
    fewer than two retries have been used, by a wait of
    [min(1000 * 2^n, 12000) + Math.random() * 350] ms, the jitter being in
    [[0, 350)], and by the next attempt; on the last attempt it is thrown.
    A 4xx response other than 429 is thrown at once, with no wait and no
    further fetch.  A 429 on one of the first two attempts is followed by
    the next attempt, which counts against the same three fetches, after a
    wait of exactly [retryAfter] seconds when the error carries one, and
    of the backoff otherwise; a 429 on the last attempt is thrown.  The
    [retryAfter] of the error is the one of the body unless that is
    missing or zero, and then the [Retry-After] header read as a positive
    number of seconds or, failing that, as a date still ahead (the seconds
    left, rounded up); a header that is absent, or that reads as zero and
    as no date ahead, gives none. *)
Theorem request_retry_contract (env : Env) :
  ∃ r tr,
    request env = Some (r, tr)
    ∧ (onLine env = false → r = Thrown offlineError ∧ tr = [])
    ∧ (onLine env = true → ∃ n, fetches tr = seq 0 (S n) ∧ (n ≤ 2)%nat)
    ∧ (∀ k, k ∈ fetches tr → serverOrNetworkFailure (respond env k) →
         ((k < 2)%nat ∧ S k ∈ fetches tr
          ∧ waitAfter k tr = Some (calculateBackoff k (random env k)))
         ∨ (k = 2%nat ∧ (S k ∉ fetches tr) ∧ waitAfter k tr = None ∧ ∃ e, r = Thrown e))
    ∧ (∀ k status header data,
         k ∈ fetches tr → respond env k = FetchResponds status header data →
         400 ≤ status < 500 → status ≠ 429 →
         r = Thrown (normalizeError status header data (clock env k))
         ∧ waitAfter k tr = None ∧ S k ∉ fetches tr)
    ∧ (∀ k header data,
         k ∈ fetches tr → respond env k = FetchResponds 429 header data →
         let error := normalizeError 429 header data (clock env k) in
         ((k < 2)%nat ∧ S k ∈ fetches tr
          ∧ waitAfter k tr
            = Some match e_retryAfter error with
                   | Some seconds => inject_Z (seconds * 1000)
                   | None => calculateBackoff k (random env k)
                   end)
         ∨ (k = 2%nat ∧ (S k ∉ fetches tr) ∧ waitAfter k tr = None ∧ r = Thrown error))
    ∧ (∀ header data now,
         let retryAfter := e_retryAfter (normalizeError 429 header data now) in
         (∀ seconds, b_retryAfter data = Some seconds → seconds ≠ 0 →
                     retryAfter = Some seconds)
         ∧ (b_retryAfter data = None ∨ b_retryAfter data = Some 0 →
            retryAfter = parseRetryAfterHeader header now)
         ∧ retryAfter ≠ Some 0)
    ∧ (∀ now, parseRetryAfterHeader None now = None)
    ∧ (∀ seconds date now,
         0 < seconds →
         parseRetryAfterHeader (Some {| asSeconds := Some seconds; asDate := date |}) now
         = Some seconds)
    ∧ (∀ seconds date now,
         match seconds with Some n => n ≤ 0 | None => True end →
         parseRetryAfterHeader (Some {| asSeconds := seconds; asDate := date |}) now
         = match date with
           | Some t => if 0 <? t - now then Some ((t - now + 999) / 1000) else None
           | None => None
           end)
    ∧ (∀ n rnd,
         (calculateBackoff n rnd
          == inject_Z (Z.min (1000 * 2 ^ Z.of_nat n) 12000) + rnd * 350)%Q
         ∧ ((0 <= rnd)%Q → (rnd < 1)%Q → (0 <= rnd * 350)%Q ∧ (rnd * 350 < 350)%Q)).
Proof.
  assert (Hsource : ∀ header data now,
    let retryAfter := e_retryAfter (normalizeError 429 header data now) in
    (∀ seconds, b_retryAfter data = Some seconds → seconds ≠ 0 → retryAfter = Some seconds)
    ∧ (b_retryAfter data = None ∨ b_retryAfter data = Some 0 →
       retryAfter = parseRetryAfterHeader header now)
    ∧ retryAfter ≠ Some 0).
  { intros header data now retryAfter. unfold retryAfter. split; [|split].
    - intros seconds Hbody Hne. rewrite retryAfter_source, Hbody. simpl.
      apply Z.eqb_neq in Hne. by rewrite Hne.
    - intros [Hbody|Hbody]; by rewrite retryAfter_source, Hbody.
    - intros Hzero. pose proof (retryAfter_truthy header data now) as Htruthy.
      rewrite Hzero in Htruthy. discriminate Htruthy. }
  assert (Hseconds : ∀ seconds date now,
    0 < seconds →
    parseRetryAfterHeader (Some {| asSeconds := Some seconds; asDate := date |}) now
    = Some seconds).
  { intros seconds date now Hpos. simpl.
    assert (H1 : (0 <? seconds) = true) by (apply Z.ltb_lt; lia). by rewrite H1. }
  assert (Hdate : ∀ seconds date now,
    match seconds with Some n => n ≤ 0 | None => True end →
    parseRetryAfterHeader (Some {| asSeconds := seconds; asDate := date |}) now
    = match date with
      | Some t => if 0 <? t - now then Some ((t - now + 999) / 1000) else None
      | None => None
      end).
  { intros [n|] date now Hn; simpl; [|done].
    assert (H1 : (0 <? n) = false) by (apply Z.ltb_ge; lia). by rewrite H1. }
  assert (Hbackoff : ∀ n rnd,
    (calculateBackoff n rnd
     == inject_Z (Z.min (1000 * 2 ^ Z.of_nat n) 12000) + rnd * 350)%Q
    ∧ ((0 <= rnd)%Q → (rnd < 1)%Q → (0 <= rnd * 350)%Q ∧ (rnd * 350 < 350)%Q)).
  { intros n rnd. split; [apply backoff_formula|]. intros H0 H1. split; lra. }
  unfold request, requestWith. destruct (onLine env) eqn:Honline.
  2:{ eexists _, []. split; [reflexivity|]. split; [done|]. split; [done|].
      split; [|split; [|split; [|split; [exact Hsource|split; [done|split; [exact Hseconds|split; [exact Hdate|exact Hbackoff]]]]]]].
      - intros k Hk. by apply not_elem_of_nil in Hk.
      - intros k status header data Hk. by apply not_elem_of_nil in Hk.
      - intros k header data Hk. by apply not_elem_of_nil in Hk. }
  destruct (loop_total defaultRetryConfig env 4 0 None) as (r & tr & Hrun);
    [simpl; lia..|].
  exists r, tr. split; [exact Hrun|]. split; [done|].
  split.
  { intros _. destruct (loop_fetches _ _ _ _ _ _ _ Hrun) as (n & Hn & Hb).
    pose proof (loop_head _ _ _ _ _ _ _ Hrun ltac:(simpl; lia)) as Hfirst.
    rewrite Hn in Hfirst. apply elem_of_seq in Hfirst.
    destruct n as [|n]; [lia|]. exists n. split; [done|]. simpl in Hb. lia. }
  split; [|split; [|split; [|split; [exact Hsource|split; [done|split; [exact Hseconds|split; [exact Hdate|exact Hbackoff]]]]]]].
  - intros k Hk Hfail.
    pose proof (fetches_from _ _ _ _ _ _ _ _ Hrun Hk) as Hrange. simpl in Hrange.
    destruct (loop_after _ _ _ _ _ _ _ _ Hrun Hk)
      as [(Hw & Hn & Hs)|(ms & Hw & Hn & Hl & Hs)].
    + right. unfold stopsWith in Hs.
      destruct (respond env k) as [message|status header data]; simpl in *.
      * destruct Hs as [-> Hlast]. repeat split; [lia|done..|by eexists].
      * assert (Hok : responseOk status = false).
        { unfold responseOk. apply andb_false_iff. right. apply Z.leb_gt. lia. }
        rewrite Hok in Hs. destruct Hs as [-> [Hce|Hlast]].
        -- rewrite isClientError_normalize in Hce.
           apply andb_prop in Hce as [Hce _]. apply andb_prop in Hce as [_ Hce].
           apply Z.ltb_lt in Hce. lia.
        -- repeat split; [lia|done..|by eexists].
    + left. unfold waitsFor in Hs. simpl in Hl. split; [done|]. split; [done|].
      destruct (respond env k) as [message|status header data]; simpl in *.
      * by rewrite Hs in Hw.
      * destruct Hs as (_ & _ & Hs).
        assert (H429 : (status =? 429) = false) by (apply Z.eqb_neq; lia).
        rewrite H429 in Hs. simpl in Hs. by rewrite Hs in Hw.
  - intros k status header data Hk Hresp Hrange Hne.
    assert (Hce : isClientError (normalizeError status header data (clock env k)) = true).
    { rewrite isClientError_normalize.
      apply andb_true_intro. split; [apply andb_true_intro; split|].
      - apply Z.leb_le. lia.
      - apply Z.ltb_lt. lia.
      - apply negb_true_iff, Z.eqb_neq. lia. }
    assert (Hok : responseOk status = false).
    { unfold responseOk. apply andb_false_iff. right. apply Z.leb_gt. lia. }
    destruct (loop_after _ _ _ _ _ _ _ _ Hrun Hk)
      as [(Hw & Hn & Hs)|(ms & Hw & Hn & Hl & Hs)].
    + unfold stopsWith in Hs. rewrite Hresp, Hok in Hs. by destruct Hs as [-> _].
    + unfold waitsFor in Hs. rewrite Hresp in Hs. destruct Hs as (_ & Hs & _). congruence.
  - intros k header data Hk Hresp. cbv zeta.
    pose proof (fetches_from _ _ _ _ _ _ _ _ Hrun Hk) as Hrange. simpl in Hrange.
    destruct (loop_after _ _ _ _ _ _ _ _ Hrun Hk)
      as [(Hw & Hn & Hs)|(ms & Hw & Hn & Hl & Hs)].
    + right. unfold stopsWith in Hs. rewrite Hresp in Hs. simpl in Hs.
      destruct Hs as [-> [Hce|Hlast]]; [done|].
      split; [lia|]. by repeat split.
    + left. simpl in Hl. split; [done|]. split; [done|].
      unfold waitsFor in Hs. rewrite Hresp in Hs.
      destruct Hs as (_ & _ & ->). rewrite Hw. simpl. unfold waitFor429.
      by rewrite retryAfter_truthy.
Qed.

(** The contract at a server that always answers 503: the request ends,
    with the error, after the fetches numbered 0, 1 and 2, the first two
    of which are followed by the backoff waits of attempts 0 and 1. *)
Lemma request_retry_contract_witness :
  ∃ r tr,
    request (alwaysStatus 503) = Some (r, tr)
    ∧ fetches tr = [0; 1; 2]%nat
    ∧ waitAfter 0 tr = Some (calculateBackoff 0 0)
    ∧ waitAfter 1 tr = Some (calculateBackoff 1 0)
    ∧ waitAfter 2 tr = None
    ∧ ∃ error, r = Thrown error.
Proof.
  destruct (request_retry_contract (alwaysStatus 503))
    as (r & tr & Hrun & _ & Honline & Hfail & _).
  destruct (Honline eq_refl) as (n & Hn & Hbound).
  assert (Hserver : ∀ k, serverOrNetworkFailure (respond (alwaysStatus 503) k))
    by (intros k; simpl; lia).
  assert (H0 : 0%nat ∈ fetches tr) by (rewrite Hn; apply elem_of_seq; lia).
  destruct (Hfail 0%nat H0 (Hserver 0%nat)) as [(_ & H1 & Hw0)|(Hk & _)];
    [|discriminate Hk].
  destruct (Hfail 1%nat H1 (Hserver 1%nat)) as [(_ & H2 & Hw1)|(Hk & _)];
    [|discriminate Hk].
  destruct (Hfail 2%nat H2 (Hserver 2%nat)) as [(Hlt & _)|(_ & H3 & Hw2 & Hthrown)];
    [lia|].
  assert (Hthree : n = 2%nat).
  { rewrite Hn in H2. apply elem_of_seq in H2. lia. }
  subst n. exists r, tr. by repeat split.
Defined.

(** C5 as stated does not hold for every 429: one that carries
    [Retry-After: 0] is followed by the backoff wait, not by a wait of
    zero seconds; one whose body has a [retryAfter] of 10 next to a
    [Retry-After: 5] header is followed by a wait of ten seconds; and the
    third 429 in a row, [Retry-After: 5] and all, is followed by no wait:
    it is thrown. *)
Lemma retry_after_counterexample :
  (∃ r tr,
     request (throttledWith (Some 0) None) = Some (r, tr)
     ∧ waitAfter 0 tr = Some (calculateBackoff 0 0)
     ∧ (calculateBackoff 0 0 == 1000)%Q)
  ∧ (∃ r tr,
       request (throttledWith (Some 5) (Some 10)) = Some (r, tr)
       ∧ waitAfter 0 tr = Some (inject_Z 10000))
  ∧ (∃ error tr,
       request (throttledWith (Some 5) None) = Some (Thrown error, tr)
       ∧ fetches tr = [0; 1; 2]%nat
       ∧ waitAfter 0 tr = Some (inject_Z 5000) ∧ waitAfter 1 tr = Some (inject_Z 5000)
       ∧ waitAfter 2 tr = None
       ∧ e_status error = Some 429 ∧ e_retryAfter error = Some 5).
Proof. split; [|split]; eexists _, _; by repeat split. Qed.

End ApiClientFacts.

(* ===================================================================== *)
(** * Properties of the form validation engine *)
(* ===================================================================== *)

Module FormEngineFacts.
Import FormEngine ObjectFacts.

Section Facts.

Variable urlParses : string → bool.

Lemma assign_is_Some (errs : gmap string string) k k' message :
  is_Some (errs !! k) → is_Some (assignProperty k' message errs !! k).
Proof.
  intros Hk. destruct (assign_cases k' message errs) as [->|(_ & _ & ->)]; [|done].
  destruct (decide (k' = k)) as [->|Hne].
  - rewrite lookup_insert_eq. by eexists.
  - by rewrite lookup_insert_ne.
Qed.

(** Validation only ever adds errors. *)
Lemma validateField_keeps answers errs field k :
  is_Some (errs !! k) → is_Some (validateField urlParses answers errs field !! k).
Proof.
  intros Hk. unfold validateField.
  destruct (negb (isFieldVisible field answers)); [done|].
  destruct (f_required field && emptyAnswer (readAnswer answers (f_id field)));
    [by apply assign_is_Some|].
  destruct (falsyAnswer (readAnswer answers (f_id field))); [done|].
  destruct (f_type field); simpl;
    repeat match goal with
           | |- context [if ?b then _ else _] => destruct b
           end;
    repeat apply assign_is_Some; done.
Qed.

Lemma validate_keeps answers fields : ∀ errs k,
  is_Some (errs !! k) →
  is_Some (foldl (validateField urlParses answers) errs fields !! k).
Proof.
  induction fields as [|field fields IH]; intros errs k Hk; [done|].
  simpl. apply IH. by apply validateField_keeps.
Qed.

Lemma validateField_invisible answers errs field :
  isFieldVisible field answers = false →
  validateField urlParses answers errs field = errs.
Proof. intros Hv. unfold validateField. by rewrite Hv. Qed.

Lemma validateField_required answers errs field :
  isFieldVisible field answers = true → f_required field = true →
  emptyAnswer (readAnswer answers (f_id field)) = true →
  validateField urlParses answers errs field
  = assignProperty (f_id field) "This field is required"%string errs.
Proof. intros Hv Hr He. unfold validateField. by rewrite Hv, Hr, He. Qed.

(** No error is ever recorded under ["__proto__"]. *)
Lemma validateField_proto answers errs field :
  errs !! "__proto__"%string = None →
  validateField urlParses answers errs field !! "__proto__"%string = None.
Proof.
  intros Hnone.
  assert (Hassign : ∀ (m : gmap string string) message,
            m !! "__proto__"%string = None →
            assignProperty (f_id field) message m !! "__proto__"%string = None).
  { intros m message Hm. destruct (decide (f_id field = "__proto__"%string)) as [->|Hne].
    - by rewrite assign_proto.
    - by rewrite assign_other. }
  unfold validateField.
  destruct (negb (isFieldVisible field answers)); [done|].
  destruct (f_required field && emptyAnswer (readAnswer answers (f_id field)));
    [by apply Hassign|].
  destruct (falsyAnswer (readAnswer answers (f_id field))); [done|].
  destruct (f_type field); simpl;
    repeat match goal with
           | |- context [if ?b then _ else _] => destruct b
           end;
    repeat apply Hassign; done.
Qed.

Lemma validate_proto answers fields : ∀ errs,
  errs !! "__proto__"%string = None →
  foldl (validateField urlParses answers) errs fields !! "__proto__"%string = None.
Proof.
  induction fields as [|field fields IH]; intros errs Hnone; [done|].
  simpl. apply IH. by apply validateField_proto.
Qed.

(** A key that [Object.prototype] does not define is read from the own
    properties alone. *)
Lemma readAnswer_own answers key :
  prototypeText key = None →
  readAnswer answers key
  = match answers !! key with
    | Some answer => Own answer
    | None => Undefined
    end.
Proof. intros Hkey. unfold readAnswer. by rewrite Hkey. Qed.

Lemma equals_holds answers fieldId value :
  value ≠ ""%string → prototypeText fieldId ≠ Some value →
  conditionHolds answers {| c_fieldId := fieldId; c_operator := Equals; c_value := value |} = true
  ↔ answers !! fieldId = Some (AStr value)
    ∨ ∃ items, answers !! fieldId = Some (AList items) ∧ value ∈ items.
Proof.
  intros Hv Hproto. unfold conditionHolds, readAnswer. cbn [c_fieldId c_operator c_value].
  destruct (answers !! fieldId) as [[s|items]|]; cbn [answerText].
  - rewrite String.eqb_eq. split.
    + intros ->. by left.
    + intros [[= ->]|(items & [=] & _)]. done.
  - rewrite bool_decide_eq_true. split.
    + intros Hin. right. by exists items.
    + intros [[=]|(items' & [= <-] & Hin)]. done.
  - destruct (prototypeText fieldId) as [text|]; cbn [answerText];
      rewrite String.eqb_eq; split.
    + intros ->. done.
    + intros [[=]|(items & [=] & _)].
    + intros <-. done.
    + intros [[=]|(items & [=] & _)].
Qed.

(** No property of [Object.prototype] reads as ["yes"]. *)
Lemma yes_not_inherited fieldId : prototypeText fieldId ≠ Some "yes"%string.
Proof.
  unfold prototypeText.
  destruct (decide (fieldId = "__proto__"%string)); [done|].
  destruct (decide (fieldId = "constructor"%string)); [done|].
  destruct (bool_decide _); [|done].
  change ("function " +:+ fieldId +:+ "() { [native code] }")%string
    with (String "f" ("unction " +:+ fieldId +:+ "() { [native code] }")%string).
  discriminate.
Qed.

End Facts.

(** The round trip of the spec: a required email field. *)
Example email_field_round_trip :
  let schema := [{| f_id := "email"; f_type := Email; f_required := true;
                    f_conditional := None |}] in
  isValid (validateFormAnswers (λ _, true) schema ∅) = false
  ∧ isValid (validateFormAnswers (λ _, true) schema {["email" := AStr "not-an-email"]}) = false
  ∧ isValid (validateFormAnswers (λ _, true) schema {["email" := AStr "a@b.com"]}) = true.
Proof. by vm_compute. Qed.

(** C8, as the code has it, for every answer mapping.  A field whose
    conditional rule is switched on ([show]) and lists at least one
    condition is visible exactly when every condition holds.  A field with
    no rule, with a rule whose [show] is off (whatever conditions it
    lists), or with a rule that lists no condition is visible.  An [equals]
    condition holds exactly when the answer is that value, or an array that
    contains it: for the value ["yes"] on every field, and in general for a
    value that is not the text of the property of [Object.prototype] named
    like the field.  While a field is invisible it
    adds nothing to the validation of any schema it is part of.  While it
    is visible and required, and the value read under its id is empty, the
    schema is invalid with an error under the field's id, for every id but
    ["__proto__"]; for an id that names no property of [Object.prototype]
    the value read is the answer given. *)
Theorem conditional_visibility_gates_validation
    (urlParses : string → bool) (answers : gmap string Answer) :
  (∀ field rule,
     f_conditional field = Some rule → show rule = true → conditions rule ≠ [] →
     isFieldVisible field answers = true
     ↔ Forall (λ condition, conditionHolds answers condition = true) (conditions rule))
  ∧ (∀ field,
       (∀ rule, f_conditional field = Some rule →
                show rule = false ∨ conditions rule = []) →
       isFieldVisible field answers = true)
  ∧ (∀ fieldId value, value ≠ ""%string → prototypeText fieldId ≠ Some value →
       conditionHolds answers
         {| c_fieldId := fieldId; c_operator := Equals; c_value := value |} = true
       ↔ answers !! fieldId = Some (AStr value)
         ∨ ∃ items, answers !! fieldId = Some (AList items) ∧ value ∈ items)
  ∧ (∀ fieldId,
       conditionHolds answers
         {| c_fieldId := fieldId; c_operator := Equals; c_value := "yes" |} = true
       ↔ answers !! fieldId = Some (AStr "yes")
         ∨ ∃ items, answers !! fieldId = Some (AList items) ∧ "yes"%string ∈ items)
  ∧ (∀ field before after,
       isFieldVisible field answers = false →
       validateFormAnswers urlParses (before ++ field :: after) answers
       = validateFormAnswers urlParses (before ++ after) answers)
  ∧ (∀ field before after,
       isFieldVisible field answers = true → f_required field = true →
       emptyAnswer (readAnswer answers (f_id field)) = true →
       f_id field ≠ "__proto__"%string →
       let result := validateFormAnswers urlParses (before ++ field :: after) answers in
       isValid result = false ∧ is_Some (errors result !! f_id field))
  ∧ (∀ key, prototypeText key = None →
       readAnswer answers key
       = match answers !! key with
         | Some answer => Own answer
         | None => Undefined
         end).
Proof.
  split; [|split; [|split; [|split; [|split; [|split]]]]].
  - intros field rule Hrule Hshow Hconds.
    unfold isFieldVisible. rewrite Hrule, Hshow.
    destruct (conditions rule) as [|c cs] eqn:Hcs; [done|].
    change (forallb (conditionHolds answers) (c :: cs) = true
            ↔ Forall (λ condition, conditionHolds answers condition = true) (c :: cs)).
    rewrite forallb_forall, List.Forall_forall. done.
  - intros field Hoff. unfold isFieldVisible.
    destruct (f_conditional field) as [rule|]; [|done].
    destruct (Hoff rule eq_refl) as [->| ->]; [done|].
    by destruct (show rule).
  - intros fieldId value. apply equals_holds.
  - intros fieldId. apply equals_holds; [done|]. apply yes_not_inherited.
  - intros field before after Hinv. unfold validateFormAnswers.
    rewrite foldl_app. simpl. rewrite validateField_invisible by done.
    by rewrite <- foldl_app.
  - intros field before after Hvis Hreq Hempty Hid result.
    assert (Hsome : is_Some (errors result !! f_id field)).
    { unfold result, validateFormAnswers. simpl. rewrite foldl_app. simpl.
      apply validate_keeps. rewrite validateField_required by done.
      rewrite assign_ordinary by done.
      rewrite lookup_insert_eq. by eexists. }
    split; [|exact Hsome].
    unfold result, validateFormAnswers in *. simpl in *.
    apply bool_decide_eq_false. intros Hnil. rewrite Hnil in Hsome.
    rewrite lookup_empty in Hsome. by destruct Hsome.
  - intros key. apply readAnswer_own.
Qed.

Lemma conditional_visibility_gates_validation_witness :
  (isFieldVisible (fieldF2 true) {["F1" := AStr "yes"]} = true
   ∧ isValid (validateFormAnswers (λ _, true) [fieldF2 true] {["F1" := AStr "yes"]}) = false)
  ∧ (isFieldVisible (fieldF2 true) {["F1" := AStr "no"]} = false
     ∧ validateFormAnswers (λ _, true) [fieldF2 true] {["F1" := AStr "no"]}
       = validateFormAnswers (λ _, true) [] {["F1" := AStr "no"]})
  ∧ isFieldVisible (fieldF2 false) {["F1" := AStr "no"]} = true.
Proof.
  split; [|split].
  - destruct (conditional_visibility_gates_validation (λ _, true) {["F1" := AStr "yes"]})
      as (Hvis & _ & _ & _ & _ & Hreq & _).
    assert (Hv : isFieldVisible (fieldF2 true) {["F1" := AStr "yes"]} = true).
    { apply (Hvis (fieldF2 true) {| show := true; conditions := [whenF1IsYes] |});
        [reflexivity|reflexivity|done|]. repeat constructor. }
    split; [exact Hv|]. by apply (Hreq (fieldF2 true) [] [] Hv eq_refl eq_refl).
  - destruct (conditional_visibility_gates_validation (λ _, true) {["F1" := AStr "no"]})
      as (_ & _ & _ & _ & Hskip & _).
    assert (Hv : isFieldVisible (fieldF2 true) {["F1" := AStr "no"]} = false) by reflexivity.
    split; [exact Hv|]. apply (Hskip (fieldF2 true) [] [] Hv).
  - destruct (conditional_visibility_gates_validation (λ _, true) {["F1" := AStr "no"]})
      as (_ & Hoff & _).
    apply Hoff. intros rule [= <-]. by left.
Defined.

(** C8 as stated does not hold.  A rule that lists a condition but has
    [show] off leaves the field visible although the condition fails, and
    the field, required and unanswered, then blocks validity.  And a
    visible required field whose id names a property of
    [Object.prototype] escapes the check: left unanswered under the id
    ["constructor"], or answered with the empty string under
    ["__proto__"], it leaves the schema valid with no error recorded. *)
Lemma conditional_rule_with_show_off_counterexample :
  (conditions {| show := false; conditions := [whenF1IsYes] |} ≠ []
   ∧ conditionHolds ∅ whenF1IsYes = false
   ∧ isFieldVisible (fieldF2 false) ∅ = true
   ∧ isValid (validateFormAnswers (λ _, true) [fieldF2 false] ∅) = false
   ∧ errors (validateFormAnswers (λ _, true) [fieldF2 false] ∅) !! "F2"
     = Some "This field is required"%string)
  ∧ (let field := {| f_id := "constructor"; f_type := ShortText; f_required := true;
                     f_conditional := None |} in
     isFieldVisible field ∅ = true
     ∧ validateFormAnswers (λ _, true) [field] ∅ = {| isValid := true; errors := ∅ |})
  ∧ (let field := {| f_id := "__proto__"; f_type := ShortText; f_required := true;
                     f_conditional := None |} in
     isFieldVisible field {["__proto__" := AStr ""]} = true
     ∧ validateFormAnswers (λ _, true) [field] {["__proto__" := AStr ""]}
       = {| isValid := true; errors := ∅ |}).
Proof. repeat split; try done. Qed.

End FormEngineFacts.

(* ===================================================================== *)
(** * Properties of the booking form *)
(* ===================================================================== *)

Module BookingFormFacts.
Import Model BookingForm.

Lemma fallback_lookup (alternatives : list Slot) k :
  toFallbackSuggestions alternatives !! k
  = (λ alternative,
       {| sg_slot := alternative;
          confidenceScore := Z.max 40 (75 - Z.of_nat k * 10);
          explanation := "Available alternative slot" |}) <$> alternatives !! k.
Proof. unfold toFallbackSuggestions. by rewrite list_lookup_imap. Qed.

Lemma fallback_slots (alternatives : list Slot) :
  sg_slot <$> toFallbackSuggestions alternatives = alternatives.
Proof.
  apply list_eq. intros k. rewrite list_lookup_fmap, fallback_lookup.
  by destruct (alternatives !! k).
Qed.

(** C7.  The synthesized suggestions are the inline alternatives in their
    order, the k-th (from 0) with confidence [max(40, 75 - 10k)], so 75,
    65, 55 for [A; B; C]; and they are what the form shows for a conflict
    error when the suggestion service is absent, rejects, or resolves to an
    empty list. *)
Theorem fallback_suggestions_ranked (alternatives : list Slot) :
  sg_slot <$> toFallbackSuggestions alternatives = alternatives
  ∧ (∀ k suggestion, toFallbackSuggestions alternatives !! k = Some suggestion →
       confidenceScore suggestion = Z.max 40 (75 - 10 * Z.of_nat k)
       ∧ alternatives !! k = Some (sg_slot suggestion))
  ∧ (∀ a b c, alternatives = [a; b; c] →
       confidenceScore <$> toFallbackSuggestions alternatives = [75; 65; 55]
       ∧ sg_slot <$> toFallbackSuggestions alternatives = [a; b; c])
  ∧ (∀ props service active shown,
       resolvedAlternatives props = alternatives →
       shouldLoadSuggestions props = true → synthesized service active →
       conflictSuggestions (conflictEffect props service active shown)
       = toFallbackSuggestions alternatives
       ∧ bestSuggestion (conflictEffect props service active shown)
         = head (toFallbackSuggestions alternatives)).
Proof.
  split; [apply fallback_slots|]. split; [|split].
  - intros k suggestion Hk. rewrite fallback_lookup in Hk.
    destruct (alternatives !! k) as [alternative|]; [|done].
    injection Hk as <-. simpl. split; [f_equal; lia|done].
  - by intros a b c ->.
  - intros props service active shown <- Hload Hsyn.
    unfold conflictEffect. rewrite Hload. simpl.
    destruct Hsyn as [->|[-> [->|[->| ->]]]]; by split.
Qed.

Lemma fallback_suggestions_ranked_witness :
  let alternatives := [slotAt "10:00" "10:30"; slotAt "11:00" "11:30"; slotAt "12:00" "12:30"] in
  confidenceScore
    <$> conflictSuggestions
          (conflictEffect (conflictProps alternatives) ServiceRejects true
             (conflict (janeForm "")))
  = [75; 65; 55].
Proof.
  intros alternatives.
  destruct (fallback_suggestions_ranked alternatives) as (_ & _ & Hthree & Hshown).
  destruct (Hshown (conflictProps alternatives) ServiceRejects true (conflict (janeForm "")))
    as [-> _]; [reflexivity|by vm_compute|right; split; [done|by left]|].
  by destruct (Hthree _ _ _ eq_refl).
Defined.

(** C10.  With the honeypot filled in, [handleSubmit] changes no state cell
    and does nothing beyond [event.preventDefault()]: no error is set, the
    brief is not shown, no payment is started and no booking is
    submitted. *)
Theorem honeypot_submit_is_silent (props : Props) (env : Env) (st : FormState) :
  honeypot (draft st) ≠ ""%string →
  (handleSubmit props env st).1 = st
  ∧ (handleSubmit props env st).2 = [PreventDefault]
  ∧ (∀ effect, effect ∈ (handleSubmit props env st).2 → effect = PreventDefault).
Proof.
  intros Htrap. unfold handleSubmit, truthy.
  destruct (decide (honeypot (draft st) = ""%string)); [done|]. simpl.
  repeat split. intros effect Hin. by apply list_elem_of_singleton in Hin.
Qed.

Lemma honeypot_submit_is_silent_witness :
  handleSubmit (conflictProps []) quietEnv (janeForm "http://spam.example")
  = (janeForm "http://spam.example", [PreventDefault])
  ∧ ∃ guestData,
      (handleSubmit (conflictProps []) quietEnv (janeForm "")).2
      = [PreventDefault; SubmitBooking guestData].
Proof.
  split.
  - destruct (honeypot_submit_is_silent (conflictProps []) quietEnv
                (janeForm "http://spam.example")) as (Hst & Heff & _); [done|].
    by apply injective_projections.
  - eexists. by vm_compute.
Defined.

End BookingFormFacts.

(* ===================================================================== *)
(** * Properties of the orchestrator *)
(* ===================================================================== *)

Module OrchestratorFacts.
Import Model Orchestrator.
Import ApiClient(ApiError, e_message, e_status, e_code, e_retryAfter,
                 e_alternatives, e_suggestions).

Lemma truthy_spec (s : string) : truthy s = true ↔ s ≠ ""%string.
Proof. unfold truthy. destruct (decide (s = ""%string)); naive_solver. Qed.

Lemma truthy_false (s : string) : truthy s = false ↔ s = ""%string.
Proof. unfold truthy. destruct (decide (s = ""%string)); naive_solver. Qed.

(** *** Submission metadata *)

Lemma setOrUndefined_ne key value (obj : Payload) key' :
  key ≠ key' → setOrUndefined key value obj !! key' = obj !! key'.
Proof.
  intros Hne. unfold setOrUndefined.
  destruct (truthy value); [by rewrite lookup_insert_ne|by rewrite lookup_delete_ne].
Qed.

(** The metadata only ever carries the five submission properties. *)
Lemma meta_keys cfg env guestData slot et w key :
  key ∉ metaKeys → (resolveSubmissionMeta cfg env guestData slot et w).1 !! key = None.
Proof.
  intros Hkey. unfold metaKeys in Hkey.
  repeat (apply not_elem_of_cons in Hkey as [? Hkey]).
  unfold resolveSubmissionMeta.
  destruct (negb (truthy (et_id et)) || _ || _); [done|].
  destruct (Identity.getOrCreateClientRequestId _ _ _ _ _) as [clientRequestId ls].
  set (fallbackMeta := <["client_request_id" := _]> _).
  assert (Hfb : fallbackMeta !! key = None).
  { unfold fallbackMeta. by rewrite !lookup_insert_ne, lookup_empty. }
  assert (Hmerged : ∀ reply,
    match reply with
    | Ok tokenMeta =>
        mergeSubmissionMeta cfg (sourceDetails env) clientRequestId fallbackMeta tokenMeta
    | Failed _ => fallbackMeta
    end !! key = None).
  { intros [[|signed|source source_client signed tok details]|error]; simpl; try done.
    - destruct (truthy signed); [by rewrite lookup_insert_ne|done].
    - rewrite setOrUndefined_ne by done. by rewrite !lookup_insert_ne. }
  destruct (hasTokenProvider cfg); [apply Hmerged|].
  destruct (negb (truthy (embedKey cfg)) || _); [done|apply Hmerged].
Qed.

(** Resolving the metadata touches the request-id store and, at most, asks
    for a signed widget token. *)
Lemma meta_world cfg env guestData slot et w :
  let w1 := (resolveSubmissionMeta cfg env guestData slot et w).2 in
  pendingItem w1 = pendingItem w ∧ location w1 = location w
  ∧ ∃ tokenCalls, calls w1 = calls w ++ tokenCalls
                  ∧ (tokenCalls = [] ∨ tokenCalls = [GetSignedWidgetToken]).
Proof.
  unfold resolveSubmissionMeta.
  destruct (negb (truthy (et_id et)) || _ || _).
  { simpl. repeat split. exists []. rewrite app_nil_r. by split; [|left]. }
  destruct (Identity.getOrCreateClientRequestId _ _ _ _ _) as [clientRequestId ls].
  destruct (hasTokenProvider cfg); simpl.
  { repeat split. exists []. rewrite app_nil_r. by split; [|left]. }
  destruct (negb (truthy (embedKey cfg)) || _); simpl.
  { repeat split. exists []. rewrite app_nil_r. by split; [|left]. }
  repeat split. exists [GetSignedWidgetToken]. by split; [|right].
Qed.

(** *** Booking creation *)

Lemma booking_run cfg env guestData slotOverride eventTypeOverride st w :
  accountsFor env st w
    (createBookingForContext cfg env guestData slotOverride eventTypeOverride st w).
Proof.
  unfold createBookingForContext, createBookingStart.
  assert (Hnone : accountsFor env st w (Refused, st, w)).
  { repeat split; try done. exists [], []. rewrite !app_nil_r.
    repeat split; try done; try (by left). by intros [? _]. }
  destruct (orElse slotOverride (selectedSlot st)) as [scopedSlot|];
    [|destruct (orElse eventTypeOverride (eventType st)); apply Hnone].
  destruct (orElse eventTypeOverride (eventType st)) as [scopedEventType|]; [|apply Hnone].
  destruct (negb (truthy (et_id scopedEventType))); [apply Hnone|].
  set (payload0 := spread (basePayload cfg scopedSlot scopedEventType) guestData).
  pose proof (meta_world cfg env payload0 scopedSlot scopedEventType w) as Hw.
  destruct (resolveSubmissionMeta cfg env payload0 scopedSlot scopedEventType w)
    as [submissionMeta w1].
  simpl in Hw. destruct Hw as (Hp & Hl & tokenCalls & Hc & Htok).
  assert (Hthrew : ∀ error (st0 : State),
    paypalReturnHandled st0 = paypalReturnHandled st →
    accountsFor env st w
      (let '(result, st2) :=
         createBookingSettle (Threw scopedSlot scopedEventType error) (bookingReply env) st0 in
       (result, st2, w1))).
  { intros error st0 Hst0. unfold accountsFor. simpl. split; [done|]. split; [done|]. split.
    { unfold revertPendingSlot, mutateSlotState. by destruct (truthy (start scopedSlot)). }
    exists tokenCalls, []. rewrite app_nil_r.
    repeat split; try done; try (by left). by intros [? _]. }
  assert (Hissued : ∀ payload (st0 : State),
    paypalReturnHandled st0 = paypalReturnHandled st →
    accountsFor env st w
      (let '(result, st2) :=
         createBookingSettle (Issued scopedSlot scopedEventType payload) (bookingReply env) st0 in
       (result, st2, setCalls (calls w1 ++ [CreateBooking payload]) w1))).
  { intros payload st0 Hst0. unfold accountsFor. simpl.
    destruct (bookingReply env) as [booking|requestError] eqn:Hreply; simpl.
    - split; [done|]. split; [done|]. split.
      { unfold invalidateAvailability, removeBookedSlot, mutateSlotState.
        destruct (truthy (et_id scopedEventType)), (truthy (start scopedSlot)); done. }
      exists tokenCalls, [CreateBooking payload]. rewrite Hc, <- app_assoc.
      split; [done|]. split; [done|]. split; [right; by eexists|]. split.
      + split; [|done]. intros _. split; [done|by eexists].
      + intros booking' _ [= <-].
        unfold invalidateAvailability. by destruct (truthy (et_id scopedEventType)).
    - split; [done|]. split; [done|]. split.
      { unfold revertPendingSlot, mutateSlotState. by destruct (truthy (start scopedSlot)). }
      exists tokenCalls, [CreateBooking payload]. rewrite Hc, <- app_assoc.
      split; [done|]. split; [done|]. split; [right; by eexists|]. split.
      + split; [done|]. by intros [_ [? ?]].
      + done. }
  assert (Hst1 : paypalReturnHandled
                   (markSlotPending scopedSlot (clearBookingError (setIsSubmitting true st)))
                 = paypalReturnHandled st).
  { unfold markSlotPending, mutateSlotState. by destruct (truthy (start scopedSlot)). }
  destruct (hookVerdict cfg (spread payload0 submissionMeta)) as [|properties| |message].
  - by apply Hthrew.
  - by apply Hissued.
  - by apply Hissued.
  - by apply Hthrew.
Qed.

(** With both overrides given and no hook in the way, the booking creation
    is issued, and its payload is the guest data laid over the base
    payload, apart from the submission metadata. *)
Lemma booking_payload cfg env guestData scopedSlot scopedEventType st w :
  hookSilent cfg → truthy (et_id scopedEventType) = true →
  ∃ tokenCalls payload,
    calls (createBookingForContext cfg env guestData (Some scopedSlot)
             (Some scopedEventType) st w).2
    = calls w ++ tokenCalls ++ [CreateBooking payload]
    ∧ (tokenCalls = [] ∨ tokenCalls = [GetSignedWidgetToken])
    ∧ (∀ key v, key ∉ metaKeys → guestData !! key = Some v → payload !! key = Some v)
    ∧ (∀ key, key ∉ metaKeys → guestData !! key = None →
         payload !! key = basePayload cfg scopedSlot scopedEventType !! key).
Proof.
  intros Hhook Hid. unfold createBookingForContext, createBookingStart. simpl.
  rewrite Hid. simpl.
  set (payload0 := spread (basePayload cfg scopedSlot scopedEventType) guestData).
  pose proof (meta_world cfg env payload0 scopedSlot scopedEventType w) as Hw.
  pose proof (meta_keys cfg env payload0 scopedSlot scopedEventType w) as Hk.
  destruct (resolveSubmissionMeta cfg env payload0 scopedSlot scopedEventType w)
    as [submissionMeta w1].
  simpl in Hw, Hk. destruct Hw as (_ & _ & tokenCalls & Hc & Htok).
  rewrite Hhook.
  destruct (createBookingSettle _ _ _) as [result st2]. simpl.
  exists tokenCalls, (spread payload0 submissionMeta).
  rewrite Hc, <- app_assoc. split; [done|]. split; [done|].
  subst payload0. unfold spread. split.
  - intros key v Hkey Hg. rewrite lookup_union_r by (by apply Hk).
    by apply lookup_union_Some_l.
  - intros key Hkey Hg. rewrite lookup_union_r by (by apply Hk).
    by rewrite lookup_union_r.
Qed.

(** *** PayPal return *)


Lemma pendingContext_Some pb order guestPayload pendingSlot pendingEventType :
  pendingContext pb = Some (order, guestPayload, pendingSlot, pendingEventType) →
  order = pb_orderId pb ∧ pb_payload pb = Some guestPayload
  ∧ pb_slot pb = Some pendingSlot ∧ pb_eventType pb = Some pendingEventType
  ∧ order ≠ ""%string ∧ start pendingSlot ≠ ""%string ∧ end_ pendingSlot ≠ ""%string
  ∧ et_id pendingEventType ≠ ""%string.
Proof.
  unfold pendingContext.
  destruct (pb_payload pb), (pb_slot pb), (pb_eventType pb); try done.
  destruct (truthy (pb_orderId pb)) eqn:H1; [|done].
  destruct (truthy (start s)) eqn:H2; [|done].
  destruct (truthy (end_ s)) eqn:H3; [|done].
  destruct (truthy (et_id e)) eqn:H4; [|done].
  simpl. intros [= <- <- <- <-]. apply truthy_spec in H1, H2, H3, H4. done.
Qed.




(** [completePayPalBooking] on a valid stored booking: the capture is
    issued; a usable capture result leads into booking creation from the
    snapshot, anything else ends there with an error. *)
Lemma complete_valid cfg env pb payer st w order guestPayload pendingSlot pendingEventType :
  pendingContext pb = Some (order, guestPayload, pendingSlot, pendingEventType) →
  let w1 := setCalls (calls w ++ [CapturePayPalOrder order payer]) w in
  (∃ captureResult,
     captureReply env = Ok captureResult ∧ usableCapture captureResult = true
     ∧ completePayPalBooking cfg env pb payer st w
       = let '(result, st1, w2) :=
           createBookingForContext cfg (bookingEnv env)
             (resumedGuestData cfg pb guestPayload (captureId captureResult))
             (Some pendingSlot) (Some pendingEventType) st w1 in
         (result, st1, if resultOk result then clearPendingPayPalBooking w2 else w2))
  ∨ (match captureReply env with
     | Ok captureResult => usableCapture captureResult = false
     | Failed _ => True
     end
     ∧ ∃ error,
         completePayPalBooking cfg env pb payer st w
         = (BookingFailed error,
            setAlternatives (e_alternatives error) (setError (Some (e_message error)) st),
            w1)).
Proof.
  intros Hvalid w1. unfold completePayPalBooking. rewrite Hvalid.
  destruct (captureReply env) as [captureResult|error] eqn:Hcapture.
  - destruct (usableCapture captureResult) eqn:Husable.
    + left. exists captureResult. split; [done|]. split; [done|]. reflexivity.
    + right. split; [done|].
      exists (normalizeBookingError
                (localError (str_or (captureError captureResult)
                                    "PayPal payment capture failed.") "")).
      reflexivity.
  - right. split; [done|]. exists (normalizeBookingError error). reflexivity.
Qed.


(** *** Going back *)

(** C6, as the code has it.  From CONFIRM, [goBack] always returns to
    SELECT_TIME, whatever the number of event types on offer and the
    selection mode, clearing the error state and nothing else; the
    single-event restriction sits one step earlier, on the way from
    SELECT_TIME to SELECT_EVENT, and depends on the embed's selection
    mode. *)
Theorem back_from_confirm_always_returns st :
  step st = CONFIRM →
  step (goBack st) = SELECT_TIME
  ∧ error (goBack st) = None ∧ alternatives (goBack st) = []
  ∧ eventType (goBack st) = eventType st ∧ selectedSlot (goBack st) = selectedSlot st
  ∧ slots (goBack st) = slots st
  ∧ (∀ st', step st' = SELECT_TIME →
       (selection_mode st' = "single"%string → goBack st' = st')
       ∧ (selection_mode st' ≠ "single"%string →
          step (goBack st') = SELECT_EVENT ∧ eventType (goBack st') = None)).
Proof.
  intros Hstep.
  assert (Hback : goBack st = clearBookingError (setStep SELECT_TIME st)).
  { unfold goBack. rewrite Hstep. by destruct (decide (CONFIRM = CONFIRM)). }
  rewrite Hback. do 6 (split; [reflexivity|]).
  intros st' Hstep'. unfold goBack. rewrite Hstep'.
  destruct (decide (SELECT_TIME = CONFIRM)); [done|].
  split; intros Hmode.
  - destruct (decide _) as [[_ Hne]|_]; done.
  - destruct (decide _) as [_|Hno]; [done|]. by destruct Hno.
Qed.

Lemma back_from_confirm_always_returns_witness :
  step (goBack (confirmState "single" [freeIntroCall])) = SELECT_TIME
  ∧ step (goBack (confirmState "" [freeIntroCall; paidIntroCall])) = SELECT_TIME.
Proof.
  split.
  - by destruct (back_from_confirm_always_returns
                   (confirmState "single" [freeIntroCall]) eq_refl).
  - by destruct (back_from_confirm_always_returns
                   (confirmState "" [freeIntroCall; paidIntroCall]) eq_refl).
Defined.

(** C6 as stated does not hold: in a single-event embed, one event type on
    offer, [goBack] from CONFIRM does go to SELECT_TIME. *)
Lemma back_from_confirm_counterexample :
  let st := confirmState "single" [freeIntroCall] in
  step st = CONFIRM ∧ (List.length (eventTypes st) < 2)%nat
  ∧ selection_mode st = "single"%string
  ∧ step (goBack st) = SELECT_TIME.
Proof. simpl. repeat split; lia. Qed.

(** *** The slot cache *)

Lemma prefix_own_key id rest : String.prefix (id +:+ ":") (id +:+ ":" +:+ rest) = true.
Proof.
  induction id as [|c id IH]; simpl.
  - destruct (ascii_dec ":" ":"); [|done]. by destruct rest.
  - by destruct (ascii_dec c c).
Qed.

(** Every cache key of an event type starts with its id and a colon. *)
Lemma keyOf_cacheKey id from to tz : keyOf id (cacheKey id from to tz) = true.
Proof. unfold keyOf, cacheKey. simpl. apply prefix_own_key. Qed.

Lemma invalidate_lookup id st key :
  id ≠ ""%string →
  availabilityCache (invalidateAvailability id st) !! key
  = if keyOf id key then None else availabilityCache st !! key.
Proof.
  intros Hid. unfold invalidateAvailability. apply truthy_spec in Hid. rewrite Hid.
  simpl. destruct (keyOf id key) eqn:Hk.
  - apply map_lookup_filter_None. right. intros entry _. simpl. congruence.
  - destruct (availabilityCache st !! key) as [entry|] eqn:He.
    + by apply map_lookup_filter_Some.
    + apply map_lookup_filter_None. by left.
Qed.

(** A fetch that cannot be served from the cache goes to the network. *)
Lemma load_miss cfg env force st w et :
  eventType st = Some et → et_id et ≠ ""%string →
  (force = true
   ∨ ∀ entry,
       availabilityCache st
         !! cacheKey (et_id et) (startDate env) (endDate env) (userTimezone cfg) = Some entry →
       ce_expiresAt entry ≤ nowAtCheck env) →
  let key := cacheKey (et_id et) (startDate env) (endDate env) (userTimezone cfg) in
  let fetched := loadSlots cfg env force st w in
  calls fetched.2
  = calls w ++ [GetSlots (et_id et) (startDate env) (endDate env) (userTimezone cfg)]
  ∧ eventType fetched.1 = Some et
  ∧ ∀ nextSlots, slotsReply env = Ok nextSlots →
      slots fetched.1 = nextSlots
      ∧ availabilityCache fetched.1
        = <[key := {| ce_slots := nextSlots;
                      ce_expiresAt := nowAtReply env + cacheTtlMs cfg |}]>
            (availabilityCache st).
Proof.
  intros Het Hid Hmiss key fetched. unfold fetched, loadSlots.
  apply truthy_spec in Hid. rewrite Het, Hid. simpl. fold key.
  assert (Hhit : (if force then None
                  else match availabilityCache st !! key with
                       | Some cacheEntry =>
                           if nowAtCheck env <? ce_expiresAt cacheEntry
                           then Some cacheEntry else None
                       | None => None
                       end) = None).
  { destruct force; [done|]. destruct Hmiss as [?|Hexp]; [done|].
    destruct (availabilityCache st !! key) as [entry|] eqn:Hentry; [|done].
    specialize (Hexp entry Hentry).
    destruct (nowAtCheck env <? ce_expiresAt entry) eqn:Hlt; [|done].
    apply Z.ltb_lt in Hlt. lia. }
  rewrite Hhit.
  destruct (slotsReply env) as [nextSlots|requestError]; simpl.
  - split; [done|]. split; [done|]. by intros ? [= <-].
  - split; [done|]. split; [done|]. done.
Qed.

(** A fetch that finds a live entry is served from it. *)
Lemma load_hit cfg env st w et entry :
  eventType st = Some et → et_id et ≠ ""%string →
  availabilityCache st
    !! cacheKey (et_id et) (startDate env) (endDate env) (userTimezone cfg) = Some entry →
  nowAtCheck env < ce_expiresAt entry →
  loadSlots cfg env false st w = (setSlots (ce_slots entry) st, w).
Proof.
  intros Het Hid Hentry Hlive. unfold loadSlots.
  apply truthy_spec in Hid. rewrite Het, Hid. simpl. rewrite Hentry.
  apply Z.ltb_lt in Hlive. by rewrite Hlive.
Qed.

(** A successful booking drops the cache entries of its event type and
    keeps the others. *)
Lemma booked_cache scopedSlot et booking payload st key :
  et_id et ≠ ""%string →
  let booked := (bookingSucceeded scopedSlot et booking payload st).2 in
  availabilityCache booked !! key
  = (if keyOf (et_id et) key then None else availabilityCache st !! key)
  ∧ eventType booked = orElse (eventType st) (Some et).
Proof.
  intros Hid. unfold bookingSucceeded. simpl.
  change (availabilityCache (setIsSubmitting false ?s)) with (availabilityCache s).
  rewrite invalidate_lookup by done.
  split.
  - destruct (keyOf (et_id et) key); [done|].
    unfold removeBookedSlot, mutateSlotState. by destruct (truthy (start scopedSlot)).
  - unfold invalidateAvailability. apply truthy_spec in Hid. by rewrite Hid.
Qed.

(** C4, as the code has it.  After a slot fetch that went to the network
    and succeeded: a second, unforced fetch for the same window and
    timezone before the entry's expiry is served from the cache, with no
    call; a fetch after the expiry, or a forced one, issues a second call;
    and a successful booking creation for the event type deletes every
    entry whose key starts with the event type's id followed by [":"] (in
    particular every entry of that event type) and no other, so that the
    next fetch for the event type issues a call whatever the clock says. *)
Theorem slot_cache_contract cfg env force st w et nextSlots :
  eventType st = Some et → et_id et ≠ ""%string →
  slotsReply env = Ok nextSlots →
  (force = true
   ∨ ∀ entry,
       availabilityCache st
         !! cacheKey (et_id et) (startDate env) (endDate env) (userTimezone cfg) = Some entry →
       ce_expiresAt entry ≤ nowAtCheck env) →
  let first := loadSlots cfg env force st w in
  let expiry := nowAtReply env + cacheTtlMs cfg in
  let request (e : SlotsEnv) :=
    GetSlots (et_id et) (startDate e) (endDate e) (userTimezone cfg) in
  calls first.2 = calls w ++ [request env]
  ∧ (∀ env2, startDate env2 = startDate env → endDate env2 = endDate env →
       nowAtCheck env2 < expiry →
       loadSlots cfg env2 false first.1 first.2 = (setSlots nextSlots first.1, first.2))
  ∧ (∀ env2 force2, startDate env2 = startDate env → endDate env2 = endDate env →
       force2 = true ∨ expiry ≤ nowAtCheck env2 →
       calls (loadSlots cfg env2 force2 first.1 first.2).2 = calls first.2 ++ [request env2])
  ∧ (∀ scopedSlot payload booking,
       let booked :=
         (createBookingSettle (Issued scopedSlot et payload) (Ok booking) first.1).2 in
       (∀ key, availabilityCache booked !! key
               = if keyOf (et_id et) key then None else availabilityCache first.1 !! key)
       ∧ (∀ from to tz, availabilityCache booked !! cacheKey (et_id et) from to tz = None)
       ∧ (∀ env3 force3,
            calls (loadSlots cfg env3 force3 booked first.2).2
            = calls first.2 ++ [request env3])).
Proof.
  intros Het Hid Hreply Hmiss first expiry request.
  destruct (load_miss cfg env force st w et Het Hid Hmiss) as (Hcalls & Het1 & Hstored).
  destruct (Hstored nextSlots Hreply) as (Hslots & Hcache).
  fold first in Hcalls, Het1, Hslots, Hcache.
  set (key := cacheKey (et_id et) (startDate env) (endDate env) (userTimezone cfg)) in *.
  split; [exact Hcalls|]. split; [|split].
  - intros env2 Hfrom Hto Hlive.
    rewrite (load_hit cfg env2 first.1 first.2 et
               {| ce_slots := nextSlots; ce_expiresAt := expiry |}); try done.
    rewrite Hfrom, Hto. fold key. rewrite Hcache. apply lookup_insert_eq.
  - intros env2 force2 Hfrom Hto Hstale.
    destruct (load_miss cfg env2 force2 first.1 first.2 et Het1 Hid) as (Hcalls2 & _).
    + destruct Hstale as [?|Hexpired]; [by left|right].
      rewrite Hfrom, Hto. fold key. rewrite Hcache, lookup_insert_eq.
      intros entry [= <-]. exact Hexpired.
    + exact Hcalls2.
  - intros scopedSlot payload booking booked.
    assert (Hbooked : ∀ k, availabilityCache booked !! k
                           = (if keyOf (et_id et) k then None
                              else availabilityCache first.1 !! k)
                           ∧ eventType booked = orElse (eventType first.1) (Some et)).
    { intros k. apply (booked_cache scopedSlot et booking payload first.1 k Hid). }
    assert (Hgone : ∀ from to tz,
              availabilityCache booked !! cacheKey (et_id et) from to tz = None).
    { intros from to tz. destruct (Hbooked (cacheKey (et_id et) from to tz)) as [-> _].
      by rewrite keyOf_cacheKey. }
    split; [intros k; apply Hbooked|]. split; [exact Hgone|].
    intros env3 force3.
    assert (Het3 : eventType booked = Some et).
    { destruct (Hbooked ""%string) as [_ ->]. by rewrite Het1. }
    destruct (load_miss cfg env3 force3 booked first.2 et Het3 Hid) as (Hcalls3 & _);
      [|exact Hcalls3].
    right. intros entry. by rewrite Hgone.
Qed.

Lemma slot_cache_contract_witness :
  let cfg := testConfig (Some paidIntroCall) in
  let first := loadSlots cfg coldFetch false (initialState cfg) (returnPage "" "" false) in
  calls first.2 = [GetSlots "evt_1" "2026-05-10" "2026-05-24" "UTC"]
  ∧ calls (loadSlots cfg coldFetch false first.1 first.2).2 = calls first.2.
Proof.
  intros cfg first.
  destruct (slot_cache_contract cfg coldFetch false (initialState cfg)
              (returnPage "" "" false) paidIntroCall {["2026-05-10" := [janeSlot]]})
    as (Hcalls & Hcached & _); [reflexivity|done|reflexivity|by right|].
  split; [exact Hcalls|].
  fold first in Hcached. by rewrite (Hcached coldFetch eq_refl eq_refl ltac:(by vm_compute)).
Defined.

(** C4 as stated does not hold for every key that begins with the event
    type's id: after a booking for ["evt_1"], the entry of ["evt_10"], whose
    key begins with ["evt_1"], is still cached. *)
Lemma slot_cache_prefix_counterexample :
  let booked :=
    (createBookingSettle (Issued janeSlot paidIntroCall ∅) (Ok None) cachedState).2 in
  String.prefix (et_id paidIntroCall) "evt_10:2026-05-10:2026-05-24:UTC" = true
  ∧ availabilityCache booked !! "evt_10:2026-05-10:2026-05-24:UTC"
    = Some {| ce_slots := ∅; ce_expiresAt := 30000 |}
  ∧ availabilityCache booked !! "evt_1:2026-05-10:2026-05-24:UTC" = None.
Proof. by vm_compute. Qed.

(** *** Submissions in flight *)

(** [handleSubmit] hands at most one payload to [submitBooking]. *)
Lemma handleSubmit_submits_once props formEnv form :
  let effects := (BookingForm.handleSubmit props formEnv form).2 in
  (∃ guestData, effects = [BookingForm.PreventDefault; BookingForm.SubmitBooking guestData])
  ∨ (∀ effect, effect ∈ effects →
       match effect with BookingForm.SubmitBooking _ => False | _ => True end).
Proof.
  unfold BookingForm.handleSubmit.
  assert (Hquiet : ∀ effect, effect ∈ [BookingForm.PreventDefault] →
            match effect with BookingForm.SubmitBooking _ => False | _ => True end).
  { intros effect Hin. by apply list_elem_of_singleton in Hin as ->. }
  destruct (truthy (BookingForm.honeypot (BookingForm.draft form))); [by right|].
  cbv zeta.
  destruct (negb (bool_decide _)); [by right|].
  destruct (BookingForm.hasBrief props && _); [by right|].
  unfold BookingForm.submitOrStartPayment.
  destruct (negb (BookingForm.isPaidEvent props) || _ || _).
  { left. unfold BookingForm.submitPayload.
    destruct (BookingForm.submitResult formEnv _) as [|message];
      [|destruct (truthy message)]; by eexists. }
  right.
  destruct (BookingForm.selectedProvider _).
  - destruct (BookingForm.paymentIntent formEnv) as [clientSecret|message]; simpl.
    + destruct (negb (truthy clientSecret)); simpl;
        intros effect Hin; repeat (apply elem_of_cons in Hin as [->|Hin]); try done;
        by apply not_elem_of_nil in Hin.
    + intros effect Hin; repeat (apply elem_of_cons in Hin as [->|Hin]); try done;
        by apply not_elem_of_nil in Hin.
  - destruct (BookingForm.paypalOrder formEnv) as [[approveUrl order]|message]; simpl.
    + destruct (negb (truthy approveUrl) || negb (truthy order)); simpl;
        intros effect Hin; repeat (apply elem_of_cons in Hin as [->|Hin]); try done;
        by apply not_elem_of_nil in Hin.
    + intros effect Hin; repeat (apply elem_of_cons in Hin as [->|Hin]); try done;
        by apply not_elem_of_nil in Hin.
Qed.

Lemma bookingCalls_token w tokenCalls (w1 : World) :
  calls w1 = calls w ++ tokenCalls →
  tokenCalls = [] ∨ tokenCalls = [GetSignedWidgetToken] →
  bookingCalls w1 = bookingCalls w.
Proof.
  intros Hc Htok. unfold bookingCalls. rewrite Hc, List.filter_app.
  destruct Htok as [-> | ->]; simpl; by rewrite app_nil_r.
Qed.

(** An invocation of [submitBooking] issues no booking creation, or issues
    exactly one, which is then in flight with [isSubmitting] raised. *)
Lemma invoke_issues_at_most_one cfg env guestData sys :
  let sys1 := invokeSubmitBooking cfg env guestData sys in
  (bookingCalls (world sys1) = bookingCalls (world sys) ∧ inFlight sys1 = inFlight sys)
  ∨ (∃ payload started,
       bookingCalls (world sys1) = bookingCalls (world sys) ++ [CreateBooking payload]
       ∧ inFlight sys1 = inFlight sys ++ [started]
       ∧ isSubmitting (orch sys1) = true).
Proof.
  unfold invokeSubmitBooking, createBookingStart. simpl.
  destruct (selectedSlot (orch sys)) as [scopedSlot|];
    [|destruct (eventType (orch sys)); by left].
  destruct (eventType (orch sys)) as [scopedEventType|]; [|by left].
  destruct (negb (truthy (et_id scopedEventType))); [by left|].
  set (payload0 := spread (basePayload cfg scopedSlot scopedEventType) guestData).
  pose proof (meta_world cfg env payload0 scopedSlot scopedEventType (world sys)) as Hw.
  destruct (resolveSubmissionMeta cfg env payload0 scopedSlot scopedEventType (world sys))
    as [submissionMeta w1].
  simpl in Hw. destruct Hw as (_ & _ & tokenCalls & Hc & Htok).
  pose proof (bookingCalls_token _ _ _ Hc Htok) as Hsame.
  assert (Hissued : ∀ payload st1,
    isSubmitting st1 = true →
    ∃ payload' started,
      bookingCalls (setCalls (calls w1 ++ [CreateBooking payload]) w1)
      = bookingCalls (world sys) ++ [CreateBooking payload']
      ∧ inFlight sys ++ [Issued scopedSlot scopedEventType payload] = inFlight sys ++ [started]
      ∧ isSubmitting st1 = true).
  { intros payload st1 Hst1. exists payload, (Issued scopedSlot scopedEventType payload).
    split; [|done]. unfold bookingCalls in *. simpl.
    by rewrite List.filter_app, Hsame. }
  assert (Hflag : isSubmitting
                    (markSlotPending scopedSlot
                       (clearBookingError (setIsSubmitting true (orch sys)))) = true).
  { unfold markSlotPending, mutateSlotState. by destruct (truthy (start scopedSlot)). }
  destruct (hookVerdict cfg (spread payload0 submissionMeta)); simpl.
  - by left.
  - right. by apply Hissued.
  - right. by apply Hissued.
  - by left.
Qed.

(** C2, as the code has it.  While [isSubmitting] is raised the submit
    button of the rendered form is disabled and a click on it changes
    nothing; and a click, whenever it happens, issues no booking creation
    or exactly one, raising [isSubmitting] with it.  So clicks in rapid
    succession issue one booking creation.  The orchestrator's
    [submitBooking] itself does not look at [isSubmitting]. *)
Theorem submit_button_gates_resubmission cfg env formEnv form sys :
  isSubmitting (orch sys) = true →
  clickSubmit cfg env formEnv form sys = sys
  ∧ (∀ form0 sys0,
       let sys1 := clickSubmit cfg env formEnv form0 sys0 in
       (bookingCalls (world sys1) = bookingCalls (world sys0)
        ∧ inFlight sys1 = inFlight sys0)
       ∨ (∃ payload started,
            bookingCalls (world sys1) = bookingCalls (world sys0) ++ [CreateBooking payload]
            ∧ inFlight sys1 = inFlight sys0 ++ [started]
            ∧ isSubmitting (orch sys1) = true
            ∧ ∀ form1, clickSubmit cfg env formEnv form1 sys1 = sys1)).
Proof.
  assert (Hgate : ∀ form' sys', isSubmitting (orch sys') = true →
            clickSubmit cfg env formEnv form' sys' = sys').
  { intros form' sys' Hflag. unfold clickSubmit, BookingForm.submitDisabled. simpl.
    rewrite Hflag. by rewrite orb_true_r. }
  intros Hflag. split; [by apply Hgate|].
  intros form0 sys0 sys1. unfold sys1, clickSubmit.
  destruct (BookingForm.submitDisabled _ form0); [by left|].
  destruct (handleSubmit_submits_once (formProps cfg (orch sys0)) formEnv form0)
    as [[guestData ->]|Hnone].
  - simpl.
    destruct (invoke_issues_at_most_one cfg env guestData sys0)
      as [?|(payload & started & Hcalls & Hflight & Hraised)]; [by left|].
    right. exists payload, started. repeat split; try done.
    intros form1. by apply Hgate.
  - left.
    induction (BookingForm.handleSubmit (formProps cfg (orch sys0)) formEnv form0).2
      as [|effect effects IH]; [done|].
    simpl. pose proof (Hnone effect ltac:(by left)) as Heff.
    destruct effect; try done; apply IH; intros e He; apply Hnone; by right.
Qed.

Lemma submit_button_gates_resubmission_witness :
  let cfg := testConfig None in
  let env := bookingEnvOf (Ok None) in
  let sys1 := clickSubmit cfg env BookingForm.quietEnv (BookingForm.janeForm "") idleSystem in
  isSubmitting (orch sys1) = true
  ∧ clickSubmit cfg env BookingForm.quietEnv (BookingForm.janeForm "") sys1 = sys1
  ∧ List.length (bookingCalls (world sys1)) = 1%nat.
Proof.
  intros cfg env sys1.
  assert (Hflag : isSubmitting (orch sys1) = true) by by vm_compute.
  split; [exact Hflag|]. split; [|by vm_compute].
  by destruct (submit_button_gates_resubmission cfg env BookingForm.quietEnv
                 (BookingForm.janeForm "") sys1 Hflag).
Defined.

(** C2 as stated does not hold for the orchestrator's submit action: invoked
    a second time while the first booking creation is pending and
    [isSubmitting] is raised, it issues a second booking creation. *)
Lemma submit_action_counterexample :
  let cfg := testConfig None in
  let env := bookingEnvOf (Ok None) in
  let sys1 := invokeSubmitBooking cfg env janePayload idleSystem in
  let sys2 := invokeSubmitBooking cfg env janePayload sys1 in
  isSubmitting (orch sys1) = true ∧ List.length (inFlight sys1) = 1%nat
  ∧ List.length (bookingCalls (world sys2)) = 2%nat
  ∧ List.length (inFlight sys2) = 2%nat.
Proof. by vm_compute. Qed.

End OrchestratorFacts.

(* ===================================================================== *)
(** * Properties of the provider with the host's callbacks *)
(* ===================================================================== *)

Module HostFacts.
Import Model Orchestrator.
Import ApiClient(ApiError, e_message, e_status, e_code, e_retryAfter,
                 e_alternatives, e_suggestions).

(** *** What the callbacks can change *)

Lemma failed_frame scopedSlot requestError st :
  let st1 := (Orchestrator.bookingFailed scopedSlot requestError st).2 in
  step st1 = step st ∧ confirmedBooking st1 = confirmedBooking st
  ∧ paypalReturnHandled st1 = paypalReturnHandled st.
Proof.
  simpl. unfold revertPendingSlot, mutateSlotState.
  by destruct (truthy (start scopedSlot)).
Qed.

Lemma accepted_frame scopedSlot scopedEventType booking st :
  let st1 := Host.accepted scopedSlot scopedEventType booking st in
  step st1 = SUCCESS ∧ confirmedBooking st1 = booking
  ∧ paypalReturnHandled st1 = paypalReturnHandled st.
Proof.
  unfold Host.accepted, invalidateAvailability, removeBookedSlot, mutateSlotState.
  by destruct (truthy (et_id scopedEventType)), (truthy (start scopedSlot)).
Qed.

Lemma reported_cases host normalized scopedSlot scopedEventType :
  Host.reported host normalized scopedSlot scopedEventType = Host.Resolved (BookingFailed normalized)
  ∨ ∃ thrown,
      Host.notifyError host normalized scopedSlot scopedEventType = Some thrown
      ∧ Host.reported host normalized scopedSlot scopedEventType = Host.Rejected thrown.
Proof.
  unfold Host.reported.
  destruct (Host.notifyError host normalized scopedSlot scopedEventType) as [thrown|];
    [right; by exists thrown|by left].
Qed.

Lemma reported_returns host normalized scopedSlot scopedEventType :
  Host.errorReturns host →
  Host.reported host normalized scopedSlot scopedEventType = Host.Resolved (BookingFailed normalized).
Proof. intros Hquiet. unfold Host.reported. by rewrite Hquiet. Qed.

(** The callbacks of a settled booking creation change neither the step
    nor the confirmed booking; if [onBookingSuccess] returns, the state is
    that of [Orchestrator] and the promise is its result, unless it
    failed and [onBookingError] threw; if [onBookingError] returns, the
    promise is resolved. *)
Lemma settle_agrees host started reply st :
  let base := Orchestrator.createBookingSettle started reply st in
  let run := Host.createBookingSettle host started reply st in
  step run.2 = step base.2 ∧ confirmedBooking run.2 = confirmedBooking base.2
  ∧ paypalReturnHandled run.2 = paypalReturnHandled base.2
  ∧ (Host.successReturns host →
     run.2 = base.2
     ∧ (run.1 = Host.Resolved base.1
        ∨ (∃ thrown, run.1 = Host.Rejected thrown) ∧ resultOk base.1 = false))
  ∧ (Host.errorReturns host → ∃ result, run.1 = Host.Resolved result).
Proof.
  assert (Hfailed : ∀ scopedSlot scopedEventType requestError,
    let base := Orchestrator.bookingFailed scopedSlot requestError st in
    let run := Host.bookingFailed host scopedSlot scopedEventType requestError st in
    step run.2 = step base.2 ∧ confirmedBooking run.2 = confirmedBooking base.2
    ∧ paypalReturnHandled run.2 = paypalReturnHandled base.2
    ∧ (Host.successReturns host →
       run.2 = base.2
       ∧ (run.1 = Host.Resolved base.1
          ∨ (∃ thrown, run.1 = Host.Rejected thrown) ∧ resultOk base.1 = false))
    ∧ (Host.errorReturns host → ∃ result, run.1 = Host.Resolved result)).
  { intros scopedSlot scopedEventType requestError base run.
    do 3 (split; [done|]). split.
    - intros _. split; [done|]. unfold run, Host.bookingFailed. cbn [fst].
      destruct (reported_cases host (normalizeBookingError requestError)
                  scopedSlot scopedEventType) as [->|(thrown & _ & ->)];
        [by left|right]. split; [by exists thrown|done].
    - intros Hquiet. unfold run, Host.bookingFailed. cbn [fst].
      rewrite reported_returns by done. by eexists. }
  destruct started as [|scopedSlot scopedEventType error|scopedSlot scopedEventType payload].
  - simpl. do 3 (split; [done|]). split.
    + intros _. split; [done|by left].
    + intros _. by eexists.
  - apply Hfailed.
  - destruct reply as [booking|requestError]; [|apply Hfailed].
    cbn [Orchestrator.createBookingSettle Host.createBookingSettle].
    unfold Host.bookingSucceeded. cbv zeta.
    pose proof (accepted_frame scopedSlot scopedEventType booking st) as (Hs & Hb & Hh).
    change (Orchestrator.bookingSucceeded scopedSlot scopedEventType booking payload st)
      with (BookingOk booking payload,
            setIsSubmitting false (Host.accepted scopedSlot scopedEventType booking st)).
    destruct (Host.notifySuccess host booking payload scopedEventType) as [thrown|] eqn:Hcall.
    + pose proof (failed_frame scopedSlot thrown
                    (Host.accepted scopedSlot scopedEventType booking st)) as (Hs' & Hb' & Hh').
      cbv zeta in Hs', Hb', Hh'. unfold Host.bookingFailed. cbn [fst snd].
      rewrite Hs', Hb', Hh'. do 3 (split; [done|]). split.
      * intros Hquiet. by rewrite Hquiet in Hcall.
      * intros Hquiet. rewrite reported_returns by done. by eexists.
    + cbn [fst snd]. do 3 (split; [done|]). split.
      * intros _. split; [done|by left].
      * intros _. by eexists.
Qed.

(** [createBookingForContext]: the world is the same with or without the
    callbacks. *)
Lemma create_agrees host cfg env guestData slotOverride eventTypeOverride st w :
  let base :=
    Orchestrator.createBookingForContext cfg env guestData slotOverride
      eventTypeOverride st w in
  let run :=
    Host.createBookingForContext host cfg env guestData slotOverride
      eventTypeOverride st w in
  run.2 = base.2
  ∧ step run.1.2 = step base.1.2 ∧ confirmedBooking run.1.2 = confirmedBooking base.1.2
  ∧ paypalReturnHandled run.1.2 = paypalReturnHandled base.1.2
  ∧ (Host.successReturns host →
     run.1.2 = base.1.2
     ∧ (run.1.1 = Host.Resolved base.1.1
        ∨ (∃ thrown, run.1.1 = Host.Rejected thrown) ∧ resultOk base.1.1 = false))
  ∧ (Host.errorReturns host → ∃ result, run.1.1 = Host.Resolved result).
Proof.
  unfold Orchestrator.createBookingForContext, Host.createBookingForContext.
  destruct (createBookingStart cfg env guestData slotOverride eventTypeOverride st w)
    as [[started st1] w1].
  pose proof (settle_agrees host started (bookingReply env) st1) as Hsettle.
  cbv zeta in Hsettle.
  destruct (Orchestrator.createBookingSettle started (bookingReply env) st1)
    as [result st2].
  destruct (Host.createBookingSettle host started (bookingReply env) st1)
    as [settled st2'].
  cbn [fst snd] in *. by split.
Qed.

(** Under callbacks that return, the functions of [Host] are those of
    [Orchestrator]. *)
Lemma create_returns host cfg env guestData slotOverride eventTypeOverride st w :
  Host.successReturns host → Host.errorReturns host →
  Host.createBookingForContext host cfg env guestData slotOverride eventTypeOverride st w
  = let base :=
      Orchestrator.createBookingForContext cfg env guestData slotOverride
        eventTypeOverride st w in
    (Host.Resolved base.1.1, base.1.2, base.2).
Proof.
  intros Hsuccess Herror.
  pose proof (create_agrees host cfg env guestData slotOverride eventTypeOverride st w)
    as (Hw & _ & _ & _ & Hstate & Hresolved).
  cbv zeta in *.
  destruct (Hstate Hsuccess) as [Hst Hresult]. destruct (Hresolved Herror) as [result Hres].
  destruct (Host.createBookingForContext host cfg env guestData slotOverride
              eventTypeOverride st w) as [[settled st2] w2].
  cbn [fst snd] in *. subst.
  destruct Hresult as [Hsame|[[thrown Hthrown] _]]; [|discriminate Hthrown].
  injection Hsame as ->. done.
Qed.



Lemma host_already_handled host cfg env cancelled st w :
  paypalReturnHandled st = true → Host.paypalReturnEffect host cfg env cancelled st w = (st, w).
Proof. intros Hdone. unfold Host.paypalReturnEffect. by rewrite Hdone. Qed.

Lemma host_no_return_params host cfg env cancelled st w :
  hasReturnParams (location w) = false →
  Host.paypalReturnEffect host cfg env cancelled st w = (st, w).
Proof.
  intros Hno. unfold Host.paypalReturnEffect. rewrite Hno.
  by destruct (paypalReturnHandled st).
Qed.

(** *** PayPal return *)




End HostFacts.

(* ===================================================================== *)
(** * Further properties of the API client *)
(* ===================================================================== *)

Module TransportFacts.
Import ApiClient Transport.

Section Runs.

Variable cfg : RetryConfig.
Variable env : Env.

Lemma sleeps_step a ms tr : sleeps (EvFetch a :: EvSleep ms :: tr) = ms :: sleeps tr.
Proof. reflexivity. Qed.

(** A run that starts within the budget fetches at least once, and waits
    between two fetches only. *)
Lemma loop_shape fuel : ∀ attempt lastError r tr,
  requestLoop cfg env fuel attempt lastError = Some (r, tr) →
  (attempt ≤ maxRetries cfg)%nat →
  ∃ n, fetches tr = seq attempt (S n) ∧ (attempt + n ≤ maxRetries cfg)%nat
       ∧ List.length (sleeps tr) = n.
Proof.
  induction fuel as [|fuel IH]; intros attempt lastError r tr Hrun Hle; [done|].
  destruct (ApiClientFacts.loop_unfold _ _ _ _ _ _ _ Hrun Hle)
    as [[-> _]|(ms & last' & tr' & -> & Hrest & Hlt & _)].
  - exists 0%nat. split; [done|]. split; [lia|done].
  - destruct (IH _ _ _ _ Hrest) as (n & Hn & Hbound & Hs); [lia|].
    exists (S n). rewrite ApiClientFacts.fetches_step, sleeps_step, Hn. simpl.
    split; [done|]. split; [lia|by rewrite Hs].
Qed.

(** The run ends at its last fetch. *)
Lemma loop_last fuel attempt lastError r tr :
  requestLoop cfg env fuel attempt lastError = Some (r, tr) →
  (attempt ≤ maxRetries cfg)%nat →
  ∃ k, last (fetches tr) = Some k ∧ (k ≤ maxRetries cfg)%nat ∧ stopsWith cfg env k r.
Proof.
  intros Hrun Hle.
  destruct (loop_shape _ _ _ _ _ Hrun Hle) as (n & Hn & Hbound & _).
  exists (attempt + n)%nat.
  assert (Hlast : last (fetches tr) = Some (attempt + n)%nat).
  { rewrite Hn, seq_S, last_snoc. done. }
  split; [done|]. split; [done|].
  assert (Hin : (attempt + n)%nat ∈ fetches tr).
  { rewrite Hn. apply elem_of_seq. lia. }
  destruct (ApiClientFacts.loop_after _ _ _ _ _ _ _ _ Hrun Hin)
    as [(_ & _ & Hs)|(ms & _ & Hnext & _)]; [done|].
  rewrite Hn in Hnext. apply elem_of_seq in Hnext. lia.
Qed.

Lemma ceiling_nonneg a : (0 <= backoffCeiling a)%Q.
Proof.
  unfold backoffCeiling. change 0%Q with (inject_Z 0). rewrite <- Zle_Qle.
  assert (0 ≤ 1000 * 2 ^ Z.of_nat a) by (apply Z.mul_nonneg_nonneg; [lia|apply Z.pow_nonneg; lia]).
  lia.
Qed.

Lemma budget_nonneg count : ∀ a, (0 <= waitBudget a count)%Q.
Proof.
  induction count as [|count IH]; intros a; simpl; [lra|].
  pose proof (ceiling_nonneg a). pose proof (IH (S a)). lra.
Qed.

Lemma backoff_below_ceiling a rnd :
  (0 <= rnd)%Q → (rnd < 1)%Q → (calculateBackoff a rnd <= backoffCeiling a)%Q.
Proof.
  intros H0 H1. destruct (ApiClientFacts.backoff_bounds a rnd H0 H1) as (_ & Hlt & _).
  unfold backoffCeiling. rewrite inject_Z_plus. change (inject_Z 350) with 350%Q. lra.
Qed.

Lemma totalSleep_step a ms tr :
  totalSleep (EvFetch a :: EvSleep ms :: tr) = (ms + totalSleep tr)%Q.
Proof. reflexivity. Qed.

(** Without [Retry-After] values every wait is a backoff wait. *)
Lemma wait_is_backoff attempt ms :
  noRetryAfter env → waitsFor cfg env attempt ms →
  ms = calculateBackoff attempt (random env attempt).
Proof.
  intros Hno Hwait. unfold waitsFor in Hwait.
  destruct (respond env attempt) as [message|status header data] eqn:Hresp; [done|].
  destruct Hwait as (_ & _ & ->).
  destruct ((status =? 429) && retryOn429 cfg) eqn:H429; [|done].
  apply andb_prop in H429 as [Hs _]. apply Z.eqb_eq in Hs. subst status.
  unfold waitFor429. by rewrite (Hno _ _ _ Hresp).
Qed.

Lemma loop_wait_bound fuel : ∀ attempt lastError r tr,
  unitRandom env → noRetryAfter env →
  requestLoop cfg env fuel attempt lastError = Some (r, tr) →
  (attempt ≤ maxRetries cfg)%nat →
  (totalSleep tr <= waitBudget attempt (maxRetries cfg - attempt))%Q.
Proof.
  induction fuel as [|fuel IH]; intros attempt lastError r tr Hrnd Hno Hrun Hle; [done|].
  destruct (ApiClientFacts.loop_unfold _ _ _ _ _ _ _ Hrun Hle)
    as [[-> _]|(ms & last' & tr' & -> & Hrest & Hlt & Hwait)].
  - apply budget_nonneg.
  - rewrite totalSleep_step.
    replace (maxRetries cfg - attempt)%nat with (S (maxRetries cfg - S attempt)) by lia.
    simpl. pose proof (IH _ _ _ _ Hrnd Hno Hrest ltac:(lia)) as Hrec.
    rewrite (wait_is_backoff _ _ Hno Hwait).
    destruct (Hrnd attempt) as [H0 H1].
    pose proof (backoff_below_ceiling attempt _ H0 H1). lra.
Qed.

End Runs.

(** X1.  Whatever the retry configuration, a request comes to an end.
    Offline it throws the OFFLINE error without fetching.  Online it
    fetches at least once and at most [maxRetries + 1] times, the attempts
    being numbered from 0 without a gap, and it waits between two fetches
    only: one wait less than fetches, none after the last. *)
Theorem request_ends_within_retry_budget (cfg : RetryConfig) (env : Env) :
  ∃ r tr,
    requestWith cfg env = Some (r, tr)
    ∧ (onLine env = false → r = Thrown offlineError ∧ tr = [])
    ∧ (onLine env = true →
       ∃ n, fetches tr = seq 0 (S n) ∧ (n ≤ maxRetries cfg)%nat
            ∧ List.length (sleeps tr) = n).
Proof.
  unfold requestWith. destruct (onLine env).
  - destruct (ApiClientFacts.loop_total cfg env (S (S (maxRetries cfg))) 0 None)
      as (r & tr & Hrun); [lia..|].
    exists r, tr. split; [done|]. split; [done|]. intros _.
    destruct (loop_shape cfg env _ _ _ _ _ Hrun) as (n & Hn & Hb & Hs); [lia|].
    exists n. split; [done|]. split; [lia|done].
  - eexists _, _. split; [reflexivity|]. split; [done|done].
Qed.

(** X2.  What an online request returns or throws is decided by its last
    fetch alone: the data of a 2xx answer, or the error of that very
    attempt, thrown because it is a 4xx other than 429 or because the
    retries are used up.  The generic error after the loop is never
    thrown. *)
Theorem request_settles_on_last_attempt (cfg : RetryConfig) (env : Env) r tr :
  onLine env = true → requestWith cfg env = Some (r, tr) →
  ∃ k, last (fetches tr) = Some k ∧ (k ≤ maxRetries cfg)%nat
    ∧ match respond env k with
      | FetchRejects message =>
          r = Thrown (rejectionError message) ∧ k = maxRetries cfg
      | FetchResponds status header data =>
          if responseOk status then r = Returned data
          else r = Thrown (normalizeError status header data (clock env k))
               ∧ ((400 ≤ status < 500 ∧ status ≠ 429) ∨ k = maxRetries cfg)
      end.
Proof.
  intros Hon Hrun. unfold requestWith in Hrun. rewrite Hon in Hrun.
  destruct (loop_last cfg env _ _ _ _ _ Hrun) as (k & Hlast & Hk & Hstop); [lia|].
  exists k. split; [done|]. split; [done|].
  unfold stopsWith in Hstop.
  destruct (respond env k) as [message|status header data].
  - destruct Hstop as [-> Hno]. split; [done|lia].
  - destruct (responseOk status); [done|].
    destruct Hstop as [-> [Hce|Hno]]; (split; [done|]).
    + left. rewrite ApiClientFacts.isClientError_normalize in Hce.
      apply andb_prop in Hce as [Hce Hne]. apply andb_prop in Hce as [Hlo Hhi].
      apply Z.leb_le in Hlo. apply Z.ltb_lt in Hhi.
      apply negb_true_iff, Z.eqb_neq in Hne. lia.
    + right. lia.
Qed.

Lemma request_settles_on_last_attempt_witness :
  ∃ r tr k,
    request (alwaysStatus 503) = Some (r, tr) ∧ last (fetches tr) = Some k
    ∧ k = 2%nat ∧ ∃ error, r = Thrown error.
Proof.
  destruct (request (alwaysStatus 503)) as [[r tr]|] eqn:Hrun; [|by vm_compute in Hrun].
  destruct (request_settles_on_last_attempt defaultRetryConfig (alwaysStatus 503) r tr
              eq_refl Hrun) as (k & Hlast & Hk & Hend).
  exists r, tr, k. split; [done|]. split; [done|].
  simpl in Hend. destruct Hend as [-> [Hrange|Hk2]]; [lia|].
  split; [done|by eexists].
Defined.

(** X3.  Switching [retryOn429] off does not stop the retries of a 429: as
    long as a retry is left the answer is retried like a server failure,
    after the exponential backoff wait, and whatever [Retry-After] the
    answer carried is ignored. *)
Theorem throttling_retried_with_backoff_when_off (cfg : RetryConfig) (env : Env)
    r tr k header data :
  retryOn429 cfg = false → onLine env = true →
  requestWith cfg env = Some (r, tr) →
  k ∈ fetches tr → respond env k = FetchResponds 429 header data →
  (k < maxRetries cfg)%nat →
  S k ∈ fetches tr ∧ waitAfter k tr = Some (calculateBackoff k (random env k)).
Proof.
  intros Hoff Hon Hrun Hk Hresp Hlt. unfold requestWith in Hrun. rewrite Hon in Hrun.
  destruct (ApiClientFacts.loop_after _ _ _ _ _ _ _ _ Hrun Hk)
    as [(_ & _ & Hs)|(ms & Hw & Hn & _ & Hs)].
  - unfold stopsWith in Hs. rewrite Hresp in Hs. simpl in Hs.
    destruct Hs as [_ [Hce|Hno]]; [done|lia].
  - split; [done|]. unfold waitsFor in Hs. rewrite Hresp, Hoff in Hs.
    destruct Hs as (_ & _ & ->). done.
Qed.

Lemma throttling_retried_with_backoff_when_off_witness :
  ∃ r tr,
    requestWith {| maxRetries := 1; retryOn429 := false |} (throttled 30) = Some (r, tr)
    ∧ fetches tr = [0; 1]%nat
    ∧ waitAfter 0 tr = Some (calculateBackoff 0 0).
Proof.
  destruct (requestWith {| maxRetries := 1; retryOn429 := false |} (throttled 30))
    as [[r tr]|] eqn:Hrun; [|by vm_compute in Hrun].
  assert (Hf : fetches tr = [0; 1]%nat).
  { vm_compute in Hrun. injection Hrun as <- <-. reflexivity. }
  destruct (throttling_retried_with_backoff_when_off
              {| maxRetries := 1; retryOn429 := false |} (throttled 30) r tr 0%nat
              (Some {| asSeconds := Some 30; asDate := None |}) emptyBody
              eq_refl eq_refl Hrun) as [_ Hw].
  - rewrite Hf. by left.
  - reflexivity.
  - simpl. lia.
  - exists r, tr. by repeat split.
Defined.

(** X4.  When the server names no retry delay, the time a request spends
    waiting is at most the sum of the backoff ceilings of the attempts it
    may retry; with the default configuration that is 3.7 seconds. *)
Theorem request_wait_bounded (cfg : RetryConfig) (env : Env) r tr :
  unitRandom env → noRetryAfter env →
  requestWith cfg env = Some (r, tr) →
  (totalSleep tr <= waitBudget 0 (maxRetries cfg))%Q
  ∧ (maxRetries cfg = 2%nat → (totalSleep tr <= 3700)%Q).
Proof.
  intros Hrnd Hno Hrun.
  assert (Hbound : (totalSleep tr <= waitBudget 0 (maxRetries cfg))%Q).
  { unfold requestWith in Hrun. destruct (onLine env).
    - pose proof (loop_wait_bound cfg env _ _ _ _ _ Hrnd Hno Hrun ltac:(lia)) as H.
      by rewrite Nat.sub_0_r in H.
    - injection Hrun as <- <-. apply budget_nonneg. }
  split; [exact Hbound|].
  intros Hmax. rewrite Hmax in Hbound.
  assert (Hsum : (waitBudget 0 2 == 3700)%Q) by reflexivity.
  by rewrite Hsum in Hbound.
Qed.

Lemma request_wait_bounded_witness :
  ∃ r tr, request (alwaysStatus 503) = Some (r, tr) ∧ (totalSleep tr <= 3700)%Q.
Proof.
  destruct (request (alwaysStatus 503)) as [[r tr]|] eqn:Hrun; [|by vm_compute in Hrun].
  exists r, tr. split; [done|].
  apply (request_wait_bounded defaultRetryConfig (alwaysStatus 503) r tr); [| |done|done].
  - intros attempt. simpl. split; [apply Qle_refl|reflexivity].
  - intros attempt header data. simpl. intros [=].
Defined.

(** X5.  A retry delay read from a [Retry-After] header is at least one
    second.  It is the number of seconds when the header parses as a
    positive integer; otherwise, for a header that parses as a date in the
    future, the time left until then rounded up to whole seconds; and
    there is none in every other case. *)
Theorem retry_after_header_is_positive (value : option HeaderValue) (now seconds : Z) :
  parseRetryAfterHeader value now = Some seconds ↔
  ∃ v, value = Some v
    ∧ ((asSeconds v = Some seconds ∧ 0 < seconds)
       ∨ (¬ (∃ n, asSeconds v = Some n ∧ 0 < n)
          ∧ ∃ t, asDate v = Some t ∧ now < t ∧ 1 ≤ seconds
                 ∧ 1000 * (seconds - 1) < t - now ≤ 1000 * seconds)).
Proof.
  assert (Hceil : ∀ t s, 0 < t - now →
    (Some ((t - now + 999) / 1000) = Some s
     ↔ now < t ∧ 1 ≤ s ∧ 1000 * (s - 1) < t - now ≤ 1000 * s)).
  { intros t s Hpos. split.
    - intros [= <-].
      pose proof (Z.div_mod (t - now + 999) 1000 ltac:(lia)) as Hdm.
      pose proof (Z.mod_pos_bound (t - now + 999) 1000 ltac:(lia)) as Hmod.
      lia.
    - intros (_ & _ & Hlo & Hhi). f_equal. symmetry.
      apply (Z.div_unique _ _ _ (t - now + 999 - 1000 * s)); lia. }
  assert (Hdate : ∀ v s,
    match asDate v with
    | Some t => if 0 <? t - now then Some ((t - now + 999) / 1000) else None
    | None => None
    end = Some s
    ↔ ∃ t, asDate v = Some t ∧ now < t ∧ 1 ≤ s ∧ 1000 * (s - 1) < t - now ≤ 1000 * s).
  { intros v s. destruct (asDate v) as [t|].
    - destruct (0 <? t - now) eqn:Hpos.
      + apply Z.ltb_lt in Hpos. rewrite (Hceil t s Hpos). split.
        * intros H. by exists t.
        * by intros (t' & [= <-] & H).
      + apply Z.ltb_ge in Hpos. split; [done|]. intros (t' & [= <-] & H). lia.
    - split; [done|]. by intros (t' & [=] & _). }
  unfold parseRetryAfterHeader. destruct value as [v|].
  2:{ split; [done|]. by intros (v & [=] & _). }
  destruct (asSeconds v) as [n|] eqn:Hsec.
  - destruct (0 <? n) eqn:Hpos.
    + apply Z.ltb_lt in Hpos. split.
      * intros [= <-]. exists v. split; [done|]. by left.
      * intros (v' & [= <-] & [[Hs Hp]|[Hnone _]]).
        -- rewrite Hsec in Hs. done.
        -- destruct Hnone. exists n. by rewrite Hsec.
    + apply Z.ltb_ge in Hpos. rewrite Hdate. split.
      * intros Ht. exists v. split; [done|]. right. split; [|done].
        intros (m & Hm & Hmpos). rewrite Hsec in Hm. injection Hm as <-. lia.
      * intros (v' & [= <-] & [[Hs Hp]|[_ Ht]]); [|done].
        rewrite Hsec in Hs. injection Hs as <-. lia.
  - rewrite Hdate. split.
    + intros Ht. exists v. split; [done|]. right. split; [|done].
      intros (m & Hm & _). by rewrite Hsec in Hm.
    + intros (v' & [= <-] & [[Hs _]|[_ Ht]]); [|done]. by rewrite Hsec in Hs.
Qed.

Lemma join_nonempty sep (first : string) rest :
  first ≠ ""%string → join sep (first :: rest) ≠ ""%string.
Proof.
  intros Hne. destruct rest as [|second rest]; simpl; [done|].
  destruct first; [done|]. done.
Qed.

Lemma serialize_nil encode entries :
  serialize encode entries = ""%string ↔ entries = [].
Proof.
  split; [|by intros ->].
  destruct entries as [|entry entries]; [done|].
  intros Hs. exfalso. revert Hs. unfold serialize. simpl.
  apply join_nonempty.
  destruct (encode entry.1); done.
Qed.

Lemma keepParam_None entry :
  keepParam entry = None ↔ entry.2 = None ∨ entry.2 = Some ""%string.
Proof.
  unfold keepParam, truthy. destruct entry.2 as [value|]; [|split; [by left|done]].
  destruct (decide (value = ""%string)) as [->|Hne].
  - split; [by right|done].
  - split; [done|]. intros [H|[= H]]; [done|by destruct Hne].
Qed.

Lemma omap_nil_iff {A B} (f : A → option B) (l : list A) :
  omap f l = [] ↔ ∀ x, x ∈ l → f x = None.
Proof.
  induction l as [|x l IH]; simpl.
  - split; [|done]. intros _ x Hx. by apply elem_of_nil in Hx.
  - destruct (f x) eqn:Hx.
    + split; [done|]. intros H.
      assert (Hin : x ∈ x :: l) by (apply elem_of_cons; by left).
      specialize (H x Hin). congruence.
    + rewrite IH. split.
      * intros H y Hy. apply elem_of_cons in Hy as [->|Hy]; [done|by apply H].
      * intros H y Hy. apply H. by right.
Qed.

(** X6.  [toQueryString] leaves out every parameter whose value is null,
    undefined or the empty string: such a parameter changes nothing,
    wherever it stands; the result is empty exactly when no parameter is
    left, and otherwise it is a question mark followed by the remaining
    parameters in their order. *)
Theorem query_string_drops_empty_parameters (encode : string → string)
    (params : list (string * option string)) :
  (toQueryString encode params = ""%string
   ↔ ∀ entry, entry ∈ params → entry.2 = None ∨ entry.2 = Some ""%string)
  ∧ (toQueryString encode params ≠ ""%string →
     toQueryString encode params
     = "?" +:+ join "&" (map (λ entry, encode entry.1 +:+ "=" +:+ encode entry.2)
                           (omap keepParam params)))
  ∧ (∀ before after name value,
       params = before ++ (name, value) :: after →
       value = None ∨ value = Some ""%string →
       toQueryString encode params = toQueryString encode (before ++ after)).
Proof.
  assert (Hempty : toQueryString encode params = ""%string ↔ omap keepParam params = []).
  { unfold toQueryString, truthy. rewrite <- (serialize_nil encode).
    destruct (decide (serialize encode (omap keepParam params) = ""%string)) as [->|Hne];
      [done|]. split; [done|]. intros H. by destruct Hne. }
  split; [|split].
  - rewrite Hempty, omap_nil_iff. by setoid_rewrite keepParam_None.
  - intros Hne. unfold toQueryString, truthy in *.
    by destruct (decide (serialize encode (omap keepParam params) = ""%string)).
  - intros before after name value -> Hvalue.
    unfold toQueryString. rewrite !omap_app. simpl.
    assert (Hskip : keepParam (name, value) = None) by by apply keepParam_None.
    by rewrite Hskip.
Qed.

Lemma append_cons (x : ascii) (a b : string) :
  (String x a +:+ b)%string = String x (a +:+ b).
Proof. reflexivity. Qed.

Lemma append_assoc (a b c : string) :
  ((a +:+ b) +:+ c)%string = (a +:+ b +:+ c)%string.
Proof. induction a as [|x a IH]; [done|]. rewrite !append_cons. by rewrite IH. Qed.

Lemma endsWithSlash_snoc base : endsWithSlash (base +:+ "/") = true.
Proof.
  induction base as [|c base IH]; [done|].
  rewrite append_cons. simpl.
  destruct (base +:+ "/")%string eqn:Hb; [by destruct base|]. exact IH.
Qed.

Lemma dropLast_snoc base c : dropLast (base +:+ String c "") = base.
Proof.
  induction base as [|c' base IH]; [done|].
  rewrite append_cons. simpl.
  destruct (base +:+ String c "")%string eqn:Hb; [by destruct base|].
  by rewrite IH.
Qed.

(** X7.  One trailing slash of the base URL is dropped before the endpoint
    is appended, and nothing else is changed: a base URL with and without
    it name the same address, and of two trailing slashes one stays. *)
Theorem base_url_trailing_slash_dropped (baseUrl endpoint : string) :
  requestUrl (baseUrl +:+ "/") endpoint = (baseUrl +:+ endpoint)%string
  ∧ (endsWithSlash baseUrl = false →
     requestUrl baseUrl endpoint = (baseUrl +:+ endpoint)%string)
  ∧ requestUrl (baseUrl +:+ "//") endpoint = (baseUrl +:+ "/" +:+ endpoint)%string.
Proof.
  assert (Hdrop : ∀ base, normalizeBaseUrl (base +:+ "/") = base).
  { intros base. unfold normalizeBaseUrl, truthy.
    destruct (decide ((base +:+ "/")%string = ""%string)) as [He|_]; [by destruct base|].
    by rewrite endsWithSlash_snoc, dropLast_snoc. }
  unfold requestUrl. split; [by rewrite Hdrop|]. split.
  - intros Hno. unfold normalizeBaseUrl, truthy. rewrite Hno.
    by destruct (decide (baseUrl = ""%string)) as [->|_].
  - change "//"%string with ("/" +:+ "/")%string.
    by rewrite <- append_assoc, Hdrop, append_assoc.
Qed.

Lemma base_url_trailing_slash_dropped_witness :
  requestUrl "https://api.calemly.test/api/" "/bookings/public"
  = requestUrl "https://api.calemly.test/api" "/bookings/public".
Proof.
  destruct (base_url_trailing_slash_dropped "https://api.calemly.test/api" "/bookings/public")
    as (Hwith & Hwithout & _).
  change ("https://api.calemly.test/api" +:+ "/")%string
    with "https://api.calemly.test/api/"%string in Hwith.
  rewrite Hwith. symmetry. by apply Hwithout.
Defined.

End TransportFacts.

(* ===================================================================== *)
(** * Further properties of the identity utilities *)
(* ===================================================================== *)

Module StorageFacts.
Import Identity Tokens.

(** What a call leaves in storage when storage is there. *)
Lemma read_leaves scopeKey ttl now u item :
  ∃ kept,
    (getOrCreateClientRequestId scopeKey ttl now u (Available item)).2 = Available (Some kept)
    ∧ ∀ other, other ≠ safeScope scopeKey →
        kept !! other = cleanStore now (parseStoredRequestIds (Available item)) !! other.
Proof.
  unfold getOrCreateClientRequestId. cbv zeta.
  set (c := cleanStore now (parseStoredRequestIds (Available item))).
  assert (Hmint : ∀ other, other ≠ safeScope scopeKey →
            assignProperty (safeScope scopeKey) (Entry u (now + ttl)) c !! other = c !! other).
  { intros other Hne. by apply ObjectFacts.assign_other. }
  destruct (c !! safeScope scopeKey) as [[id exp|]|]; simpl.
  - destruct (truthy id); simpl; eexists; (split; [reflexivity|done]).
  - eexists. split; [reflexivity|done].
  - eexists. split; [reflexivity|done].
Qed.

(** X8.  A call for one scope leaves the entries of the other scopes as
    they are, except that it drops those that have expired or are
    malformed; so the id that another scope gets within its own window
    does not depend on the calls made for this one.  Without
    [localStorage] nothing is kept at all: every call returns the id
    generated for it. *)
Theorem client_request_id_leaves_other_scopes (scopeKey : string) (ttl now : Z)
    (uuid : string) (item : option (gmap string stored)) :
  let after := (getOrCreateClientRequestId scopeKey ttl now uuid (Available item)).2 in
  (∀ other, other ≠ safeScope scopeKey →
     parseStoredRequestIds after !! other
     = match parseStoredRequestIds (Available item) !! other with
       | Some entry => if decide (live now entry) then Some entry else None
       | None => None
       end)
  ∧ (∀ otherKey ttl2 t2 u2 id expiry,
       safeScope otherKey ≠ safeScope scopeKey →
       storedEntry (Available item) otherKey = Some (Entry id expiry) →
       id ≠ ""%string → now < expiry → t2 < expiry →
       (getOrCreateClientRequestId otherKey ttl2 t2 u2 after).1 = id)
  ∧ getOrCreateClientRequestId scopeKey ttl now uuid Unavailable = (uuid, Unavailable).
Proof.
  intros after.
  destruct (read_leaves scopeKey ttl now uuid item) as (kept & Hafter & Hkept).
  fold after in Hafter.
  assert (Hother : ∀ other, other ≠ safeScope scopeKey →
     parseStoredRequestIds after !! other
     = match parseStoredRequestIds (Available item) !! other with
       | Some entry => if decide (live now entry) then Some entry else None
       | None => None
       end).
  { intros other Hne. rewrite Hafter.
    change (parseStoredRequestIds (Available (Some kept))) with kept.
    rewrite (Hkept other Hne).
    destruct (parseStoredRequestIds (Available item) !! other) as [entry|] eqn:Hentry.
    - destruct (decide (live now entry)) as [Hl|Hd].
      + by apply IdentityFacts.cleanStore_lookup.
      + destruct (cleanStore now _ !! other) as [e|] eqn:He; [|done].
        apply IdentityFacts.cleanStore_lookup in He as [He Hl].
        rewrite Hentry in He. injection He as <-. done.
    - by apply IdentityFacts.cleanStore_lookup_None. }
  split; [exact Hother|]. split.
  - intros otherKey ttl2 t2 u2 id expiry Hne Hentry Hid Hnow Ht2.
    rewrite Hafter.
    rewrite (IdentityFacts.read_hit otherKey ttl2 t2 u2 (Some kept) id expiry); [done| |done..].
    unfold storedEntry in *. rewrite <- Hafter, (Hother _ Hne), Hentry.
    by destruct (decide (live now (Entry id expiry))) as [_|Hd]; [|destruct Hd].
  - unfold getOrCreateClientRequestId. simpl.
    unfold cleanStore. by rewrite map_filter_empty, lookup_empty.
Qed.

Lemma client_request_id_leaves_other_scopes_witness :
  let stored := {[ "sdk:public:evt_2:a:b:joe@example.com" := Entry "id-joe" 5000 ]} in
  let after :=
    (getOrCreateClientRequestId "sdk:public:evt_1:a:b:jane@example.com"
       REQUEST_ID_TTL_MS 1000 "id-jane" (Available (Some stored))).2 in
  (getOrCreateClientRequestId "sdk:public:evt_2:a:b:joe@example.com"
     REQUEST_ID_TTL_MS 2000 "id-other" after).1 = "id-joe"%string.
Proof.
  intros stored after.
  destruct (client_request_id_leaves_other_scopes "sdk:public:evt_1:a:b:jane@example.com"
              REQUEST_ID_TTL_MS 1000 "id-jane" (Some stored)) as (_ & Hother & _).
  apply (Hother "sdk:public:evt_2:a:b:joe@example.com" REQUEST_ID_TTL_MS 2000 "id-other"
           "id-joe" 5000); [done|reflexivity|done|lia|lia].
Defined.

Lemma stored_stable uuid1 uuid2 uuid3 uuid4 item :
  uuid1 ≠ ""%string →
  let first := getOrCreateStored uuid1 uuid2 (Store item false false) in
  first.1 ≠ ""%string ∧ first.2 = Store (Some first.1) false false
  ∧ getOrCreateStored uuid3 uuid4 first.2 = first.
Proof.
  intros Hu. simpl.
  destruct item as [existing|]; simpl.
  - unfold truthy. destruct (decide (existing = ""%string)) as [->|Hne]; simpl.
    + rewrite IdentityFacts.truthy_true by done. done.
    + unfold truthy. by destruct (decide (existing = ""%string)).
  - rewrite IdentityFacts.truthy_true by done. done.
Qed.

Lemma stored_failing uuid1 uuid2 item setThrows :
  getOrCreateStored uuid1 uuid2 NoStorage = (uuid1, NoStorage)
  ∧ getOrCreateStored uuid1 uuid2 (Store item true setThrows)
    = (uuid1, Store item true setThrows)
  ∧ (item = None ∨ item = Some ""%string →
     getOrCreateStored uuid1 uuid2 (Store item false true)
     = (uuid2, Store item false true)).
Proof.
  split; [done|]. split; [done|]. by intros [->| ->].
Qed.

(** X9.  Once the contact token and the tracking session id are written
    to a working storage, every later call returns them unchanged,
    whatever id it could generate.  Without the storage, or when reading
    throws, each call returns the id it generates and stores nothing; and
    when only writing throws, the id returned is a second generated one,
    not the one whose write failed. *)
Theorem stored_identifiers_are_stable (uuid1 uuid2 uuid3 uuid4 : string)
    (item : option string) :
  uuid1 ≠ ""%string →
  (let first := getOrCreateContactToken uuid1 uuid2 (Store item false false) in
   first.1 ≠ ""%string ∧ getOrCreateContactToken uuid3 uuid4 first.2 = first)
  ∧ (let first := getOrCreateTrackingSessionId uuid1 uuid2 (Store item false false) in
     first.1 ≠ ""%string ∧ getOrCreateTrackingSessionId uuid3 uuid4 first.2 = first)
  ∧ (∀ getter, getter = getOrCreateContactToken ∨ getter = getOrCreateTrackingSessionId →
       getter uuid1 uuid2 NoStorage = (uuid1, NoStorage)
       ∧ (∀ setThrows, getter uuid1 uuid2 (Store item true setThrows)
                       = (uuid1, Store item true setThrows))
       ∧ getter uuid1 uuid2 (Store None false true) = (uuid2, Store None false true)).
Proof.
  intros Hu.
  destruct (stored_stable uuid1 uuid2 uuid3 uuid4 item Hu) as (Hne & _ & Hsame).
  split; [by split|]. split; [by split|].
  intros getter [-> | ->]; (split; [done|]; split; [done|done]).
Qed.

Lemma stored_identifiers_are_stable_witness :
  let first := getOrCreateContactToken "3f2a-uuid" "9c1d-uuid" (Store None false false) in
  first.1 = "3f2a-uuid"%string
  ∧ getOrCreateContactToken "77aa-uuid" "52bb-uuid" first.2 = first.
Proof.
  intros first. split; [reflexivity|].
  by destruct (stored_identifiers_are_stable "3f2a-uuid" "9c1d-uuid" "77aa-uuid" "52bb-uuid"
                 None ltac:(done)) as ((_ & Hsame) & _).
Defined.

End StorageFacts.

(* ===================================================================== *)
(** * Further properties of the orchestrator *)
(* ===================================================================== *)

Module FlowFacts.
Import Model Orchestrator Flow.
Import ApiClient(ApiError, e_message, e_status, e_code, e_retryAfter,
                 e_alternatives, e_suggestions).

(** *** The request id of a submission *)

Lemma merged_request_id cfg base id (fallbackMeta : Payload) tokenMeta :
  mergeSubmissionMeta cfg base id fallbackMeta tokenMeta !! "client_request_id"
  = fallbackMeta !! "client_request_id".
Proof.
  destruct tokenMeta as [|signed|source source_client signed tok details]; simpl.
  - done.
  - destruct (truthy signed); [by rewrite lookup_insert_ne|done].
  - rewrite OrchestratorFacts.setOrUndefined_ne by done. by rewrite !lookup_insert_ne.
Qed.

(** The metadata of a well-formed submission carries the id that the
    request-id store hands out for its scope, and the store is the only
    part of [localStorage] that it touches. *)
Lemma meta_request_id cfg env guestData slot et w :
  et_id et ≠ ""%string → start slot ≠ ""%string → end_ slot ≠ ""%string →
  let read :=
    Identity.getOrCreateClientRequestId (requestScope cfg et slot guestData)
      Identity.REQUEST_ID_TTL_MS (now env) (uuid env) (localStorage w) in
  let resolved := resolveSubmissionMeta cfg env guestData slot et w in
  resolved.1 !! "client_request_id" = Some (JStr read.1)
  ∧ localStorage resolved.2 = read.2.
Proof.
  intros Hid Hstart Hend read resolved. unfold resolved, resolveSubmissionMeta.
  apply OrchestratorFacts.truthy_spec in Hid, Hstart, Hend.
  rewrite Hid, Hstart, Hend. simpl. fold read.
  destruct read as [clientRequestId ls]. simpl.
  set (fallbackMeta := <["client_request_id" := _]> _).
  assert (Hfb : fallbackMeta !! "client_request_id" = Some (JStr clientRequestId)).
  { unfold fallbackMeta. by rewrite lookup_insert_eq. }
  assert (Hmerged : ∀ reply,
    match reply with
    | Ok tokenMeta =>
        mergeSubmissionMeta cfg (sourceDetails env) clientRequestId fallbackMeta tokenMeta
    | Failed _ => fallbackMeta
    end !! "client_request_id" = Some (JStr clientRequestId)).
  { intros [tokenMeta|error]; [by rewrite merged_request_id|done]. }
  destruct (hasTokenProvider cfg); [split; [apply Hmerged|done]|].
  destruct (negb (truthy (embedKey cfg)) || _); split; (exact Hfb || apply Hmerged || done).
Qed.

(** The scope of a request id starts with ["sdk:"]: it is never the key
    ["__proto__"]. *)
Lemma scope_ordinary cfg et slot guestData :
  Identity.safeScope (requestScope cfg et slot guestData) ≠ "__proto__"%string.
Proof.
  unfold requestScope.
  set (rest := [str_or (embedKey cfg) "public"; et_id et; start slot; end_ slot;
                str_or _ "anonymous"]%string).
  change (join ":" ("sdk"%string :: rest))
    with (String "s" (String "d" (String "k" (":" +:+ join ":" rest)))).
  discriminate.
Qed.

(** X10.  The request id that a submission carries is the one kept for
    its scope: event type, slot and guest e-mail, the e-mail taken without
    surrounding blanks and in lower case.  So a second submission for the
    same slot by the same guest, made before the entry expires, carries
    the same id, however the e-mail is typed and whatever the token
    provider or the token endpoint answers; and the entry of a scope that
    had none lasts 72 hours. *)
Theorem booking_retry_reuses_request_id (cfg : Config) (env1 env2 : BookingEnv)
    (guest1 guest2 : Payload) (slot : Slot) (et : EventType) (w : World)
    (item : option (gmap string Identity.stored)) :
  localStorage w = Identity.Available item →
  et_id et ≠ ""%string → start slot ≠ ""%string → end_ slot ≠ ""%string →
  uuid env1 ≠ ""%string →
  FormEngine.toLowerCase (BookingForm.trim (getStr guest1 "guest_email"))
  = FormEngine.toLowerCase (BookingForm.trim (getStr guest2 "guest_email")) →
  let first := resolveSubmissionMeta cfg env1 guest1 slot et w in
  ∃ id expiry,
    first.1 !! "client_request_id" = Some (JStr id) ∧ id ≠ ""%string
    ∧ now env1 < expiry
    ∧ (now env2 < expiry →
       (resolveSubmissionMeta cfg env2 guest2 slot et first.2).1 !! "client_request_id"
       = Some (JStr id))
    ∧ (Identity.storedEntry (localStorage w) (requestScope cfg et slot guest1) = None →
       id = uuid env1 ∧ expiry = now env1 + 72 * 60 * 60 * 1000).
Proof.
  intros Hls Hid Hstart Hend Hu Hmail first.
  destruct (meta_request_id cfg env1 guest1 slot et w Hid Hstart Hend) as [Hfirst Hstore].
  fold first in Hfirst, Hstore. rewrite Hls in Hfirst, Hstore.
  assert (Hscope : requestScope cfg et slot guest2 = requestScope cfg et slot guest1).
  { unfold requestScope. by rewrite Hmail. }
  destruct (IdentityFacts.read_stores (requestScope cfg et slot guest1)
              Identity.REQUEST_ID_TTL_MS (now env1) (uuid env1) item
              (scope_ordinary cfg et slot guest1) Hu ltac:(done))
    as (expiry & Hshape & Hentry & Hne & Hlive & Hfresh).
  set (read := Identity.getOrCreateClientRequestId _ _ _ _ _) in *.
  exists read.1, expiry. split; [done|]. split; [done|]. split; [done|]. split.
  - intros Hnow2.
    destruct (meta_request_id cfg env2 guest2 slot et first.2 Hid Hstart Hend) as [Hsecond _].
    rewrite Hsecond, Hstore, Hscope, Hshape.
    rewrite (IdentityFacts.read_hit _ _ _ _ _ read.1 expiry); [done| |done..].
    by rewrite <- Hshape.
  - intros Hnone. rewrite Hls in Hnone. apply Hfresh.
    by apply IdentityFacts.cleanStore_lookup_None.
Qed.

Lemma booking_retry_reuses_request_id_witness :
  let w := returnPage "" "" false in
  let typed := <["guest_email" := JStr "  Jane@Example.COM "]> janePayload in
  let first := resolveSubmissionMeta (testConfig None) (bookingEnvOf (Ok None))
                 janePayload janeSlot paidIntroCall w in
  first.1 !! "client_request_id" = Some (JStr "req-1")
  ∧ (resolveSubmissionMeta (testConfig None)
       {| now := 3600000; uuid := "req-2"; sourceDetails := [];
          tokenReply := Ok (TokenString "signed"); bookingReply := Ok None |}
       typed janeSlot paidIntroCall first.2).1 !! "client_request_id"
    = Some (JStr "req-1").
Proof.
  intros w typed first.
  destruct (booking_retry_reuses_request_id (testConfig None) (bookingEnvOf (Ok None))
              {| now := 3600000; uuid := "req-2"; sourceDetails := [];
                 tokenReply := Ok (TokenString "signed"); bookingReply := Ok None |}
              janePayload typed janeSlot paidIntroCall w None)
    as (id & expiry & Hfirst & _ & _ & Hsecond & Hfresh);
    [reflexivity|done|done|done|done|by vm_compute|].
  destruct (Hfresh ltac:(reflexivity)) as [-> ->].
  split; [exact Hfirst|]. apply Hsecond. simpl. lia.
Defined.

(** *** Booking creation, case by case *)

Lemma start_cases cfg env guestData slotOverride eventTypeOverride st w :
  let run := createBookingStart cfg env guestData slotOverride eventTypeOverride st w in
  match scoped slotOverride eventTypeOverride st with
  | None => run = (NotStarted, st, w)
  | Some (scopedSlot, scopedEventType) =>
      ∃ tokenCalls w1 payload,
        calls w1 = calls w ++ tokenCalls
        ∧ (tokenCalls = [] ∨ tokenCalls = [GetSignedWidgetToken])
        ∧ pendingItem w1 = pendingItem w ∧ location w1 = location w
        ∧ run.1.2 = markSlotPending scopedSlot (clearBookingError (setIsSubmitting true st))
        ∧ match hookVerdict cfg payload with
          | Veto =>
              run.1.1 = Threw scopedSlot scopedEventType
                          (localError "Booking cancelled before submit." "BOOKING_CANCELLED")
              ∧ run.2 = w1
          | HookThrows message =>
              run.1.1 = Threw scopedSlot scopedEventType (localError message "")
              ∧ run.2 = w1
          | Patch properties =>
              run.1.1 = Issued scopedSlot scopedEventType (spread payload properties)
              ∧ run.2 = setCalls (calls w1 ++ [CreateBooking (spread payload properties)]) w1
          | NoChange =>
              run.1.1 = Issued scopedSlot scopedEventType payload
              ∧ run.2 = setCalls (calls w1 ++ [CreateBooking payload]) w1
          end
  end.
Proof.
  unfold scoped, createBookingStart.
  destruct (orElse slotOverride (selectedSlot st)) as [scopedSlot|]; [|done].
  destruct (orElse eventTypeOverride (eventType st)) as [scopedEventType|]; [|done].
  destruct (truthy (et_id scopedEventType)); [|done]. simpl.
  set (payload0 := spread (basePayload cfg scopedSlot scopedEventType) guestData).
  pose proof (OrchestratorFacts.meta_world cfg env payload0 scopedSlot scopedEventType w) as Hw.
  destruct (resolveSubmissionMeta cfg env payload0 scopedSlot scopedEventType w)
    as [submissionMeta w1].
  simpl in Hw. destruct Hw as (Hp & Hl & tokenCalls & Hc & Htok).
  exists tokenCalls, w1, (spread payload0 submissionMeta).
  do 4 (split; [done|]).
  destruct (hookVerdict cfg (spread payload0 submissionMeta)); by split.
Qed.

Lemma daySlots_mutate slot mutateFn st dateStr :
  daySlots (mutateSlotState slot mutateFn st) dateStr
  = if isDayOf slot dateStr then mutateFn (daySlots st dateStr) else daySlots st dateStr.
Proof.
  unfold mutateSlotState, isDayOf, daySlots.
  destruct (truthy (start slot)); [|done]. simpl.
  destruct (String.eqb dateStr (dateOf (start slot))) eqn:Hd.
  - apply String.eqb_eq in Hd as ->. by rewrite lookup_insert_eq.
  - apply String.eqb_neq in Hd. by rewrite lookup_insert_ne.
Qed.

Lemma mark_then_release slot (items : list Slot) :
  map (λ item, if String.eqb (start item) (start slot) then withPending false item else item)
      (map (λ item, if String.eqb (start item) (start slot) then withPending true item else item)
           items)
  = map (released slot) items.
Proof.
  rewrite map_map. apply map_ext. intros item. unfold released.
  destruct (String.eqb (start item) (start slot)) eqn:Hs; simpl; by rewrite Hs.
Qed.

Lemma mark_then_remove slot (items : list Slot) :
  List.filter (λ item, negb (String.eqb (start item) (start slot)))
    (map (λ item, if String.eqb (start item) (start slot) then withPending true item else item)
         items)
  = List.filter (otherThan slot) items.
Proof.
  induction items as [|item items IH]; [done|]. simpl. unfold otherThan at 1.
  destruct (String.eqb (start item) (start slot)) eqn:Hs; simpl; rewrite Hs; simpl;
    by rewrite IH.
Qed.

(** The message of a normalized error is never empty. *)
Lemma normalized_message error : e_message (normalizeBookingError error) ≠ ""%string.
Proof.
  assert (Hor : ∀ message fallback, fallback ≠ ""%string → str_or message fallback ≠ ""%string).
  { intros message fallback Hf. unfold str_or. by destruct (decide (message = ""%string)). }
  unfold normalizeBookingError.
  repeat match goal with
         | |- context [if ?b then _ else _] => destruct b
         end; simpl; try done; by apply Hor.
Qed.

(** X11.  Booking creation is refused exactly when there is no slot (no
    override and none selected) or no event type with an id; a refused
    call changes nothing and reaches neither the hook nor the network. *)
Theorem booking_refused_without_slot_or_event (cfg : Config) (env : BookingEnv)
    (guestData : Payload) (slotOverride : option Slot)
    (eventTypeOverride : option EventType) (st : State) (w : World) :
  let run :=
    createBookingForContext cfg env guestData slotOverride eventTypeOverride st w in
  (run.1.1 = Refused
   ↔ orElse slotOverride (selectedSlot st) = None
     ∨ orElse eventTypeOverride (eventType st) = None
     ∨ ∃ scopedEventType, orElse eventTypeOverride (eventType st) = Some scopedEventType
                          ∧ et_id scopedEventType = ""%string)
  ∧ (run.1.1 = Refused → run = (Refused, st, w)).
Proof.
  intros run. unfold run, createBookingForContext.
  pose proof (start_cases cfg env guestData slotOverride eventTypeOverride st w) as Hstart.
  unfold scoped in Hstart. cbv zeta in Hstart.
  destruct (orElse slotOverride (selectedSlot st)) as [scopedSlot|] eqn:Hslot.
  2:{ rewrite Hstart. simpl. split; [|done]. split; [by left|done]. }
  destruct (orElse eventTypeOverride (eventType st)) as [scopedEventType|] eqn:Het.
  2:{ rewrite Hstart. simpl. split; [|done]. split; [right; by left|done]. }
  destruct (truthy (et_id scopedEventType)) eqn:Hid.
  2:{ rewrite Hstart. simpl. apply OrchestratorFacts.truthy_false in Hid.
      split; [|done]. split; [|done]. intros _. right. right. by exists scopedEventType. }
  apply OrchestratorFacts.truthy_spec in Hid.
  destruct Hstart as (tokenCalls & w1 & payload & _ & _ & _ & _ & _ & Hverdict).
  destruct (createBookingStart _ _ _ _ _ _ _) as [[started st1] w2]. simpl in Hverdict.
  assert (Hnot : (let '(result, st2) := createBookingSettle started (bookingReply env) st1 in
                  (result, st2, w2)).1.1 ≠ Refused).
  { destruct (hookVerdict cfg payload); destruct Hverdict as [-> _]; simpl;
      try done; by destruct (bookingReply env). }
  split; [|done]. split; [done|].
  intros [?|[?|(other & [= <-] & Hempty)]]; done.
Qed.



(** A booking creation that ends in a failure, under callbacks that return,
    leaves the flow where it was and releases the slot. *)
Lemma failed_run (cfg : Config) (env : BookingEnv)
    (guestData : Payload) (slotOverride : option Slot)
    (eventTypeOverride : option EventType) (st : State) (w : World)
    (scopedSlot : Slot) (scopedEventType : EventType) (failure : ApiError) :
  scoped slotOverride eventTypeOverride st = Some (scopedSlot, scopedEventType) →
  let run :=
    createBookingForContext cfg env guestData slotOverride eventTypeOverride st w in
  run.1.1 = BookingFailed failure →
  error run.1.2 = Some (e_message failure) ∧ e_message failure ≠ ""%string
  ∧ alternatives run.1.2 = e_alternatives failure
  ∧ isSubmitting run.1.2 = false
  ∧ step run.1.2 = step st ∧ selectedSlot run.1.2 = selectedSlot st
  ∧ eventType run.1.2 = eventType st
  ∧ confirmedBooking run.1.2 = confirmedBooking st
  ∧ availabilityCache run.1.2 = availabilityCache st
  ∧ ∀ dateStr,
      daySlots run.1.2 dateStr
      = if isDayOf scopedSlot dateStr then map (released scopedSlot) (daySlots st dateStr)
        else daySlots st dateStr.
Proof.
  intros Hscoped run. unfold run, createBookingForContext.
  pose proof (start_cases cfg env guestData slotOverride eventTypeOverride st w) as Hstart.
  rewrite Hscoped in Hstart. cbv zeta in Hstart.
  destruct Hstart as (tokenCalls & w1 & payload & _ & _ & _ & _ & Hst1 & Hverdict).
  destruct (createBookingStart _ _ _ _ _ _ _) as [[started st1] w2].
  simpl in Hst1, Hverdict. subst st1.
  set (st1 := markSlotPending scopedSlot (clearBookingError (setIsSubmitting true st))).
  assert (Hfailed : ∀ requestError,
    (bookingFailed scopedSlot requestError st1).1 = BookingFailed failure →
    let st2 := (bookingFailed scopedSlot requestError st1).2 in
    error st2 = Some (e_message failure) ∧ e_message failure ≠ ""%string
    ∧ alternatives st2 = e_alternatives failure
    ∧ isSubmitting st2 = false
    ∧ step st2 = step st ∧ selectedSlot st2 = selectedSlot st
    ∧ eventType st2 = eventType st
    ∧ confirmedBooking st2 = confirmedBooking st
    ∧ availabilityCache st2 = availabilityCache st
    ∧ ∀ dateStr,
        daySlots st2 dateStr
        = if isDayOf scopedSlot dateStr then map (released scopedSlot) (daySlots st dateStr)
          else daySlots st dateStr).
  { intros requestError [= <-]. simpl.
    split; [done|]. split; [apply normalized_message|]. split; [done|]. split; [done|].
    assert (Hframe : ∀ (f : list Slot → list Slot) (s : State),
      step (mutateSlotState scopedSlot f s) = step s
      ∧ selectedSlot (mutateSlotState scopedSlot f s) = selectedSlot s
      ∧ eventType (mutateSlotState scopedSlot f s) = eventType s
      ∧ confirmedBooking (mutateSlotState scopedSlot f s) = confirmedBooking s
      ∧ availabilityCache (mutateSlotState scopedSlot f s) = availabilityCache s).
    { intros f s. unfold mutateSlotState. by destruct (truthy (start scopedSlot)). }
    unfold st1, revertPendingSlot, markSlotPending.
    destruct (Hframe (map (λ item, if String.eqb (start item) (start scopedSlot)
                                   then withPending false item else item))
                (mutateSlotState scopedSlot
                   (map (λ item, if String.eqb (start item) (start scopedSlot)
                                 then withPending true item else item))
                   (clearBookingError (setIsSubmitting true st))))
      as (-> & -> & -> & -> & ->).
    destruct (Hframe (map (λ item, if String.eqb (start item) (start scopedSlot)
                                   then withPending true item else item))
                (clearBookingError (setIsSubmitting true st)))
      as (-> & -> & -> & -> & ->).
    do 5 (split; [done|]).
    intros dateStr.
    change (daySlots ?s dateStr) with (default [] (slots s !! dateStr)) at 1.
    simpl.
    change (default [] (slots ?s !! dateStr)) with (daySlots s dateStr).
    rewrite !daySlots_mutate.
    destruct (isDayOf scopedSlot dateStr); [|done].
    by rewrite mark_then_release. }
  destruct (hookVerdict cfg payload); destruct Hverdict as [-> ->]; simpl.
  - apply Hfailed.
  - destruct (bookingReply env) as [booking|requestError]; [done|apply Hfailed].
  - destruct (bookingReply env) as [booking|requestError]; [done|apply Hfailed].
  - apply Hfailed.
Qed.

(** A booking creation that the hook stops, or whose request is answered
    with an error, runs the [catch] block on the state as it was when the
    call was issued. *)
Lemma create_failed host cfg env guestData slotOverride eventTypeOverride st w
    scopedSlot scopedEventType :
  scoped slotOverride eventTypeOverride st = Some (scopedSlot, scopedEventType) →
  Host.hookStops cfg ∨ (∃ requestError, bookingReply env = Failed requestError) →
  let base :=
    createBookingForContext cfg env guestData slotOverride eventTypeOverride st w in
  ∃ failure,
    base.1.1 = BookingFailed failure
    ∧ Host.createBookingForContext host cfg env guestData slotOverride eventTypeOverride st w
      = (Host.reported host failure scopedSlot scopedEventType, base.1.2, base.2).
Proof.
  intros Hscoped Hcause. unfold createBookingForContext, Host.createBookingForContext.
  pose proof (start_cases cfg env guestData slotOverride eventTypeOverride st w) as Hstart.
  rewrite Hscoped in Hstart. cbv zeta in Hstart.
  destruct Hstart as (tokenCalls & w1 & payload & _ & _ & _ & _ & _ & Hverdict).
  destruct (createBookingStart _ _ _ _ _ _ _) as [[started st1] w2].
  cbn [fst snd] in Hverdict.
  assert (Hthrew : ∀ error,
    started = Threw scopedSlot scopedEventType error →
    ∃ failure,
      (let '(result, st2) := createBookingSettle started (bookingReply env) st1 in
       (result, st2, w2)).1.1 = BookingFailed failure
      ∧ (let '(settled, st2) := Host.createBookingSettle host started (bookingReply env) st1 in
         (settled, st2, w2))
        = (Host.reported host failure scopedSlot scopedEventType,
           (let '(result, st2) := createBookingSettle started (bookingReply env) st1 in
            (result, st2, w2)).1.2,
           (let '(result, st2) := createBookingSettle started (bookingReply env) st1 in
            (result, st2, w2)).2)).
  { intros error ->. exists (normalizeBookingError error). by split. }
  assert (Hissued : ∀ sent requestError,
    started = Issued scopedSlot scopedEventType sent →
    bookingReply env = Failed requestError →
    ∃ failure,
      (let '(result, st2) := createBookingSettle started (bookingReply env) st1 in
       (result, st2, w2)).1.1 = BookingFailed failure
      ∧ (let '(settled, st2) := Host.createBookingSettle host started (bookingReply env) st1 in
         (settled, st2, w2))
        = (Host.reported host failure scopedSlot scopedEventType,
           (let '(result, st2) := createBookingSettle started (bookingReply env) st1 in
            (result, st2, w2)).1.2,
           (let '(result, st2) := createBookingSettle started (bookingReply env) st1 in
            (result, st2, w2)).2)).
  { intros sent requestError -> ->. exists (normalizeBookingError requestError). by split. }
  destruct Hcause as [Hstops|[requestError Hreply]].
  - specialize (Hstops payload).
    destruct (hookVerdict cfg payload); try done; destruct Hverdict as [Hs _];
      by apply (Hthrew _ Hs).
  - destruct (hookVerdict cfg payload); destruct Hverdict as [Hs _];
      first [by apply (Hthrew _ Hs)|by apply (Hissued _ _ Hs Hreply)].
Qed.

(** X13.  A booking creation that fails, because the hook stops it or
    because the request is answered with an error, leaves the flow where
    it was: the step, the selected slot, the event type, the confirmed
    booking and the cache are unchanged.  The normalized message, never
    empty, becomes the error, [isSubmitting] is lowered, and every day
    keeps its slots, the slots of the attempted start time being shown as
    not pending again.  The promise resolves with that failure, unless
    [onBookingError], called with it, throws: then it rejects with what
    was thrown, the state being the same. *)
Theorem failed_booking_releases_slot (host : Host.Callbacks) (cfg : Config)
    (env : BookingEnv) (guestData : Payload) (slotOverride : option Slot)
    (eventTypeOverride : option EventType) (st : State) (w : World)
    (scopedSlot : Slot) (scopedEventType : EventType) :
  scoped slotOverride eventTypeOverride st = Some (scopedSlot, scopedEventType) →
  Host.hookStops cfg ∨ (∃ requestError, bookingReply env = Failed requestError) →
  let run :=
    Host.createBookingForContext host cfg env guestData slotOverride eventTypeOverride
      st w in
  ∃ failure,
    run.1.1
    = match Host.notifyError host failure scopedSlot scopedEventType with
      | Some thrown => Host.Rejected thrown
      | None => Host.Resolved (BookingFailed failure)
      end
    ∧ error run.1.2 = Some (e_message failure) ∧ e_message failure ≠ ""%string
    ∧ alternatives run.1.2 = e_alternatives failure
    ∧ isSubmitting run.1.2 = false
    ∧ step run.1.2 = step st ∧ selectedSlot run.1.2 = selectedSlot st
    ∧ eventType run.1.2 = eventType st
    ∧ confirmedBooking run.1.2 = confirmedBooking st
    ∧ availabilityCache run.1.2 = availabilityCache st
    ∧ ∀ dateStr,
        daySlots run.1.2 dateStr
        = if isDayOf scopedSlot dateStr then map (released scopedSlot) (daySlots st dateStr)
          else daySlots st dateStr.
Proof.
  intros Hscoped Hcause run.
  destruct (create_failed host cfg env guestData slotOverride eventTypeOverride st w
              scopedSlot scopedEventType Hscoped Hcause) as (failure & Hbase & Hrun).
  exists failure. unfold run. rewrite Hrun. cbn [fst snd].
  split; [done|].
  by apply (failed_run cfg env guestData slotOverride eventTypeOverride st w
              scopedSlot scopedEventType failure).
Qed.

Lemma failed_booking_releases_slot_witness :
  let run := Host.createBookingForContext Host.throwingError (testConfig None)
               (bookingEnvOf (Failed slotConflict)) janePayload None None
               (orch idleSystem) (world idleSystem) in
  run.1.1 = Host.Rejected Host.hostFails
  ∧ step run.1.2 = CONFIRM ∧ selectedSlot run.1.2 = Some janeSlot
  ∧ isSubmitting run.1.2 = false
  ∧ daySlots run.1.2 "2026-05-10" = [janeSlot].
Proof.
  intros run.
  destruct (failed_booking_releases_slot Host.throwingError (testConfig None)
              (bookingEnvOf (Failed slotConflict)) janePayload None None
              (orch idleSystem) (world idleSystem) janeSlot freeIntroCall)
    as (failure & Hresult & _ & _ & _ & Hlowered & Hstep & Hslot & _ & _ & _ & Hday);
    [reflexivity|right; by eexists|].
  fold run in Hresult, Hlowered, Hstep, Hslot, Hday.
  split; [exact Hresult|]. split; [exact Hstep|]. split; [exact Hslot|].
  split; [exact Hlowered|]. by rewrite Hday.
Defined.

(** A booking creation that the hook lets through and the server accepts,
    under callbacks that return. *)
Lemma accepted_run (cfg : Config) (env : BookingEnv)
    (guestData : Payload) (slotOverride : option Slot)
    (eventTypeOverride : option EventType) (st : State) (w : World)
    (scopedSlot : Slot) (scopedEventType : EventType) (booking : option Booking) :
  scoped slotOverride eventTypeOverride st = Some (scopedSlot, scopedEventType) →
  hookPasses cfg → bookingReply env = Ok booking →
  let run :=
    createBookingForContext cfg env guestData slotOverride eventTypeOverride st w in
  (∃ payload, run.1.1 = BookingOk booking payload
              ∧ bookingCalls run.2 = bookingCalls w ++ [CreateBooking payload])
  ∧ step run.1.2 = SUCCESS ∧ confirmedBooking run.1.2 = booking
  ∧ selectedSlot run.1.2 = None ∧ activeTemplate run.1.2 = None
  ∧ eventType run.1.2 = orElse (eventType st) (Some scopedEventType)
  ∧ isSubmitting run.1.2 = false ∧ error run.1.2 = None
  ∧ ∀ dateStr,
      daySlots run.1.2 dateStr
      = if isDayOf scopedSlot dateStr
        then List.filter (otherThan scopedSlot) (daySlots st dateStr)
        else daySlots st dateStr.
Proof.
  intros Hscoped Hhook Hreply run. unfold run, createBookingForContext.
  pose proof (start_cases cfg env guestData slotOverride eventTypeOverride st w) as Hstart.
  rewrite Hscoped in Hstart. cbv zeta in Hstart.
  destruct Hstart as (tokenCalls & w1 & payload & Hc & Htok & _ & _ & Hst1 & Hverdict).
  destruct (createBookingStart _ _ _ _ _ _ _) as [[started st1] w2].
  simpl in Hst1, Hverdict. subst st1.
  set (st1 := markSlotPending scopedSlot (clearBookingError (setIsSubmitting true st))).
  assert (Hok : ∀ sent,
    started = Issued scopedSlot scopedEventType sent →
    w2 = setCalls (calls w1 ++ [CreateBooking sent]) w1 →
    let settled := createBookingSettle started (bookingReply env) st1 in
    (∃ payload, settled.1 = BookingOk booking payload
                ∧ bookingCalls w2 = bookingCalls w ++ [CreateBooking payload])
    ∧ step settled.2 = SUCCESS ∧ confirmedBooking settled.2 = booking
    ∧ selectedSlot settled.2 = None ∧ activeTemplate settled.2 = None
    ∧ eventType settled.2 = orElse (eventType st) (Some scopedEventType)
    ∧ isSubmitting settled.2 = false ∧ error settled.2 = None
    ∧ ∀ dateStr,
        daySlots settled.2 dateStr
        = if isDayOf scopedSlot dateStr
          then List.filter (otherThan scopedSlot) (daySlots st dateStr)
          else daySlots st dateStr).
  { intros sent -> ->. rewrite Hreply. simpl.
    split.
    { exists sent. split; [done|].
      rewrite <- (OrchestratorFacts.bookingCalls_token w tokenCalls w1 Hc Htok).
      unfold bookingCalls. simpl. by rewrite List.filter_app. }
    assert (Hinv : ∀ s : State,
      step (invalidateAvailability (et_id scopedEventType) s) = step s
      ∧ confirmedBooking (invalidateAvailability (et_id scopedEventType) s) = confirmedBooking s
      ∧ selectedSlot (invalidateAvailability (et_id scopedEventType) s) = selectedSlot s
      ∧ activeTemplate (invalidateAvailability (et_id scopedEventType) s) = activeTemplate s
      ∧ eventType (invalidateAvailability (et_id scopedEventType) s) = eventType s
      ∧ error (invalidateAvailability (et_id scopedEventType) s) = error s
      ∧ slots (invalidateAvailability (et_id scopedEventType) s) = slots s).
    { intros s. unfold invalidateAvailability. by destruct (truthy (et_id scopedEventType)). }
    assert (Hframe : ∀ (f : list Slot → list Slot) (s : State),
      eventType (mutateSlotState scopedSlot f s) = eventType s
      ∧ error (mutateSlotState scopedSlot f s) = error s).
    { intros f s. unfold mutateSlotState. by destruct (truthy (start scopedSlot)). }
    match goal with
    | |- context [invalidateAvailability _ ?s] =>
        destruct (Hinv s) as (Hi1 & Hi2 & Hi3 & Hi4 & Hi5 & Hi6 & Hi7)
    end.
    rewrite Hi1, Hi2, Hi3, Hi4, Hi5, Hi6. simpl.
    do 4 (split; [done|]).
    assert (Het1 : eventType st1 = eventType st).
    { unfold st1, markSlotPending. by rewrite (proj1 (Hframe _ _)). }
    split; [by rewrite Het1|]. split; [done|]. split.
    { unfold removeBookedSlot, st1, markSlotPending. by rewrite !(proj2 (Hframe _ _)). }
    intros dateStr. unfold daySlots at 1. simpl. rewrite Hi7. simpl.
    change (default [] (slots ?s !! dateStr)) with (daySlots s dateStr).
    unfold removeBookedSlot. rewrite daySlots_mutate.
    unfold st1, markSlotPending. rewrite daySlots_mutate.
    destruct (isDayOf scopedSlot dateStr); [|done].
    by rewrite mark_then_remove. }
  specialize (Hhook payload).
  destruct (hookVerdict cfg payload); try done; destruct Hverdict as [Hs Hw];
    pose proof (Hok _ Hs Hw) as Hrun; cbv zeta in Hrun;
    by destruct (createBookingSettle started (bookingReply env) st1) as [result st2].
Qed.

(** X14.  A booking creation that the hook lets through and the server
    accepts, with an [onBookingSuccess] that returns, ends the flow: the
    promise resolves with the booking, the step is SUCCESS with the
    booking of the answer, no slot is selected, the active template is
    dropped, the event type is the one in place or else the one booked,
    [isSubmitting] is lowered, no error is set, exactly one booking
    creation was issued, and the slots with the booked start time are
    gone from their day, all other slots staying as they were. *)
Theorem accepted_booking_removes_slot (host : Host.Callbacks) (cfg : Config)
    (env : BookingEnv) (guestData : Payload) (slotOverride : option Slot)
    (eventTypeOverride : option EventType) (st : State) (w : World)
    (scopedSlot : Slot) (scopedEventType : EventType) (booking : option Booking) :
  scoped slotOverride eventTypeOverride st = Some (scopedSlot, scopedEventType) →
  hookPasses cfg → bookingReply env = Ok booking → Host.successReturns host →
  let run :=
    Host.createBookingForContext host cfg env guestData slotOverride eventTypeOverride
      st w in
  (∃ payload, run.1.1 = Host.Resolved (BookingOk booking payload)
              ∧ bookingCalls run.2 = bookingCalls w ++ [CreateBooking payload])
  ∧ step run.1.2 = SUCCESS ∧ confirmedBooking run.1.2 = booking
  ∧ selectedSlot run.1.2 = None ∧ activeTemplate run.1.2 = None
  ∧ eventType run.1.2 = orElse (eventType st) (Some scopedEventType)
  ∧ isSubmitting run.1.2 = false ∧ error run.1.2 = None
  ∧ ∀ dateStr,
      daySlots run.1.2 dateStr
      = if isDayOf scopedSlot dateStr
        then List.filter (otherThan scopedSlot) (daySlots st dateStr)
        else daySlots st dateStr.
Proof.
  intros Hscoped Hhook Hreply Hquiet run.
  destruct (accepted_run cfg env guestData slotOverride eventTypeOverride st w
              scopedSlot scopedEventType booking Hscoped Hhook Hreply)
    as ((payload & Hresult & Hcalls) & Hrest).
  destruct (HostFacts.create_agrees host cfg env guestData slotOverride
              eventTypeOverride st w) as (Hw & _ & _ & _ & Hstate & _).
  cbv zeta in Hw, Hstate. fold run in Hw, Hstate.
  destruct (Hstate Hquiet) as [Hst Hsettled].
  rewrite Hw, Hst. split; [|exact Hrest].
  exists payload. split; [|exact Hcalls].
  destruct Hsettled as [->|[_ Hfailed]]; [by rewrite Hresult|].
  by rewrite Hresult in Hfailed.
Qed.

Lemma accepted_booking_removes_slot_witness :
  let run := Host.createBookingForContext Host.throwingError (testConfig None)
               (bookingEnvOf (Ok (Some {| bk_id := "book_1" |}))) janePayload None None
               (orch idleSystem) (world idleSystem) in
  step run.1.2 = SUCCESS ∧ confirmedBooking run.1.2 = Some {| bk_id := "book_1" |}
  ∧ error run.1.2 = None ∧ daySlots run.1.2 "2026-05-10" = [].
Proof.
  intros run.
  destruct (accepted_booking_removes_slot Host.throwingError (testConfig None)
              (bookingEnvOf (Ok (Some {| bk_id := "book_1" |}))) janePayload
              None None (orch idleSystem) (world idleSystem) janeSlot freeIntroCall
              (Some {| bk_id := "book_1" |}))
    as (_ & Hstep & Hbooking & _ & _ & _ & _ & Herror & Hday);
    [reflexivity|done|reflexivity|done|].
  fold run in Hstep, Hbooking, Herror, Hday.
  split; [exact Hstep|]. split; [exact Hbooking|]. split; [exact Herror|]. by rewrite Hday.
Defined.

(** X15.  Picking a slot, or an alternative one, and confirming it leads
    to CONFIRM with that slot and a clean error state, and the booking
    creation that [submitBooking] then issues is for that very slot and
    for the event type in place: unless the guest data or a hook say
    otherwise, its payload names the id of the event type and the start
    and the end of the slot, and it carries every property of the guest
    data that is not submission metadata. *)
Theorem picked_slot_is_the_one_booked (cfg : Config) (env : BookingEnv)
    (guestData : Payload) (st : State) (w : World) (slot : Slot) (et : EventType)
    (pick : State → State) :
  eventType st = Some et → et_id et ≠ ""%string → hookSilent cfg →
  (∀ key, key ∈ ["event_type_id"; "start_time"; "end_time"]%string →
          guestData !! key = None) →
  pick = selectSlot (Some slot) ∨ pick = selectAlternativeSlot (Some slot) →
  let picked := confirmSelectedSlot (pick st) in
  step picked = CONFIRM ∧ plainSlot <$> selectedSlot picked = Some (plainSlot slot)
  ∧ error picked = None ∧ alternatives picked = []
  ∧ ∃ tokenCalls payload,
      calls (submitBooking cfg env guestData picked w).2
      = calls w ++ tokenCalls ++ [CreateBooking payload]
      ∧ (tokenCalls = [] ∨ tokenCalls = [GetSignedWidgetToken])
      ∧ payload !! "event_type_id" = Some (JStr (et_id et))
      ∧ payload !! "start_time" = Some (JStr (start slot))
      ∧ payload !! "end_time" = Some (JStr (end_ slot))
      ∧ (∀ key value, key ∉ metaKeys → guestData !! key = Some value →
                      payload !! key = Some value).
Proof.
  intros Het Hid Hhook Hfree Hpick picked.
  assert (Hpicked : ∃ chosen,
    picked = clearBookingError (setStep CONFIRM (clearBookingError (setSelectedSlot (Some chosen) st)))
    ∧ plainSlot chosen = plainSlot slot ∧ start chosen = start slot ∧ end_ chosen = end_ slot).
  { destruct Hpick as [-> | ->]; [exists slot|exists (plainSlot slot)]; by split. }
  destruct Hpicked as (chosen & Hshape & Hplain & Hstart & Hend).
  rewrite Hshape. do 4 (split; [by simpl; rewrite ?Hplain|]).
  apply OrchestratorFacts.truthy_spec in Hid.
  destruct (OrchestratorFacts.booking_payload cfg env guestData chosen et
              (clearBookingError (setStep CONFIRM
                 (clearBookingError (setSelectedSlot (Some chosen) st)))) w Hhook Hid)
    as (tokenCalls & payload & Hcalls & Htok & Hguest & Hbase).
  exists tokenCalls, payload.
  assert (Hsame : submitBooking cfg env guestData
                    (clearBookingError (setStep CONFIRM
                       (clearBookingError (setSelectedSlot (Some chosen) st)))) w
                  = createBookingForContext cfg env guestData (Some chosen) (Some et)
                      (clearBookingError (setStep CONFIRM
                         (clearBookingError (setSelectedSlot (Some chosen) st)))) w).
  { unfold submitBooking, createBookingForContext, createBookingStart. simpl.
    by rewrite Het. }
  rewrite Hsame. split; [exact Hcalls|]. split; [exact Htok|].
  assert (Hkey : ∀ key, key ∈ ["event_type_id"; "start_time"; "end_time"]%string →
            payload !! key = basePayload cfg chosen et !! key).
  { intros key Hin. apply Hbase; [|by apply Hfree].
    unfold metaKeys. intros Hmeta.
    repeat (apply elem_of_cons in Hin as [->|Hin];
            [repeat (apply elem_of_cons in Hmeta as [Hmeta|Hmeta]; [done|]);
             by apply elem_of_nil in Hmeta|]).
    by apply elem_of_nil in Hin. }
  split; [rewrite Hkey by (apply elem_of_cons; by left); reflexivity|].
  split.
  { rewrite Hkey by (do 1 (apply elem_of_cons; right); apply elem_of_cons; by left).
    unfold basePayload. rewrite lookup_insert_ne by done.
    by rewrite lookup_insert_eq, Hstart. }
  split.
  { rewrite Hkey by (do 2 (apply elem_of_cons; right); apply elem_of_cons; by left).
    unfold basePayload. rewrite !lookup_insert_ne by done.
    by rewrite lookup_insert_eq, Hend. }
  exact Hguest.
Qed.

Lemma picked_slot_is_the_one_booked_witness :
  let picked := confirmSelectedSlot (selectSlot (Some janeSlot) (initialState (testConfig (Some freeIntroCall)))) in
  step picked = CONFIRM
  ∧ ∃ tokenCalls payload,
      calls (submitBooking (testConfig (Some freeIntroCall)) (bookingEnvOf (Ok None)) janePayload
               picked (world idleSystem)).2
      = tokenCalls ++ [CreateBooking payload]
      ∧ payload !! "start_time" = Some (JStr "2026-05-10T10:00:00.000Z").
Proof.
  intros picked.
  destruct (picked_slot_is_the_one_booked (testConfig (Some freeIntroCall))
              (bookingEnvOf (Ok None)) janePayload
              (initialState (testConfig (Some freeIntroCall))) (world idleSystem)
              janeSlot freeIntroCall (selectSlot (Some janeSlot)))
    as (Hstep & _ & _ & _ & tokenCalls & payload & Hcalls & _ & _ & Hstart & _);
    [reflexivity|done|done| |by left|].
  - intros key Hin.
    repeat (apply elem_of_cons in Hin as [->|Hin]; [reflexivity|]).
    by apply elem_of_nil in Hin.
  - split; [exact Hstep|]. by exists tokenCalls, payload.
Defined.

(** *** PayPal return: what reaches the network *)

(** X16.  Whatever the page, the stored record and the answers are, the
    PayPal return effect calls the API only in this way: nothing at all,
    or first one capture, for the order id of the stored record and the
    PayerID of the URL, and that only on the first handling of a return
    that is not flagged as cancelled and carries a token and a PayerID.
    After the capture nothing more follows unless the capture was
    answered with a usable result, and then at most one token request and
    at most one booking creation.  So no booking is created without a
    capture that succeeded in the same run. *)
Theorem paypal_return_books_only_after_capture (cfg : Config) (env : ResumeEnv)
    (cancelled : bool) (st : State) (w : World) :
  let after := paypalReturnEffect cfg env cancelled st w in
  calls after.2 = calls w
  ∨ ∃ pb rest,
      readPendingPayPalBooking w = Some pb ∧ pb_orderId pb ≠ ""%string
      ∧ paypalReturnHandled st = false ∧ cancelledParam (location w) = false
      ∧ token (location w) ≠ ""%string ∧ payerId (location w) ≠ ""%string
      ∧ calls after.2
        = calls w ++ CapturePayPalOrder (pb_orderId pb) (payerId (location w)) :: rest
      ∧ (rest = []
         ∨ ∃ captureResult tokenCalls bookingCall,
             captureReply env = Ok captureResult ∧ usableCapture captureResult = true
             ∧ rest = tokenCalls ++ bookingCall
             ∧ (tokenCalls = [] ∨ tokenCalls = [GetSignedWidgetToken])
             ∧ (bookingCall = [] ∨ ∃ payload, bookingCall = [CreateBooking payload])).
Proof.
  intros after. unfold after, paypalReturnEffect.
  destruct (paypalReturnHandled st) eqn:Hhandled; [by left|].
  destruct (hasReturnParams (location w)); [|by left]. simpl.
  destruct (cancelledParam (location w)) eqn:Hflag; [by left|].
  destruct (readPendingPayPalBooking w) as [pb|] eqn:Hpending; [|by left].
  destruct (truthy (token (location w))) eqn:Htoken; [|by left].
  destruct (truthy (payerId (location w))) eqn:Hpayer; [|by left]. simpl.
  apply OrchestratorFacts.truthy_spec in Htoken, Hpayer.
  destruct (pendingContext pb) as [[[[order guestPayload] pendingSlot] pendingEventType]|]
    eqn:Hcontext.
  2:{ left. unfold completePayPalBooking. rewrite Hcontext. by destruct cancelled. }
  pose proof (OrchestratorFacts.pendingContext_Some _ _ _ _ _ Hcontext)
    as (-> & _ & _ & _ & Horder & _).
  right. exists pb.
  destruct (OrchestratorFacts.complete_valid cfg env pb (payerId (location w))
              (setPaypalReturnHandled true st) w _ _ _ _ Hcontext)
    as [(captureResult & Hcapture & Husable & ->)|(_ & failure & ->)].
  - set (w1 := setCalls _ w).
    pose proof (OrchestratorFacts.booking_run cfg (bookingEnv env)
                  (resumedGuestData cfg pb guestPayload (captureId captureResult))
                  (Some pendingSlot) (Some pendingEventType)
                  (setPaypalReturnHandled true st) w1) as Hrun.
    destruct (createBookingForContext _ _ _ _ _ _ _) as [[result st1] w2].
    destruct Hrun as (_ & _ & _ & tokenCalls & bookingCall & Hcalls & Htok & Hbook & _).
    simpl in Hcalls.
    exists (tokenCalls ++ bookingCall). do 6 (split; [done|]). split.
    + destruct cancelled, (resultOk result); simpl; by rewrite Hcalls, <- app_assoc.
    + right. by exists captureResult, tokenCalls, bookingCall.
  - exists []. do 6 (split; [done|]). split; [|by left].
    by destruct cancelled.
Qed.

(** X17.  A return that is not flagged as cancelled but lacks the stored
    record, the token or the PayerID is turned away on its first
    handling, whatever the host's callbacks: the effect makes no API
    call, keeps the stored record, if any, strips the callback parameters
    from the URL and marks the return as handled, so that a later run of
    the effect leaves everything as it is. *)
Theorem paypal_return_without_context_calls_nothing (host : Host.Callbacks)
    (cfg : Config) (env : ResumeEnv) (cancelled : bool) (st : State) (w : World) :
  paypalReturnHandled st = false → hasReturnParams (location w) = true →
  cancelledParam (location w) = false →
  readPendingPayPalBooking w = None ∨ token (location w) = ""%string
  ∨ payerId (location w) = ""%string →
  let after := Host.paypalReturnEffect host cfg env cancelled st w in
  calls after.2 = calls w ∧ pendingItem after.2 = pendingItem w
  ∧ localStorage after.2 = localStorage w
  ∧ location after.2 = {| token := ""; payerId := ""; cancelledParam := false |}
  ∧ paypalReturnHandled after.1 = true
  ∧ ∀ host' cfg' env' cancelled' st',
      Host.paypalReturnEffect host' cfg' env' cancelled' after.1 after.2 = after
      ∧ Host.paypalReturnEffect host' cfg' env' cancelled' st' after.2 = (st', after.2).
Proof.
  intros Hfresh Hparams Hflag Hmissing after.
  assert (Hafter : ∃ message,
            after = (setError (Some message) (setPaypalReturnHandled true st),
                     clearPayPalReturnParams w)).
  { unfold after, Host.paypalReturnEffect. rewrite Hfresh, Hparams, Hflag. simpl.
    destruct (readPendingPayPalBooking w) as [pb|] eqn:Hpending; [|by eexists].
    destruct Hmissing as [?|[Hm|Hm]]; [done|..];
      apply OrchestratorFacts.truthy_false in Hm; rewrite Hm; simpl.
    - by eexists.
    - rewrite orb_true_r. by eexists. }
  destruct Hafter as [message Hafter]. rewrite Hafter. cbn [fst snd].
  do 5 (split; [done|]).
  intros host' cfg' env' cancelled' st'. split.
  - by apply HostFacts.host_already_handled.
  - by apply HostFacts.host_no_return_params.
Qed.

Lemma paypal_return_without_context_calls_nothing_witness :
  let cfg := testConfig (Some paidIntroCall) in
  let after := Host.paypalReturnEffect Host.noCallbacks cfg testResume false
                 (initialState cfg) (returnPage "EC-7" "" false) in
  calls after.2 = [] ∧ pendingItem after.2 = Some pendingOrd1
  ∧ location after.2 = {| token := ""; payerId := ""; cancelledParam := false |}.
Proof.
  intros cfg after.
  destruct (paypal_return_without_context_calls_nothing Host.noCallbacks cfg testResume
              false (initialState cfg) (returnPage "EC-7" "" false))
    as (Hcalls & Hpending & _ & Hlocation & _);
    [reflexivity|reflexivity|reflexivity|right; by right|].
  by repeat split.
Defined.

(** *** Slot loading *)

(** X18.  A slot request that fails leaves the slots on show and the
    cache exactly as they were, so that no partial or stale answer is
    stored; the message of the failure, or a default one, becomes the
    error, and [isLoadingSlots] is lowered again.  Without an event type
    that has an id, [loadSlots] does nothing at all. *)
Theorem failed_slot_fetch_keeps_cache (cfg : Config) (env : SlotsEnv) (force : bool)
    (st : State) (w : World) (requestError : ApiError) :
  slotsReply env = Failed requestError →
  let after := loadSlots cfg env force st w in
  availabilityCache after.1 = availabilityCache st
  ∧ eventType after.1 = eventType st ∧ step after.1 = step st
  ∧ selectedSlot after.1 = selectedSlot st
  ∧ (calls after.2 = calls w
     ∨ (∃ et, eventType st = Some et ∧ et_id et ≠ ""%string
              ∧ calls after.2
                = calls w ++ [GetSlots (et_id et) (startDate env) (endDate env)
                                (userTimezone cfg)])
       ∧ slots after.1 = slots st
       ∧ (∃ message, error after.1 = Some message ∧ message ≠ ""%string
                     ∧ (e_message requestError ≠ ""%string →
                        message = e_message requestError))
       ∧ isLoadingSlots after.1 = false)
  ∧ ((∀ et, eventType st = Some et → et_id et = ""%string) → after = (st, w)).
Proof.
  intros Hreply after. unfold after, loadSlots.
  destruct (eventType st) as [et|] eqn:Het; [|by repeat split; try left].
  destruct (truthy (et_id et)) eqn:Hid; simpl.
  2:{ repeat split; try done. by left. }
  apply OrchestratorFacts.truthy_spec in Hid.
  set (key := cacheKey _ _ _ _).
  destruct (if force then None else _) as [cacheEntry|].
  { simpl. rewrite Het. do 4 (split; [done|]). split; [by left|].
    intros Hnone. by destruct Hid; apply Hnone. }
  rewrite Hreply. simpl. rewrite Het. do 4 (split; [done|]). split.
  - right. split; [by exists et|]. split; [done|]. split; [|done].
    exists (str_or (e_message requestError) "Failed to load available slots.").
    split; [done|]. unfold str_or.
    destruct (decide (e_message requestError = ""%string)); by split.
  - intros Hnone. by destruct Hid; apply Hnone.
Qed.

Lemma failed_slot_fetch_keeps_cache_witness :
  let env := {| startDate := "2026-05-10"; endDate := "2026-05-24"; nowAtCheck := 1000;
                slotsReply := Failed slotConflict; nowAtReply := 1200 |} in
  let after := loadSlots (testConfig None) env true cachedState (world idleSystem) in
  availabilityCache after.1 = availabilityCache cachedState
  ∧ error after.1 = Some "Slot no longer available"%string.
Proof.
  intros env after.
  destruct (failed_slot_fetch_keeps_cache (testConfig None) env true cachedState
              (world idleSystem) slotConflict eq_refl)
    as (Hcache & _ & _ & _ & [Hquiet|(_ & _ & (message & Herror & _ & Hmessage) & _)] & _).
  - by vm_compute in Hquiet.
  - split; [exact Hcache|]. fold after in Herror. rewrite Herror. f_equal. by apply Hmessage.
Defined.

(** *** Error normalization *)

(** X19.  [normalizeBookingError] keeps the status, the code and the retry
    delay of an error and gives it a message that is never empty.  The
    alternatives survive only for a slot conflict and for an error of no
    known kind; an offline error, a 429, a locked slot and the two
    template errors come out without alternatives.  Normalizing twice is
    the same as normalizing once. *)
Theorem normalize_booking_error_idempotent (failure : ApiError) :
  let normalized := normalizeBookingError failure in
  normalizeBookingError normalized = normalized
  ∧ e_message normalized ≠ ""%string
  ∧ e_status normalized = e_status failure ∧ e_code normalized = e_code failure
  ∧ e_retryAfter normalized = e_retryAfter failure
  ∧ (e_alternatives normalized = e_alternatives failure ∨ e_alternatives normalized = [])
  ∧ (e_code failure = "OFFLINE"%string ∨ e_status failure = Some 429
     ∨ e_code failure = "SLOT_LOCKED"%string ∨ e_code failure = "TEMPLATE_INVALID"%string
     ∨ e_code failure = "NO_SAVED_TEMPLATE"%string →
     e_alternatives normalized = [])
  ∧ (e_code failure = "SLOT_CONFLICT"%string → e_status failure ≠ Some 429 →
     e_alternatives normalized = e_alternatives failure
     ∧ e_message normalized
       = "That slot was booked moments ago. Please choose another available time."%string).
Proof.
  intros normalized.
  assert (Hor : ∀ message fallback,
    fallback ≠ ""%string → str_or (str_or message fallback) fallback = str_or message fallback).
  { intros message fallback Hf. unfold str_or.
    destruct (decide (message = ""%string)) as [->|Hm].
    - by destruct (decide (fallback = ""%string)).
    - by destruct (decide (message = ""%string)). }
  split; [|split; [apply normalized_message|]].
  { unfold normalized, normalizeBookingError.
    destruct (String.eqb (e_code failure) "OFFLINE") eqn:H1; simpl; [by rewrite H1|].
    destruct (bool_decide (e_status failure = Some 429)) eqn:H2; simpl.
    { rewrite H1, H2. reflexivity. }
    destruct (String.eqb (e_code failure) "SLOT_CONFLICT") eqn:H3; simpl.
    { by rewrite H1, H2, H3. }
    destruct (String.eqb (e_code failure) "SLOT_LOCKED") eqn:H4; simpl.
    { by rewrite H1, H2, H3, H4. }
    destruct (String.eqb (e_code failure) "TEMPLATE_INVALID") eqn:H5; simpl.
    { rewrite H1, H2, H3, H4, H5. unfold withMessage. simpl. by rewrite Hor. }
    destruct (String.eqb (e_code failure) "NO_SAVED_TEMPLATE") eqn:H6; simpl.
    { by rewrite H1, H2, H3, H4, H5, H6. }
    rewrite H1, H2, H3, H4, H5, H6. unfold withMessage. simpl. by rewrite Hor. }
  unfold normalized, normalizeBookingError.
  destruct (String.eqb (e_code failure) "OFFLINE") eqn:H1.
  { simpl. do 3 (split; [done|]). split; [by right|]. split; [done|].
    intros Hc. rewrite Hc in H1. done. }
  destruct (bool_decide (e_status failure = Some 429)) eqn:H2.
  { simpl. do 3 (split; [done|]). split; [by right|]. split; [done|].
    intros _ Hs. by apply bool_decide_eq_true in H2. }
  apply String.eqb_neq in H1. apply bool_decide_eq_false in H2.
  destruct (String.eqb (e_code failure) "SLOT_CONFLICT") eqn:H3.
  { simpl. apply String.eqb_eq in H3. do 3 (split; [done|]). split; [by left|]. split; [|done].
    intros [?|[?|[Hc|[Hc|Hc]]]]; try done; by rewrite H3 in Hc. }
  apply String.eqb_neq in H3.
  destruct (String.eqb (e_code failure) "SLOT_LOCKED") eqn:H4.
  { simpl. do 3 (split; [done|]). split; [by right|]. by split. }
  apply String.eqb_neq in H4.
  destruct (String.eqb (e_code failure) "TEMPLATE_INVALID") eqn:H5.
  { simpl. do 3 (split; [done|]). split; [by right|]. by split. }
  apply String.eqb_neq in H5.
  destruct (String.eqb (e_code failure) "NO_SAVED_TEMPLATE") eqn:H6.
  { simpl. do 3 (split; [done|]). split; [by right|]. by split. }
  apply String.eqb_neq in H6.
  simpl. do 3 (split; [done|]). split; [by left|]. split; [|done].
  intros [?|[?|[?|[?|?]]]]; done.
Qed.

(** *** Starting over *)

(** X20.  [restartAfterSuccess] forgets the confirmed booking, the
    selected slot and the active template and clears the error state.  In
    an embed for a single event (selection mode single, an event slug or
    an event type handed in) the flow goes to SELECT_TIME with its event
    type and the slots are requested again from the network, whatever the
    cache holds; in every other embed the flow goes to SELECT_EVENT with
    no event type and no request is made. *)
Theorem restart_after_success_refetches (cfg : Config) (env : SlotsEnv)
    (st : State) (w : World) :
  let after := restartAfterSuccess cfg env st w in
  let single :=
    selection_mode st = "single"%string ∨ eventSlug cfg ≠ ""%string
    ∨ is_Some (providedEventType cfg) in
  confirmedBooking after.1 = None ∧ selectedSlot after.1 = None
  ∧ activeTemplate after.1 = None ∧ alternatives after.1 = []
  ∧ (single →
     step after.1 = SELECT_TIME ∧ eventType after.1 = eventType st
     ∧ ∀ et, eventType st = Some et → et_id et ≠ ""%string →
         calls after.2
         = calls w ++ [GetSlots (et_id et) (startDate env) (endDate env) (userTimezone cfg)])
  ∧ (¬ single →
     step after.1 = SELECT_EVENT ∧ eventType after.1 = None ∧ error after.1 = None
     ∧ after.2 = w).
Proof.
  intros after single. unfold after, restartAfterSuccess.
  set (st1 := clearBookingError (setActiveTemplate None
                (setSelectedSlot None (setConfirmedBooking None st)))).
  assert (Hsingle : String.eqb (selection_mode st) "single" || truthy (eventSlug cfg)
                    || bool_decide (is_Some (providedEventType cfg)) = true ↔ single).
  { unfold single. rewrite !orb_true_iff, String.eqb_eq, OrchestratorFacts.truthy_spec,
      bool_decide_eq_true. tauto. }
  destruct (String.eqb (selection_mode st) "single" || truthy (eventSlug cfg)
            || bool_decide (is_Some (providedEventType cfg))) eqn:Hmode.
  - assert (Hs : single) by by apply Hsingle.
    assert (Hframe : ∀ force s w0,
      confirmedBooking (loadSlots cfg env force s w0).1 = confirmedBooking s
      ∧ selectedSlot (loadSlots cfg env force s w0).1 = selectedSlot s
      ∧ activeTemplate (loadSlots cfg env force s w0).1 = activeTemplate s
      ∧ alternatives (loadSlots cfg env force s w0).1 = alternatives s
      ∧ step (loadSlots cfg env force s w0).1 = step s
      ∧ eventType (loadSlots cfg env force s w0).1 = eventType s).
    { intros force s w0. unfold loadSlots.
      destruct (eventType s) as [et|] eqn:Het; [|by repeat split].
      destruct (negb (truthy (et_id et))); [by repeat split|].
      destruct (if force then None else _); simpl; [by repeat split|].
      destruct (slotsReply env); simpl; by repeat split. }
    destruct (Hframe true (setStep SELECT_TIME st1) w) as (-> & -> & -> & -> & -> & ->).
    do 4 (split; [done|]). split; [|done].
    intros _. split; [done|]. split; [done|].
    intros et Het Hid.
    by destruct (OrchestratorFacts.load_miss cfg env true (setStep SELECT_TIME st1) w et
                   Het Hid (or_introl eq_refl)) as [? _].
  - assert (Hs : ¬ single) by (intros Hs; apply Hsingle in Hs; congruence).
    do 4 (split; [done|]). split; [done|]. by intros _.
Qed.

(** *** Templates *)

(** X21.  The preferred template is one of the templates on offer: the
    first one that is flagged as default when there is one, the first of
    the list otherwise; and there is none exactly when the list is
    empty. *)
Theorem preferred_template_is_an_option (templates : list Template) :
  (pickPreferredTemplate templates = None ↔ templates = [])
  ∧ ∀ picked, pickPreferredTemplate templates = Some picked →
      picked ∈ templates
      ∧ (is_default picked = true
         → ∃ before after, templates = before ++ picked :: after
                           ∧ ∀ t, t ∈ before → is_default t = false)
      ∧ (is_default picked = false
         → head templates = Some picked ∧ ∀ t, t ∈ templates → is_default t = false).
Proof.
  split.
  { destruct templates; simpl; by split. }
  intros picked Hpick. unfold pickPreferredTemplate in Hpick.
  destruct templates as [|first rest]; [done|].
  assert (Hfind : ∀ l found, List.find is_default l = Some found →
            is_default found = true
            ∧ ∃ before after, l = before ++ found :: after
                              ∧ ∀ t, t ∈ before → is_default t = false).
  { induction l as [|x l IH]; intros found; [done|]. simpl.
    destruct (is_default x) eqn:Hx.
    - intros [= <-]. split; [done|]. exists [], l. split; [done|].
      intros t Ht. by apply elem_of_nil in Ht.
    - intros Hf. destruct (IH _ Hf) as (Hd & before & after & -> & Hb).
      split; [done|]. exists (x :: before), after. split; [done|].
      intros t Ht. apply elem_of_cons in Ht as [->|Ht]; [done|by apply Hb]. }
  assert (Hnone : ∀ l, List.find is_default l = None → ∀ t, t ∈ l → is_default t = false).
  { induction l as [|x l IH]; intros Hf t Ht; [by apply elem_of_nil in Ht|].
    simpl in Hf. destruct (is_default x) eqn:Hx; [done|].
    apply elem_of_cons in Ht as [->|Ht]; [done|by apply IH]. }
  destruct (List.find is_default (first :: rest)) as [found|] eqn:Hf;
    simpl in Hpick; injection Hpick as <-.
  - destruct (Hfind _ _ Hf) as (Hd & before & after & Hsplit & Hb).
    split; [rewrite Hsplit; apply elem_of_app; right; by left|].
    split; [intros _; by exists before, after|].
    intros Hno. congruence.
  - split; [by left|]. split.
    + intros Hd. by rewrite (Hnone _ Hf first ltac:(by left)) in Hd.
    + intros _. split; [done|]. by apply Hnone.
Qed.

End FlowFacts.

(* ===================================================================== *)
(** * Further properties of the form engine *)
(* ===================================================================== *)

Module ValidationFacts.
Import FormEngine ObjectFacts.

Section Validation.

Variable urlParses : string → bool.

(** What one field may add to the errors. *)
Lemma validateField_adds answers errs field id message :
  validateField urlParses answers errs field !! id = Some message →
  errs !! id = Some message
  ∨ (f_id field = id ∧ isFieldVisible field answers = true
     ∧ ((message = "This field is required"%string ∧ f_required field = true
         ∧ emptyAnswer (readAnswer answers id) = true)
        ∨ (falsyAnswer (readAnswer answers id) = false
           ∧ ((message = "Please enter a valid email address"%string ∧ f_type field = Email
               ∧ emailRegex (answerText (readAnswer answers id)) = false)
              ∨ (message = "Please enter a valid URL"%string ∧ f_type field = Url
                 ∧ urlParses (answerText (readAnswer answers id)) = false)
              ∨ (message = "Please enter a valid phone number"%string ∧ f_type field = Phone
                 ∧ phoneRegex (answerText (readAnswer answers id)) = false))))).
Proof.
  unfold validateField.
  destruct (isFieldVisible field answers) eqn:Hv; simpl; [|by left].
  assert (Hins : ∀ (m : gmap string string) text,
    assignProperty (f_id field) text m !! id = Some message →
    m !! id = Some message ∨ (f_id field = id ∧ message = text)).
  { intros m text H.
    destruct (assign_cases (f_id field) text m) as [Heq|(_ & _ & Heq)];
      rewrite Heq in H; [|by left].
    destruct (decide (f_id field = id)) as [Hid|Hne].
    - rewrite Hid, lookup_insert_eq in H. injection H as <-. by right.
    - rewrite lookup_insert_ne in H by done. by left. }
  destruct (f_required field) eqn:Hr; simpl.
  - destruct (emptyAnswer (readAnswer answers (f_id field))) eqn:He.
    + intros H. apply Hins in H as [H|[<- ->]]; [by left|].
      right. split; [done|]. split; [done|]. left. by split.
    + assert (Hf : falsyAnswer (readAnswer answers (f_id field)) = false).
      { unfold emptyAnswer in He. by apply orb_false_elim in He as [? _]. }
      rewrite Hf.
      destruct (f_type field) eqn:Ht; simpl; try (by left);
        match goal with
        | |- context [if ?b then _ else _] => destruct b eqn:Hb
        end; try (by left);
        intros H; apply Hins in H as [H|[<- ->]]; try (by left);
        right; (split; [done|]); (split; [done|]); right; (split; [done|]).
      * left. by split.
      * right. right. by split.
      * right. left. by split.
  - destruct (falsyAnswer (readAnswer answers (f_id field))) eqn:Hf; [by left|].
    destruct (f_type field) eqn:Ht; simpl; try (by left);
      match goal with
      | |- context [if ?b then _ else _] => destruct b eqn:Hb
      end; try (by left);
      intros H; apply Hins in H as [H|[<- ->]]; try (by left);
      right; (split; [done|]); (split; [done|]); right; (split; [done|]).
    + left. by split.
    + right. right. by split.
    + right. left. by split.
Qed.

Lemma validate_adds answers fields : ∀ errs id message,
  foldl (validateField urlParses answers) errs fields !! id = Some message →
  errs !! id = Some message
  ∨ ∃ field, field ∈ fields ∧ f_id field = id ∧ isFieldVisible field answers = true
      ∧ ((message = "This field is required"%string ∧ f_required field = true
          ∧ emptyAnswer (readAnswer answers id) = true)
         ∨ (falsyAnswer (readAnswer answers id) = false
            ∧ ((message = "Please enter a valid email address"%string ∧ f_type field = Email
                ∧ emailRegex (answerText (readAnswer answers id)) = false)
               ∨ (message = "Please enter a valid URL"%string ∧ f_type field = Url
                  ∧ urlParses (answerText (readAnswer answers id)) = false)
               ∨ (message = "Please enter a valid phone number"%string ∧ f_type field = Phone
                  ∧ phoneRegex (answerText (readAnswer answers id)) = false)))).
Proof.
  induction fields as [|field fields IH]; intros errs id message H; [by left|].
  simpl in H. apply IH in H as [H|(other & Hin & Hrest)].
  - apply validateField_adds in H as [H|H]; [by left|].
    right. exists field. split; [by left|]. exact H.
  - right. exists other. split; [by right|]. exact Hrest.
Qed.

End Validation.

(** X22.  Every error that [validateFormAnswers] reports stands under the
    id of a field of the schema that is visible for these answers, and
    says what is wrong with the value that the code reads under that id
    (the answer given or, where none was given and [Object.prototype] has
    a property of that name, that property): "required" only for a
    required field whose value is empty, and a format message only for a
    value that is not falsy, in an e-mail, URL or phone field, and fails
    the check of that type.  No error is reported under ["__proto__"].
    The result is valid exactly when there is no error. *)
Theorem validation_blames_visible_fields_only (urlParses : string → bool)
    (fields : list Field) (answers : gmap string Answer) :
  let result := validateFormAnswers urlParses fields answers in
  (isValid result = true ↔ errors result = ∅)
  ∧ errors result !! "__proto__"%string = None
  ∧ ∀ id message, errors result !! id = Some message →
      ∃ field, field ∈ fields ∧ f_id field = id ∧ isFieldVisible field answers = true
        ∧ ((message = "This field is required"%string ∧ f_required field = true
            ∧ emptyAnswer (readAnswer answers id) = true)
           ∨ (falsyAnswer (readAnswer answers id) = false
              ∧ ((message = "Please enter a valid email address"%string
                  ∧ f_type field = Email
                  ∧ emailRegex (answerText (readAnswer answers id)) = false)
                 ∨ (message = "Please enter a valid URL"%string ∧ f_type field = Url
                    ∧ urlParses (answerText (readAnswer answers id)) = false)
                 ∨ (message = "Please enter a valid phone number"%string
                    ∧ f_type field = Phone
                    ∧ phoneRegex (answerText (readAnswer answers id)) = false)))).
Proof.
  intros result. split; [|split].
  - unfold result, validateFormAnswers. simpl. apply bool_decide_eq_true.
  - unfold result, validateFormAnswers. simpl.
    by apply FormEngineFacts.validate_proto.
  - intros id message H. unfold result, validateFormAnswers in H. simpl in H.
    apply validate_adds in H as [H|H]; [by rewrite lookup_empty in H|done].
Qed.

(** X23.  While the value read under the id of every field of a schema is
    falsy (nothing answered, and no id that names a property of
    [Object.prototype] left without an answer of its own), and no field
    has the id ["__proto__"], the form is valid exactly when none of the
    fields that are visible is required; and an error then always reads
    "This field is required". *)
Theorem unanswered_form_valid_iff_nothing_required (urlParses : string → bool)
    (fields : list Field) (answers : gmap string Answer) :
  (∀ field, field ∈ fields → falsyAnswer (readAnswer answers (f_id field)) = true) →
  (∀ field, field ∈ fields → f_id field ≠ "__proto__"%string) →
  let result := validateFormAnswers urlParses fields answers in
  (isValid result = true
   ↔ ∀ field, field ∈ fields → isFieldVisible field answers = true →
              f_required field = false)
  ∧ ∀ id message, errors result !! id = Some message →
                  message = "This field is required"%string.
Proof.
  intros Hblank Hids result.
  assert (Herrors : ∀ id message, errors result !! id = Some message →
            ∃ field, field ∈ fields ∧ f_id field = id
                     ∧ isFieldVisible field answers = true
                     ∧ message = "This field is required"%string
                     ∧ f_required field = true).
  { intros id message H. unfold result, validateFormAnswers in H. simpl in H.
    apply (validate_adds urlParses) in H as [H|(field & Hin & Hid & Hv & Hwhy)];
      [by rewrite lookup_empty in H|].
    exists field. do 3 (split; [done|]).
    destruct Hwhy as [(-> & Hr & _)|[Hgiven _]]; [done|].
    rewrite <- Hid, (Hblank field Hin) in Hgiven. done. }
  split.
  - unfold result, validateFormAnswers. cbn [isValid]. rewrite bool_decide_eq_true. split.
    + intros Hnone field Hin Hv.
      destruct (f_required field) eqn:Hr; [|done]. exfalso.
      assert (Hsome : is_Some (foldl (validateField urlParses answers) ∅ fields !! f_id field)).
      { clear Hnone Herrors result.
        assert (Hgen : ∀ errs, is_Some (foldl (validateField urlParses answers) errs fields
                                         !! f_id field)).
        { induction fields as [|other rest IH]; intros errs;
            [by apply elem_of_nil in Hin|].
          simpl. apply elem_of_cons in Hin as [<-|Hin].
          - apply FormEngineFacts.validate_keeps.
            rewrite FormEngineFacts.validateField_required; [|done|done|].
            + rewrite assign_ordinary by (apply Hids; by left).
              rewrite lookup_insert_eq. by eexists.
            + unfold emptyAnswer. rewrite Hblank; [done|by left].
          - apply IH; [| |done].
            + intros f Hf. apply Hblank. by right.
            + intros f Hf. apply Hids. by right. }
        apply Hgen. }
      rewrite Hnone, lookup_empty in Hsome. by destruct Hsome.
    + intros Hfree. apply map_eq. intros id. rewrite lookup_empty.
      destruct (foldl (validateField urlParses answers) ∅ fields !! id) as [message|] eqn:H;
        [|done].
      destruct (Herrors id message H) as (field & Hin & _ & Hv & _ & Hr).
      rewrite (Hfree field Hin Hv) in Hr. done.
  - intros id message H. by destruct (Herrors id message H) as (_ & _ & _ & _ & -> & _).
Qed.

Lemma unanswered_form_valid_iff_nothing_required_witness :
  isValid (validateFormAnswers (λ _, true) [fieldF2 true] ∅) = true
  ∧ isValid (validateFormAnswers (λ _, true) [fieldF2 false] ∅) = false.
Proof.
  split.
  - destruct (unanswered_form_valid_iff_nothing_required (λ _, true) [fieldF2 true] ∅)
      as [[_ Hfrom] _].
    + intros field Hin. by apply list_elem_of_singleton in Hin as ->.
    + intros field Hin. by apply list_elem_of_singleton in Hin as ->.
    + apply Hfrom. intros field Hin Hv. apply list_elem_of_singleton in Hin as ->. done.
  - destruct (unanswered_form_valid_iff_nothing_required (λ _, true) [fieldF2 false] ∅)
      as [[Hto _] _].
    + intros field Hin. by apply list_elem_of_singleton in Hin as ->.
    + intros field Hin. by apply list_elem_of_singleton in Hin as ->.
    + destruct (isValid (validateFormAnswers (λ _, true) [fieldF2 false] ∅)); [|done].
      specialize (Hto eq_refl (fieldF2 false) ltac:(by left) eq_refl). done.
Defined.

(** *** Conditions *)

(** X24.  The operators come in complementary pairs: on every answer
    mapping [not_equals] holds exactly when [equals] fails, and
    [is_not_empty] exactly when [is_empty] fails.  So of two fields that
    are shown on such a pair of conditions, with the same field and
    value, exactly one is visible. *)
Theorem complementary_conditions_split_visibility (answers : gmap string Answer)
    (fieldId value : string) (shown hidden : Field) (positive negative : Operator) :
  (positive = Equals ∧ negative = NotEquals)
  ∨ (positive = IsEmpty ∧ negative = IsNotEmpty) →
  f_conditional shown
  = Some {| show := true;
            conditions := [{| c_fieldId := fieldId; c_operator := positive;
                              c_value := value |}] |} →
  f_conditional hidden
  = Some {| show := true;
            conditions := [{| c_fieldId := fieldId; c_operator := negative;
                              c_value := value |}] |} →
  conditionHolds answers {| c_fieldId := fieldId; c_operator := negative; c_value := value |}
  = negb (conditionHolds answers
            {| c_fieldId := fieldId; c_operator := positive; c_value := value |})
  ∧ isFieldVisible hidden answers = negb (isFieldVisible shown answers).
Proof.
  intros Hpair Hshown Hhidden.
  assert (Hneg : conditionHolds answers
                   {| c_fieldId := fieldId; c_operator := negative; c_value := value |}
                 = negb (conditionHolds answers
                           {| c_fieldId := fieldId; c_operator := positive;
                              c_value := value |})).
  { unfold conditionHolds. cbn [c_fieldId c_operator c_value].
    destruct Hpair as [[-> ->]|[-> ->]];
      by destruct (readAnswer answers fieldId) as [|[s|items]|text]. }
  split; [exact Hneg|].
  unfold isFieldVisible. rewrite Hshown, Hhidden.
  cbn [show conditions negb forallb]. by rewrite !andb_true_r.
Qed.

Lemma complementary_conditions_split_visibility_witness :
  let other :=
    {| f_id := "F3"; f_type := ShortText; f_required := false;
       f_conditional :=
         Some {| show := true;
                 conditions := [{| c_fieldId := "F1"; c_operator := NotEquals;
                                   c_value := "yes" |}] |} |} in
  isFieldVisible (fieldF2 true) {["F1" := AStr "yes"]} = true
  ∧ isFieldVisible other {["F1" := AStr "yes"]} = false.
Proof.
  intros other.
  destruct (complementary_conditions_split_visibility {["F1" := AStr "yes"]} "F1" "yes"
              (fieldF2 true) other Equals NotEquals) as [_ Hvis];
    [by left|reflexivity|reflexivity|].
  assert (Hshown : isFieldVisible (fieldF2 true) {["F1" := AStr "yes"]} = true)
    by reflexivity.
  split; [exact Hshown|]. by rewrite Hvis, Hshown.
Defined.

End ValidationFacts.

(* ===================================================================== *)
(** * The two e-mail checks *)
(* ===================================================================== *)

Module EmailFacts.
Import FormEngine BookingForm.

Lemma plain_char c :
  plainChar c = true →
  isSpace c = false ∧ isLineTerminator c = false ∧ Ascii.eqb c "@" = false.
Proof.
  unfold plainChar, isSpace, isLineTerminator. intros H.
  apply andb_prop in H as [Hs Ha]. apply negb_true_iff in Hs, Ha.
  split; [done|]. split; [|done].
  set (n := nat_of_ascii c) in *.
  apply orb_false_elim in Hs as [Hrange H32].
  destruct (Nat.eqb n 10) eqn:H10.
  { apply Nat.eqb_eq in H10. rewrite H10 in Hrange. done. }
  destruct (Nat.eqb n 13) eqn:H13; [|done].
  apply Nat.eqb_eq in H13. rewrite H13 in Hrange. done.
Qed.

Lemma splitAt_spec sep text before after :
  splitAt sep text = Some (before, after) →
  text = (before +:+ String sep after)%string
  ∧ allChars (λ c, negb (Ascii.eqb c sep)) before = true.
Proof.
  revert before. induction text as [|c text IH]; intros before; [done|]. simpl.
  destruct (Ascii.eqb c sep) eqn:Hc.
  - intros [= <- <-]. apply Ascii.eqb_eq in Hc as ->. done.
  - destruct (splitAt sep text) as [[b a]|]; [|done].
    intros [= <- <-]. destruct (IH b eq_refl) as [-> Hb].
    split; [done|]. simpl. by rewrite Hc, Hb.
Qed.

Lemma allChars_app p a b : allChars p (a +:+ b) = allChars p a && allChars p b.
Proof.
  induction a as [|c a IH]; [done|].
  change (String c a +:+ b)%string with (String c (a +:+ b)). simpl.
  by rewrite IH, andb_assoc.
Qed.

Lemma allChars_impl (p q : ascii → bool) s :
  (∀ c, p c = true → q c = true) → allChars p s = true → allChars q s = true.
Proof.
  intros Hpq. induction s as [|c s IH]; [done|]. simpl.
  intros H. apply andb_prop in H as [Hc Hs]. by rewrite (Hpq c Hc), IH.
Qed.

(** [trim] leaves a string without blanks as it is. *)
Lemma trimStart_chars s :
  allChars (λ c, negb (isSpace c)) s = true → trimStart s = s.
Proof.
  destruct s as [|c s]; [done|]. simpl. intros H.
  apply andb_prop in H as [Hc _]. apply negb_true_iff in Hc. by rewrite Hc.
Qed.

Lemma allChars_of_list p l :
  allChars p (string_of_list_ascii l) = forallb p l.
Proof. induction l as [|c l IH]; [done|]. simpl. by rewrite IH. Qed.

Lemma allChars_reverse p s : allChars p (reverse s) = allChars p s.
Proof.
  unfold reverse. rewrite allChars_of_list.
  rewrite <- (string_of_list_ascii_of_string s) at 2. rewrite allChars_of_list.
  generalize (list_ascii_of_string s). intros l.
  induction l as [|c l IH]; [done|]. simpl.
  rewrite forallb_app, IH. simpl. rewrite andb_true_r. apply andb_comm.
Qed.

Lemma reverse_involutive s : reverse (reverse s) = s.
Proof.
  unfold reverse. rewrite list_ascii_of_string_of_list_ascii, rev_involutive.
  apply string_of_list_ascii_of_string.
Qed.

Lemma trim_chars s : allChars (λ c, negb (isSpace c)) s = true → trim s = s.
Proof.
  intros H. unfold trim. rewrite (trimStart_chars s H).
  rewrite trimStart_chars by by rewrite allChars_reverse.
  apply reverse_involutive.
Qed.

(** The scan, state by state. *)
Lemma scan_user user domain :
  allChars plainChar user = true →
  emailScan 1 (user +:+ String "@" domain) = emailScan 2 domain.
Proof.
  induction user as [|c user IH]; [done|].
  change (String c user +:+ String "@" domain)%string
    with (String c (user +:+ String "@" domain)).
  simpl. intros H. apply andb_prop in H as [Hc Hu].
  destruct (plain_char c Hc) as (_ & -> & ->). by apply IH.
Qed.

Lemma innerDot_step c x rest :
  innerDot (String c (String x rest))
  = if Ascii.eqb x "." then (match rest with
                             | EmptyString => false
                             | String _ _ => true
                             end)
    else innerDot (String x rest).
Proof.
  destruct (Ascii.eqb x ".") eqn:Hx.
  - apply Ascii.eqb_eq in Hx as ->. by destruct rest.
  - destruct x as [[] [] [] [] [] [] [] []]; try done; by destruct rest.
Qed.

Lemma scan_domain domain : ∀ c,
  allChars plainChar domain = true → innerDot (String c domain) = true →
  emailScan 3 domain = true.
Proof.
  induction domain as [|x rest IH]; intros c Hplain Hdot; [done|].
  simpl in Hplain. apply andb_prop in Hplain as [Hx Hrest].
  destruct (plain_char x Hx) as (_ & Hlt & _).
  rewrite innerDot_step in Hdot.
  cbn [emailScan]. rewrite Hlt.
  destruct (Ascii.eqb x ".") eqn:Hd.
  - destruct rest as [|y rest]; [done|].
    simpl in Hrest. apply andb_prop in Hrest as [Hy _].
    destruct (plain_char y Hy) as (_ & Hlty & _).
    cbn [emailScan]. by rewrite Hlty.
  - by apply (IH x).
Qed.

(** X25.  The check of the contact e-mail in the booking form is the
    weaker of the two e-mail checks: whatever the e-mail field of a
    custom form accepts, the booking form accepts as the guest's
    address; and what the e-mail field accepts has no blank in it, one
    [@], a name before it, and after it a dot with a character on
    either side. *)
Theorem form_email_check_implies_contact_check (text : string) :
  emailRegex text = true →
  isValidEmail text = true
  ∧ ∃ user domain,
      text = (user +:+ String "@" domain)%string ∧ user ≠ ""%string
      ∧ allChars plainChar user = true ∧ allChars plainChar domain = true
      ∧ innerDot domain = true.
Proof.
  unfold emailRegex. intros H.
  destruct (splitAt "@" text) as [[user domain]|] eqn:Hsplit; [|done].
  apply andb_prop in H as [H Hdot]. apply andb_prop in H as [H Hdomain].
  apply andb_prop in H as [Hne Huser].
  destruct (splitAt_spec _ _ _ _ Hsplit) as [-> _].
  assert (Hu : user ≠ ""%string).
  { intros ->. done. }
  split; [|by exists user, domain].
  unfold isValidEmail. rewrite trim_chars.
  - destruct user as [|c user]; [done|].
    change (String c user +:+ String "@" domain)%string
      with (String c (user +:+ String "@" domain)).
    simpl in Huser. apply andb_prop in Huser as [Hc Huser].
    destruct (plain_char c Hc) as (_ & Hlt & _).
    cbn [emailScan]. rewrite Hlt, (scan_user _ _ Huser).
    destruct domain as [|d domain]; [done|].
    simpl in Hdomain. apply andb_prop in Hdomain as [Hd Hdomain].
    destruct (plain_char d Hd) as (_ & Hltd & _).
    cbn [emailScan]. rewrite Hltd. by apply (scan_domain domain d).
  - rewrite allChars_app. apply andb_true_intro. split.
    + apply (allChars_impl plainChar); [|done].
      intros c Hc. by destruct (plain_char c Hc) as (-> & _).
    + simpl. apply (allChars_impl plainChar); [|done].
      intros c Hc. by destruct (plain_char c Hc) as (-> & _).
Qed.

Lemma form_email_check_implies_contact_check_witness :
  emailRegex "jane@example.com" = true ∧ isValidEmail "jane@example.com" = true.
Proof.
  split; [reflexivity|].
  by destruct (form_email_check_implies_contact_check "jane@example.com" eq_refl).
Defined.

End EmailFacts.

(* ===================================================================== *)
(** * Further properties of the booking form *)
(* ===================================================================== *)

Module CheckoutFacts.
Import Model BookingForm Checkout.

(** A visible required field whose value reads as empty is reported, under
    every id but ["__proto__"]. *)
Lemma required_field_reported urlParses answers (field : FormEngine.Field) fields :
  field ∈ fields → FormEngine.isFieldVisible field answers = true →
  FormEngine.f_required field = true →
  FormEngine.emptyAnswer (FormEngine.readAnswer answers (FormEngine.f_id field)) = true →
  FormEngine.f_id field ≠ "__proto__"%string →
  is_Some (FormEngine.errors (FormEngine.validateFormAnswers urlParses fields answers)
           !! FormEngine.f_id field).
Proof.
  intros Hin Hv Hr He Hid. unfold FormEngine.validateFormAnswers. simpl.
  generalize (∅ : gmap string string).
  induction fields as [|other rest IH]; intros errs; [by apply elem_of_nil in Hin|].
  simpl. apply elem_of_cons in Hin as [<-|Hin].
  - apply FormEngineFacts.validate_keeps.
    rewrite FormEngineFacts.validateField_required by done.
    rewrite ObjectFacts.assign_ordinary by done.
    rewrite lookup_insert_eq. by eexists.
  - by apply IH.
Qed.

Lemma union_is_Some_l (a b : gmap string string) k : is_Some (a !! k) → is_Some ((a ∪ b) !! k).
Proof. intros [v Hv]. exists v. by apply lookup_union_Some_l. Qed.

Lemma union_is_Some_r (a b : gmap string string) k : is_Some (b !! k) → is_Some ((a ∪ b) !! k).
Proof.
  intros [v Hv]. destruct (a !! k) as [v'|] eqn:Ha.
  - exists v'. by apply lookup_union_Some_l.
  - exists v. by rewrite lookup_union_r.
Qed.

(** X26.  A form that is not ready is never submitted.  When the name is
    blank, the e-mail does not pass the check, or a required field of the
    event type's form that is visible has an empty value (as the code
    reads it under the field's id, which is not ["__proto__"]),
    [handleSubmit] only prevents the default action and records the
    errors, one under the key of each of these defects; nothing is sent,
    no payment is started, the brief is not shown and what the guest typed
    stays as it is. *)
Theorem unready_form_is_never_submitted (props : Props) (env : Env) (st : FormState) :
  let blankName := trim (name (draft st)) = ""%string in
  let badEmail := isValidEmail (email (draft st)) = false in
  let missing (field : FormEngine.Field) :=
    ∃ et, resolvedEventType props = Some et ∧ field ∈ form_fields et
          ∧ FormEngine.isFieldVisible field (answers (draft st)) = true
          ∧ FormEngine.f_required field = true
          ∧ FormEngine.emptyAnswer
              (FormEngine.readAnswer (answers (draft st)) (FormEngine.f_id field)) = true
          ∧ FormEngine.f_id field ≠ "__proto__"%string in
  honeypot (draft st) = ""%string →
  blankName ∨ badEmail ∨ (∃ field, missing field) →
  let after := handleSubmit props env st in
  after.2 = [PreventDefault]
  ∧ draft after.1 = draft st ∧ payment after.1 = payment st
  ∧ brief after.1 = brief st ∧ conflict after.1 = conflict st
  ∧ (blankName → is_Some (fieldErrors (feedback after.1) !! "name"))
  ∧ (badEmail → is_Some (fieldErrors (feedback after.1) !! "email"))
  ∧ (∀ field, missing field →
       is_Some (fieldErrors (feedback after.1) !! FormEngine.f_id field)).
Proof.
  intros blankName badEmail missing Hpot Hdefect after.
  unfold after, handleSubmit. unfold truthy at 1. rewrite Hpot.
  destruct (decide (""%string = ""%string)) as [_|Hno]; [|done]. cbv zeta.
  match goal with
  | |- context [bool_decide (?e = ∅)] => set (errs2 := e)
  end.
  pose (errs0 := if truthy (trim (name (draft st))) then (∅ : gmap string string)
                 else <["name" := "Please enter your name"%string]> ∅).
  pose (errs1 := if isValidEmail (email (draft st)) then errs0
                 else <["email" := "Please enter a valid email address"%string]> errs0).
  assert (Hshape : errs2
    = match resolvedEventType props with
      | Some et =>
          match form_fields et with
          | [] => errs1
          | f :: fs =>
              if FormEngine.isValid
                   (FormEngine.validateFormAnswers (urlParses env) (f :: fs)
                      (answers (draft st)))
              then errs1
              else FormEngine.errors
                     (FormEngine.validateFormAnswers (urlParses env) (f :: fs)
                        (answers (draft st))) ∪ errs1
          end
      | None => errs1
      end).
  { unfold errs2. destruct (resolvedEventType props) as [et|]; [|done].
    by destruct (form_fields et). }
  clearbody errs2. subst errs2.
  set (errs2 := match resolvedEventType props with Some _ => _ | None => _ end).
  assert (Hname : blankName → is_Some (errs1 !! "name")).
  { unfold blankName. intros Hb. unfold errs1, errs0, truthy. rewrite Hb. simpl.
    destruct (isValidEmail _); [|rewrite lookup_insert_ne by done];
      rewrite lookup_insert_eq; by eexists. }
  assert (Hemail : badEmail → is_Some (errs1 !! "email")).
  { unfold badEmail. intros Hb. unfold errs1. rewrite Hb.
    rewrite lookup_insert_eq; by eexists. }
  assert (Hkeep : ∀ k, is_Some (errs1 !! k) → is_Some (errs2 !! k)).
  { intros k Hk. unfold errs2. destruct (resolvedEventType props) as [et|]; [|done].
    destruct (form_fields et) as [|f fs]; [done|].
    destruct (FormEngine.isValid _); [done|]. by apply union_is_Some_r. }
  assert (Hmissing : ∀ field, missing field → is_Some (errs2 !! FormEngine.f_id field)).
  { intros field (et & Het & Hin & Hv & Hr & He & Hid). unfold errs2. rewrite Het.
    destruct (form_fields et) as [|f fs] eqn:Hfields; [by apply elem_of_nil in Hin|].
    pose proof (required_field_reported (urlParses env) (answers (draft st)) field (f :: fs)
                  Hin Hv Hr He Hid) as Hsome.
    destruct (FormEngine.isValid _) eqn:Hvalid.
    - unfold FormEngine.validateFormAnswers in Hvalid, Hsome. simpl in Hvalid, Hsome.
      apply bool_decide_eq_true in Hvalid. rewrite Hvalid, lookup_empty in Hsome.
      by destruct Hsome.
    - by apply union_is_Some_l. }
  assert (Hnonempty : errs2 ≠ ∅).
  { intros Hempty.
    assert (Hany : ∃ k, is_Some (errs2 !! k)).
    { destruct Hdefect as [Hb|[Hb|[field Hm]]].
      - exists "name"%string. by apply Hkeep, Hname.
      - exists "email"%string. by apply Hkeep, Hemail.
      - exists (FormEngine.f_id field). by apply Hmissing. }
    destruct Hany as [k [v Hk]]. by rewrite Hempty, lookup_empty in Hk. }
  assert (Hbranch : bool_decide (errs2 = ∅) = false) by by apply bool_decide_eq_false.
  rewrite Hbranch. simpl.
  do 5 (split; [done|]).
  split; [intros Hb; by apply Hkeep, Hname|].
  split; [intros Hb; by apply Hkeep, Hemail|exact Hmissing].
Qed.

Lemma unready_form_is_never_submitted_witness :
  let blank :=
    {| draft := {| name := "   "; email := "jane@example.com"; phone := ""; notes := "";
                   answers := ∅; honeypot := ""; selectedTemplateId := "";
                   templateModified := false; savePreferencesConsent := false;
                   templateSaveDefault := false |};
       feedback := feedback (janeForm ""); conflict := conflict (janeForm "");
       payment := payment (janeForm ""); brief := brief (janeForm "") |} in
  (handleSubmit paidProps payingEnv blank).2 = [PreventDefault]
  ∧ is_Some (fieldErrors (feedback (handleSubmit paidProps payingEnv blank).1) !! "name").
Proof.
  intros blank.
  destruct (unready_form_is_never_submitted paidProps payingEnv blank eq_refl)
    as (Heffects & _ & _ & _ & _ & Hname & _); [by left|].
  split; [exact Heffects|]. by apply Hname.
Defined.

(** X27.  For an event that has to be paid, with its id and a slot at
    hand, submitting the form never creates the booking: the only call
    that leaves the form is the one that starts the payment with the
    selected provider, for the guest's e-mail and name.  The payload is
    kept as the pending one, [isCreatingPayment] is lowered again in
    every case, and a failure is reported under [_form] with a message
    that is never empty. *)
Theorem paid_event_starts_payment_first (props : Props) (env : Env)
    (payload : Payload) (st : FormState) :
  isPaidEvent props = true → eventId props ≠ ""%string → is_Some (resolvedSlot props) →
  let after := submitOrStartPayment props env payload st in
  submitted after.2 = []
  ∧ (∃ call rest, after.2 = call :: rest ∧ List.filter isPaymentCall after.2 = [call]
       ∧ call = match selectedProvider (payment st) with
                | PayPal => CreatePayPalOrder (eventId props) (getStr payload "guest_email")
                              (getStr payload "guest_name")
                | Stripe => CreatePaymentIntent (eventId props) (getStr payload "guest_email")
                              (getStr payload "guest_name")
                end)
  ∧ isCreatingPayment (payment after.1) = false
  ∧ pendingPayload (payment after.1) = Some payload
  ∧ draft after.1 = draft st
  ∧ (fieldErrors (feedback after.1) = fieldErrors (feedback st)
     ∨ ∃ message, message ≠ ""%string
                  ∧ fieldErrors (feedback after.1)
                    = <["_form" := message]> (fieldErrors (feedback st))).
Proof.
  intros Hpaid Hid Hslot after. unfold after, submitOrStartPayment.
  apply OrchestratorFacts.truthy_spec in Hid.
  assert (Hs : bool_decide (is_Some (resolvedSlot props)) = true)
    by by apply bool_decide_eq_true.
  rewrite Hpaid, Hid, Hs. simpl.
  assert (Hor : ∀ message fallback, fallback ≠ ""%string → str_or message fallback ≠ ""%string).
  { intros message fallback Hf. unfold str_or. by destruct (decide (message = ""%string)). }
  destruct (selectedProvider (payment st)).
  - destruct (paymentIntent env) as [clientSecret|message]; simpl.
    + destruct (truthy clientSecret); simpl.
      * split; [done|]. split; [by eexists _, _|]. do 3 (split; [done|]). by left.
      * split; [done|]. split; [by eexists _, _|]. do 3 (split; [done|]).
        right. eexists. split; [|reflexivity]. done.
    + split; [done|]. split; [by eexists _, _|]. do 3 (split; [done|]).
      right. eexists. split; [|reflexivity]. by apply Hor.
  - destruct (paypalOrder env) as [[approveUrl orderId]|message]; simpl.
    + destruct (negb (truthy approveUrl) || negb (truthy orderId)); simpl.
      * split; [done|]. split; [by eexists _, _|]. do 3 (split; [done|]).
        right. eexists. split; [|reflexivity]. done.
      * split; [done|]. split; [by eexists _, _|]. do 3 (split; [done|]). by left.
    + split; [done|]. split; [by eexists _, _|]. do 3 (split; [done|]).
      right. eexists. split; [|reflexivity]. by apply Hor.
Qed.

Lemma paid_event_starts_payment_first_witness :
  let after := submitOrStartPayment paidProps payingEnv janePayload (janePays Stripe) in
  submitted after.2 = []
  ∧ after.2 = [CreatePaymentIntent "evt_1" "jane@example.com" "Jane Guest"].
Proof.
  intros after.
  destruct (paid_event_starts_payment_first paidProps payingEnv janePayload (janePays Stripe))
    as (Hnone & _); [reflexivity|done|by eexists|].
  split; [exact Hnone|reflexivity].
Defined.

(** X28.  With PayPal, once the order is created with an approval URL and
    an order id, the form stores the pending booking and only then leaves
    for the approval page.  What it stores is what the resumption logic
    accepts: the order id of the answer, the payload as submitted, the
    slot with its times and an event type with the same id, provided the
    slot has a start and an end. *)
Theorem paypal_snapshot_is_resumable (props : Props) (env : Env) (payload : Payload)
    (st : FormState) (et : EventType) (slot : Slot) (approveUrl orderId : string) :
  resolvedEventType props = Some et → resolvedSlot props = Some slot →
  isPaidEvent props = true → et_id et ≠ ""%string →
  selectedProvider (payment st) = PayPal →
  paypalOrder env = Resolves (approveUrl, orderId) →
  approveUrl ≠ ""%string → orderId ≠ ""%string →
  ∃ pending,
    (submitOrStartPayment props env payload st).2
    = [CreatePayPalOrder (et_id et) (getStr payload "guest_email")
         (getStr payload "guest_name");
       StorePendingBooking pending; Navigate approveUrl]
    ∧ pb_orderId pending = orderId ∧ pb_payload pending = Some payload
    ∧ pb_userTimezone pending = resolvedUserTimezone props
    ∧ (start slot ≠ ""%string → end_ slot ≠ ""%string →
       ∃ storedEventType,
         Orchestrator.pendingContext pending
         = Some (orderId, payload, plainSlot slot, storedEventType)
         ∧ et_id storedEventType = et_id et).
Proof.
  intros Het Hslot Hpaid Hid Hprovider Horder Hurl Hoid.
  exists (pendingSnapshot props orderId payload).
  unfold submitOrStartPayment, eventId. rewrite Hpaid, Het, Hslot, Hprovider, Horder.
  apply OrchestratorFacts.truthy_spec in Hid, Hurl, Hoid.
  simpl. rewrite Hid, Hurl, Hoid. simpl.
  split; [done|]. do 3 (split; [done|]).
  intros Hstart Hend. apply OrchestratorFacts.truthy_spec in Hstart, Hend.
  exists et. unfold Orchestrator.pendingContext, pendingSnapshot. simpl.
  rewrite Het, Hslot. simpl. by rewrite Hoid, Hstart, Hend, Hid.
Qed.

Lemma paypal_snapshot_is_resumable_witness :
  ∃ pending,
    StorePendingBooking pending
    ∈ (submitOrStartPayment paidProps payingEnv janePayload (janePays PayPal)).2
    ∧ is_Some (Orchestrator.pendingContext pending).
Proof.
  destruct (paypal_snapshot_is_resumable paidProps payingEnv janePayload (janePays PayPal)
              paidIntroCall janeSlot "https://paypal.example/approve?token=EC-7" "ord_1")
    as (pending & Heffects & _ & _ & _ & Hcontext); try done.
  exists pending. split.
  - rewrite Heffects. apply elem_of_cons. right. apply elem_of_cons. by left.
  - destruct Hcontext as (storedEventType & -> & _); [done|done|]. by eexists.
Defined.

(** X29.  After a card payment the booking that is submitted is the
    payload that was pending when the payment was started, with the id of
    the payment intent added, and it is submitted once.  When it is
    accepted the payment dialog is closed and the pending payload is
    dropped; when it is refused they stay, so that the guest can try
    again without paying twice, and the message of the refusal is shown.
    Without a pending payload the dialog is closed and nothing is sent. *)
Theorem payment_success_submits_pending_payload (env : Env) (paymentIntentId : string)
    (st : FormState) :
  let after := handlePaymentSuccess env paymentIntentId st in
  match pendingPayload (payment st) with
  | None => after.2 = [] ∧ showPayment (payment after.1) = false
            ∧ draft after.1 = draft st
  | Some pending =>
      ∃ payload,
        after.2 = [SubmitBooking payload]
        ∧ (paymentIntentId ≠ ""%string →
           payload !! "payment_intent_id" = Some (JStr paymentIntentId))
        ∧ (∀ key, key ≠ "payment_intent_id"%string → payload !! key = pending !! key)
        ∧ draft after.1 = draft st
        ∧ match submitResult env payload with
          | SubmitOk =>
              showPayment (payment after.1) = false
              ∧ paymentClientSecret (payment after.1) = None
              ∧ pendingPayload (payment after.1) = None
          | SubmitFailed message =>
              payment after.1 = payment st
              ∧ (message ≠ ""%string →
                 inlineError (feedback after.1) = message
                 ∧ fieldErrors (feedback after.1) !! "_form" = Some message)
          end
  end.
Proof.
  intros after. unfold after, handlePaymentSuccess.
  destruct (pendingPayload (payment st)) as [pending|] eqn:Hpending; [|done].
  exists (setOrUndefined "payment_intent_id" paymentIntentId pending).
  assert (Hid : paymentIntentId ≠ ""%string →
            setOrUndefined "payment_intent_id" paymentIntentId pending !! "payment_intent_id"
            = Some (JStr paymentIntentId)).
  { intros Hne. unfold setOrUndefined. apply OrchestratorFacts.truthy_spec in Hne.
    by rewrite Hne, lookup_insert_eq. }
  assert (Hrest : ∀ key, key ≠ "payment_intent_id"%string →
            setOrUndefined "payment_intent_id" paymentIntentId pending !! key = pending !! key).
  { intros key Hkey. by apply OrchestratorFacts.setOrUndefined_ne. }
  unfold submitPayload.
  destruct (submitResult env _) as [|message]; simpl.
  - by repeat split.
  - destruct (truthy message) eqn:Hm; simpl.
    + do 5 (split; [done|]). intros _. split; [done|]. by rewrite lookup_insert_eq.
    + do 5 (split; [done|]). intros Hne.
      apply OrchestratorFacts.truthy_spec in Hne. congruence.
Qed.

End CheckoutFacts.

(* ===================================================================== *)
(** * Properties of the confidence badges *)
(* ===================================================================== *)

Module WidgetFacts.
Import Model BookingForm Widget.

(** X30.  The suggestions that the form synthesizes from the alternatives
    of a conflict are never shown as confident ones: the first two get
    the amber badge and all later ones the gray badge, the green badge
    being kept for scores of 80 and more, which only the suggestion
    service can give. *)
Theorem fallback_suggestions_are_never_green (alternatives : list Slot) (k : nat)
    (suggestion : Suggestion) :
  toFallbackSuggestions alternatives !! k = Some suggestion →
  getConfidenceColor (confidenceScore suggestion) ≠ GREEN
  ∧ getConfidenceColor (confidenceScore suggestion)
    = (if (k <? 2)%nat then AMBER else GRAY)
  ∧ 40 ≤ confidenceScore suggestion ≤ 75.
Proof.
  intros Hk. rewrite BookingFormFacts.fallback_lookup in Hk.
  destruct (alternatives !! k) as [alternative|]; [|done].
  injection Hk as <-. cbn [confidenceScore]. unfold getConfidenceColor.
  assert (Hlow : (80 <=? Z.max 40 (75 - Z.of_nat k * 10)) = false) by (apply Z.leb_gt; lia).
  rewrite Hlow. split.
  { by destruct (60 <=? _). }
  split; [|lia].
  destruct (k <? 2)%nat eqn:Hk2.
  - apply Nat.ltb_lt in Hk2.
    assert (H60 : (60 <=? Z.max 40 (75 - Z.of_nat k * 10)) = true) by (apply Z.leb_le; lia).
    by rewrite H60.
  - apply Nat.ltb_ge in Hk2.
    assert (H60 : (60 <=? Z.max 40 (75 - Z.of_nat k * 10)) = false) by (apply Z.leb_gt; lia).
    by rewrite H60.
Qed.

Lemma fallback_suggestions_are_never_green_witness :
  ∃ suggestion,
    toFallbackSuggestions [janeSlot; janeSlot; janeSlot] !! 2%nat = Some suggestion
    ∧ getConfidenceColor (confidenceScore suggestion) = GRAY.
Proof.
  eexists. split; [reflexivity|].
  by destruct (fallback_suggestions_are_never_green [janeSlot; janeSlot; janeSlot] 2 _ eq_refl)
    as (_ & -> & _).
Defined.

End WidgetFacts.
